(** * Run orchestration of the LLM routes (src/routes/llm.js)

    A shallow embedding of the streaming session/run layer: the stream
    relay [handleStream] with its tool-call accumulator, the helpers
    [isRunActive], [extractActiveRunIdFromErrorMessage],
    [retrieveRunUsageWithRetry] and [cancelActiveRuns], and the three
    routes keyed by a thread id.  The source file holds two versions of
    the module; the embedding follows the later one, and line numbers in
    the comments are lines of that file.

    Provider calls, sleeps and audit-log writes are recorded, in the order
    they happen, in a trace; the provider answers each call from the trace
    so far, which makes it an arbitrary deterministic remote party.  The
    audit store answers in the same way the one log write whose failure
    changes what the code does next. *)

From Stdlib Require Import ZArith String Ascii Sorted.
From stdpp Require Import base list strings gmap.

Local Open Scope string_scope.
Local Open Scope list_scope.

(** ** JavaScript values the code tests for truthiness *)

(** [!!s] for an optional string field: absent and the empty string are falsy. *)
Definition truthy_str (s : option string) : bool :=
  match s with
  | Some v => negb (String.eqb v "")
  | None => false
  end.

(** [!!n] for an optional number field: absent and 0 are falsy. *)
Definition truthy_num (n : option Z) : bool :=
  match n with
  | Some v => negb (Z.eqb v 0)
  | None => false
  end.

(** [n || 0] *)
Definition num_or_zero (n : option Z) : Z :=
  if truthy_num n then default 0%Z n else 0%Z.

(** [s || d] *)
Definition str_or (s : option string) (d : string) : string :=
  if truthy_str s then default d s else d.

(** ** Provider payloads, with the fields the code reads *)

Record Usage := {
  prompt_tokens : option Z;
  completion_tokens : option Z
}.

Record Run := {
  run_ident : option string;      (* r.id *)
  run_status : option string;     (* r.status *)
  run_usage : option Usage        (* r.usage *)
}.

Record FunctionDelta := {
  fn_name : option string;
  fn_arguments : option string
}.

(** One fragment of a streamed tool call. *)
Record ToolCallDelta := {
  tc_index : nat;
  tc_type : string;
  tc_id : option string;
  tc_function : option FunctionDelta
}.

(** [delta.step_details]; a step delta of type [tool_calls] carries the
    list of its fragments. *)
Record StepDetails := {
  sd_type : string;
  sd_tool_calls : list ToolCallDelta
}.

Record TextDelta := { text_value : option string }.

Record ContentPart := {
  part_type : string;
  part_text : option TextDelta
}.

Record Delta := {
  delta_content : option (list ContentPart);
  delta_step_details : option StepDetails
}.

Record LastError := { last_error_message : option string }.

(** [event.data]: the run, step or message object of the event.  A delta
    event carries its [delta]; for the other events the field is unused. *)
Record EventData := {
  data_id : option string;
  data_run_id : option string;
  data_delta : Delta;
  data_usage : option Usage;
  data_last_error : option LastError
}.

Record Event := {
  event_name : string;            (* event.event *)
  event_data : EventData          (* event.data *)
}.

(** The provider's event sequence for one run: the events it yields, and
    whether the iteration then finishes or rejects with an error. *)
Inductive StreamEnd :=
| Finished
| Faulted (message : option string).

Record Stream := {
  stream_events : list Event;
  stream_end : StreamEnd
}.

(** ** The client connection *)

(** An accumulated call: [{ id, type, function: { name, arguments } }]. *)
Record ToolCall := {
  call_id : string;
  call_type : string;
  call_name : string;
  call_arguments : string
}.

(** The JSON of one [data: ...] frame. *)
Inductive Frame :=
| FText (content : string)
| FToolCalls (runId : option string) (calls : list ToolCall)
| FDone (runId : option string)
| FError (error : option string).

(** The JSON bodies of the non-streamed answers. *)
Inductive Json :=
| JError (error : string) (message : option string)
| JSuccess.

Record Response := {
  headersSent : bool;
  statusCode : nat;
  body : option Json;
  frames : list Frame;
  ended : bool
}.

Definition fresh_response : Response :=
  {| headersSent := false; statusCode := 200; body := None;
     frames := []; ended := false |}.

(** [res.write(`data: ${JSON.stringify(f)}\n\n`)] *)
Definition res_write (f : Frame) (res : Response) : Response :=
  {| headersSent := true; statusCode := statusCode res; body := body res;
     frames := frames res ++ [f]; ended := ended res |}.

(** [res.end()] *)
Definition res_end (res : Response) : Response :=
  {| headersSent := true; statusCode := statusCode res; body := body res;
     frames := frames res; ended := true |}.

(** [res.setHeader(...); res.flushHeaders()] *)
Definition res_flushHeaders (res : Response) : Response :=
  {| headersSent := true; statusCode := statusCode res; body := body res;
     frames := frames res; ended := ended res |}.

(** [res.status(code).json(j)] *)
Definition res_json (code : nat) (j : Json) (res : Response) : Response :=
  {| headersSent := true; statusCode := code; body := Some j;
     frames := frames res; ended := true |}.

(** ** The tool-call accumulator *)

(** [toolCalls] is a JavaScript array with holes. *)
Abbreviation ToolCalls := (list (option ToolCall)).

(** [toolCalls[i]] : a hole and an index past the end both read undefined. *)
Definition array_get (toolCalls : ToolCalls) (i : nat) : option ToolCall :=
  mjoin (toolCalls !! i).

(** [toolCalls[i] = c] : writing past the end extends the array with holes. *)
Definition array_set (i : nat) (c : ToolCall) (toolCalls : ToolCalls) : ToolCalls :=
  if decide (i < length toolCalls) then <[i := Some c]> toolCalls
  else toolCalls ++ replicate (i - length toolCalls) None ++ [Some c].

Definition append_name (s : option string) (c : ToolCall) : ToolCall :=
  if truthy_str s
  then {| call_id := call_id c; call_type := call_type c;
          call_name := call_name c +:+ default "" s;
          call_arguments := call_arguments c |}
  else c.

Definition append_arguments (s : option string) (c : ToolCall) : ToolCall :=
  if truthy_str s
  then {| call_id := call_id c; call_type := call_type c;
          call_name := call_name c;
          call_arguments := call_arguments c +:+ default "" s |}
  else c.

Definition update_id (s : option string) (c : ToolCall) : ToolCall :=
  if truthy_str s
  then {| call_id := default "" s; call_type := call_type c;
          call_name := call_name c; call_arguments := call_arguments c |}
  else c.

(** The slot a fragment finds or creates, after the fragment is applied
    (lines 1085-1094). *)
Definition apply_fragment (slot : option ToolCall) (tc : ToolCallDelta) : ToolCall :=
  let c0 := match slot with
            | Some c => c
            | None => {| call_id := str_or (tc_id tc) ""; call_type := "function";
                         call_name := ""; call_arguments := "" |}
            end in
  let c1 := append_name (tc_function tc ≫= fn_name) c0 in
  let c2 := append_arguments (tc_function tc ≫= fn_arguments) c1 in
  update_id (tc_id tc) c2.

(** The body of [for (const tc of delta.step_details.tool_calls)]. *)
Definition accumulate (toolCalls : ToolCalls) (tc : ToolCallDelta) : ToolCalls :=
  if String.eqb (tc_type tc) "function"
  then array_set (tc_index tc) (apply_fragment (array_get toolCalls (tc_index tc)) tc) toolCalls
  else toolCalls.

Definition accumulate_all (toolCalls : ToolCalls) (tcs : list ToolCallDelta) : ToolCalls :=
  foldl accumulate toolCalls tcs.

(** [toolCalls.filter(t => t && t.id)] : visits the indices in ascending
    order and skips the holes. *)
Fixpoint filter_calls (toolCalls : ToolCalls) : list ToolCall :=
  match toolCalls with
  | [] => []
  | None :: rest => filter_calls rest
  | Some c :: rest =>
      if negb (String.eqb (call_id c) "") then c :: filter_calls rest
      else filter_calls rest
  end.

(** ** The stream relay *)

Record StreamState := {
  st_runId : option string;
  st_toolCalls : ToolCalls;
  st_inputTokens : Z;
  st_outputTokens : Z;
  st_streamError : option string
}.

Definition initial_state : StreamState :=
  {| st_runId := Some ""; st_toolCalls := []; st_inputTokens := 0;
     st_outputTokens := 0; st_streamError := None |}.

Definition set_runId (r : option string) (st : StreamState) : StreamState :=
  {| st_runId := r; st_toolCalls := st_toolCalls st;
     st_inputTokens := st_inputTokens st; st_outputTokens := st_outputTokens st;
     st_streamError := st_streamError st |}.

Definition set_toolCalls (t : ToolCalls) (st : StreamState) : StreamState :=
  {| st_runId := st_runId st; st_toolCalls := t;
     st_inputTokens := st_inputTokens st; st_outputTokens := st_outputTokens st;
     st_streamError := st_streamError st |}.

Definition set_usage (u : option Usage) (st : StreamState) : StreamState :=
  match u with
  | Some u =>
      {| st_runId := st_runId st; st_toolCalls := st_toolCalls st;
         st_inputTokens := num_or_zero (prompt_tokens u);
         st_outputTokens := num_or_zero (completion_tokens u);
         st_streamError := st_streamError st |}
  | None => st
  end.

Definition set_streamError (e : string) (st : StreamState) : StreamState :=
  {| st_runId := st_runId st; st_toolCalls := st_toolCalls st;
     st_inputTokens := st_inputTokens st; st_outputTokens := st_outputTokens st;
     st_streamError := Some e |}.

(** Lines 1065-1073: the first identity the stream discloses.  The last
    [else if] of the source asks for [runId] and [!runId] at once and is
    never taken. *)
Definition capture_runId (ev : Event) (st : StreamState) : StreamState :=
  if negb (truthy_str (st_runId st)) then
    if truthy_str (data_id (event_data ev)) && String.prefix "thread.run." (event_name ev)
    then set_runId (data_id (event_data ev)) st
    else if truthy_str (data_run_id (event_data ev))
         then set_runId (data_run_id (event_data ev)) st
         else st
  else st.

(** Lines 1075-1115: one turn of the [for await] loop, after the capture;
    returns the frames written during the turn. *)
Definition dispatch (ev : Event) (st : StreamState) : StreamState * list Frame :=
  let d := event_data ev in
  if String.eqb (event_name ev) "thread.message.delta" then
    match delta_content (data_delta d) ≫= head with
    | Some part =>
        if String.eqb (part_type part) "text" && truthy_str (part_text part ≫= text_value)
        then (st, [FText (default "" (part_text part ≫= text_value))])
        else (st, [])
    | None => (st, [])
    end
  else if String.eqb (event_name ev) "thread.run.step.delta" then
    match delta_step_details (data_delta d) with
    | Some sd =>
        if String.eqb (sd_type sd) "tool_calls"
        then (set_toolCalls (accumulate_all (st_toolCalls st) (sd_tool_calls sd)) st, [])
        else (st, [])
    | None => (st, [])
    end
  else if String.eqb (event_name ev) "thread.run.requires_action" then
    (set_usage (data_usage d) (set_runId (data_id d) st), [])
  else if String.eqb (event_name ev) "thread.run.completed" then
    (set_usage (data_usage d) (set_runId (data_id d) st), [])
  else if String.eqb (event_name ev) "thread.run.failed" then
    (set_streamError (str_or (data_last_error d ≫= last_error_message) "Run failed")
       (set_runId (data_id d) st), [])
  else (st, []).

Definition on_event (ev : Event) (st : StreamState) : StreamState * list Frame :=
  dispatch ev (capture_runId ev st).

(** The [for await] loop over the events the provider yields. *)
Fixpoint consume (evs : list Event) (st : StreamState) (res : Response)
  : StreamState * Response :=
  match evs with
  | [] => (st, res)
  | ev :: rest =>
      let '(st', fs) := on_event ev st in
      consume rest st' (foldl (fun r f => res_write f r) res fs)
  end.

Record StreamResult := {
  sr_runId : option string;
  sr_inputTokens : Z;
  sr_outputTokens : Z;
  sr_toolCallCount : nat;
  sr_error : option string
}.

(** [handleStream(stream, res)] *)
Definition handleStream (stream : Stream) (res : Response) : StreamResult * Response :=
  let '(st, res1) := consume (stream_events stream) initial_state res in
  match stream_end stream with
  | Finished =>
      let finalToolCalls := filter_calls (st_toolCalls st) in
      let res2 := if decide (0 < length finalToolCalls)
                  then res_write (FToolCalls (st_runId st) finalToolCalls) res1
                  else res1 in
      let res3 := res_end (res_write (FDone (st_runId st)) res2) in
      ({| sr_runId := st_runId st; sr_inputTokens := st_inputTokens st;
          sr_outputTokens := st_outputTokens st;
          sr_toolCallCount := length finalToolCalls;
          sr_error := st_streamError st |}, res3)
  | Faulted msg =>
      let res2 := res_end (res_write (FError msg) res1) in
      ({| sr_runId := st_runId st; sr_inputTokens := st_inputTokens st;
          sr_outputTokens := st_outputTokens st;
          sr_toolCallCount := length (filter_calls (st_toolCalls st));
          sr_error := msg |}, res2)
  end.

(** ** Run states and the conflict message *)

(** [isRunActive(status)] *)
Definition isRunActive (status : option string) : bool :=
  match status with
  | Some s => String.eqb s "queued" || String.eqb s "in_progress"
              || String.eqb s "requires_action"
  | None => false
  end.

(** The class [[A-Za-z0-9]]. *)
Definition is_alnum (c : ascii) : bool :=
  let n := nat_of_ascii c in
  ((48 <=? n) && (n <=? 57) || (65 <=? n) && (n <=? 90)
   || (97 <=? n) && (n <=? 122))%nat.

(** [s] without its prefix [p], when it has that prefix. *)
Fixpoint strip_prefix (p s : string) : option string :=
  match p, s with
  | EmptyString, _ => Some s
  | String a p', String b s' => if Ascii.eqb a b then strip_prefix p' s' else None
  | String _ _, EmptyString => None
  end.

(** The longest prefix of [s] in [[A-Za-z0-9]*], and what follows it. *)
Fixpoint span_alnum (s : string) : string * string :=
  match s with
  | String c s' =>
      if is_alnum c then let '(tok, rest) := span_alnum s' in (String c tok, rest)
      else (EmptyString, s)
  | EmptyString => (EmptyString, EmptyString)
  end.

(** A match of [/while a run (run_[A-Za-z0-9]+) is active\.?/] that starts
    at the first character of [s]; the result is the group.  The greedy
    [+] takes the whole alphanumeric block: giving characters back would
    need a space inside the block. *)
Definition match_here (s : string) : option string :=
  match strip_prefix "while a run run_" s with
  | Some rest =>
      let '(tok, rest') := span_alnum rest in
      if negb (String.eqb tok "") && String.prefix " is active" rest'
      then Some ("run_" +:+ tok)
      else None
  | None => None
  end.

(** [msg.match(re)] : the leftmost match. *)
Fixpoint regex_search (s : string) : option string :=
  match match_here s with
  | Some g => Some g
  | None =>
      match s with
      | String _ s' => regex_search s'
      | EmptyString => None
      end
  end.

(** [extractActiveRunIdFromErrorMessage(msg)] *)
Definition extractActiveRunIdFromErrorMessage (msg : option string) : option string :=
  match msg with
  | None => None
  | Some s => regex_search s
  end.

(** ** The provider and the trace *)

Record ToolOutput := {
  tool_call_id : string;
  tool_output : string
}.

Inductive Effect :=
| RunsList (threadId : string) (limit : nat)
| RunsCancel (threadId runId : string)
| RunsRetrieve (threadId runId : string)
| MessagesCreate (threadId content : string)
| RunsStream (threadId assistantId : string)
| SubmitToolOutputsStream (threadId runId : string) (toolOutputs : list ToolOutput)
| Sleep (ms : nat)
| LogRequest (threadId kind : string) (toolCallCount : nat)
    (inputTokens outputTokens : Z) (status : string) (errorMessage : option string)
| UpdateSessionStatus (threadId status : string) (errorMessage : option string).

(** An awaited call resolves or rejects with an error whose [message] may
    be missing. *)
Inductive Result (A : Type) :=
| Ok (a : A)
| Throw (message : option string).
Arguments Ok {A} a.
Arguments Throw {A} message.

(** The session's client object.  The [has_] fields say whether the
    optional chain [client?.beta?.threads?.runs?.m] finds the method; each
    method answers from the trace before the call. *)
Record Client := {
  has_runs_list : bool;
  has_runs_cancel : bool;
  has_runs_retrieve : bool;
  runs_list : list Effect -> string -> nat -> Result (option (list Run));
  runs_cancel : list Effect -> string -> string -> Result unit;
  runs_retrieve : list Effect -> string -> string -> Result (option Run);
  messages_create : list Effect -> string -> string -> Result unit;
  runs_stream : list Effect -> string -> string -> Result Stream;
  runs_submitToolOutputsStream :
    list Effect -> string -> string -> list ToolOutput -> Result Stream
}.

Record World := {
  trace : list Effect;
  response : Response
}.

Definition Prog (A : Type) : Type := World -> Result A * World.

Definition ret {A} (a : A) : Prog A := fun w => (Ok a, w).

Definition bind {A B} (m : Prog A) (k : A -> Prog B) : Prog B :=
  fun w =>
    match m w with
    | (Ok a, w') => k a w'
    | (Throw e, w') => (Throw e, w')
    end.

Notation "x <- m ;; k" := (bind m (fun x => k))
  (at level 100, m at next level, right associativity).
Notation "m ;;; k" := (bind m (fun _ => k))
  (at level 100, right associativity).

(** [await f(...)] : the call is recorded, the provider answers. *)
Definition call {A} (e : Effect) (reply : list Effect -> Result A) : Prog A :=
  fun w => (reply (trace w), {| trace := trace w ++ [e]; response := response w |}).

(** [try { x = await f(...) } catch (e) { x = null }] *)
Definition call_or_null {A} (e : Effect) (reply : list Effect -> Result (option A))
  : Prog (option A) :=
  fun w =>
    let w' := {| trace := trace w ++ [e]; response := response w |} in
    match reply (trace w) with
    | Ok a => (Ok a, w')
    | Throw _ => (Ok None, w')
    end.

(** An effect that cannot fail here: a sleep, or an audit write whose own
    failure the route swallows. *)
Definition emit (e : Effect) : Prog unit :=
  fun w => (Ok tt, {| trace := trace w ++ [e]; response := response w |}).

(** [await new Promise(resolve => setTimeout(resolve, ms))] *)
Definition sleep (ms : nat) : Prog unit := emit (Sleep ms).

Definition on_response (f : Response -> Response) : Prog unit :=
  fun w => (Ok tt, {| trace := trace w; response := f (response w) |}).

Fixpoint for_each {A} (f : A -> Prog unit) (l : list A) : Prog unit :=
  match l with
  | [] => ret tt
  | x :: rest => f x ;;; for_each f rest
  end.

(** ** Usage reconciliation *)

(** [usage && (usage.prompt_tokens || usage.completion_tokens)] *)
Definition has_tokens (usage : option Usage) : bool :=
  match usage with
  | Some u => truthy_num (prompt_tokens u) || truthy_num (completion_tokens u)
  | None => false
  end.

(** [{ inputTokens: usage.prompt_tokens || 0,
       outputTokens: usage.completion_tokens || 0 }] *)
Definition usage_pair (usage : option Usage) : Z * Z :=
  (num_or_zero (usage ≫= prompt_tokens), num_or_zero (usage ≫= completion_tokens)).

(** The [for (let i = 0; i < 6; i++)] loop with [n] turns left. *)
Fixpoint usage_loop (client : Client) (threadId runId : string) (n i : nat)
  : Prog (option (Z * Z)) :=
  match n with
  | 0 => ret None      (* after the loop every path returns null *)
  | S n' =>
      lastRun <- call_or_null (RunsRetrieve threadId runId)
                   (fun h => runs_retrieve client h threadId runId) ;;
      if has_tokens (lastRun ≫= run_usage)
      then ret (Some (usage_pair (lastRun ≫= run_usage)))
      else if truthy_str (lastRun ≫= run_status) && isRunActive (lastRun ≫= run_status)
      then ret None
      else (if (i <? 5)%nat then sleep 250 else ret tt) ;;;
           usage_loop client threadId runId n' (S i)
  end.

(** [retrieveRunUsageWithRetry(client, threadId, runId)] *)
Definition retrieveRunUsageWithRetry (client : Client) (threadId : string)
    (runId : option string) : Prog (option (Z * Z)) :=
  if negb (has_runs_retrieve client) || negb (truthy_str runId) then ret None
  else usage_loop client threadId (default "" runId) 6 0.

(** ** Cancelling the active runs *)

(** The [for (let i = 0; i < 10; i++)] poll with [n] turns left. *)
Fixpoint await_cancelled (client : Client) (threadId runId : string) (n : nat)
  : Prog unit :=
  match n with
  | 0 => ret tt
  | S n' =>
      rr <- call (RunsRetrieve threadId runId)
              (fun h => runs_retrieve client h threadId runId) ;;
      if negb (isRunActive (rr ≫= run_status)) then ret tt
      else sleep 250 ;;; await_cancelled client threadId runId n'
  end.

(** The runs the loop of [cancelActiveRuns] does not skip. *)
Definition eligible (excludeRunId : option string) (r : Run) : bool :=
  truthy_str (run_ident r)
  && negb (bool_decide (run_ident r = excludeRunId))
  && isRunActive (run_status r).

(** One turn of [for (const r of data)]. *)
Definition cancel_run (client : Client) (threadId : string)
    (excludeRunId : option string) (r : Run) : Prog unit :=
  if negb (truthy_str (run_ident r)) || bool_decide (run_ident r = excludeRunId)
  then ret tt
  else if negb (isRunActive (run_status r)) then ret tt
  else if negb (has_runs_cancel client) then ret tt
  else
    call (RunsCancel threadId (default "" (run_ident r)))
      (fun h => runs_cancel client h threadId (default "" (run_ident r))) ;;;
    if has_runs_retrieve client
    then await_cancelled client threadId (default "" (run_ident r)) 10
    else ret tt.

(** [cancelActiveRuns(client, threadId, excludeRunId)] *)
Definition cancelActiveRuns (client : Client) (threadId : string)
    (excludeRunId : option string) : Prog unit :=
  if negb (has_runs_list client) then ret tt
  else
    runs <- call (RunsList threadId 10) (fun h => runs_list client h threadId 10) ;;
    for_each (cancel_run client threadId excludeRunId) (default [] runs).

(** ** The routes *)

Record Session := {
  session_client : Client;
  session_assistantId : string;
  session_userId : Z;
  session_deploymentName : string
}.

(** [activeSessions] : thread id -> session. *)
Abbreviation Sessions := (gmap string Session).

(** Lines 862-880: the append, and its one recovery from a conflict. *)
Definition append_message (client : Client) (threadId message : string) : Prog unit :=
  fun w =>
    match call (MessagesCreate threadId message)
            (fun h => messages_create client h threadId message) w with
    | (Ok _, w1) => (Ok tt, w1)
    | (Throw e, w1) =>
        match extractActiveRunIdFromErrorMessage e with
        | Some runIdFromErr =>
            if has_runs_cancel client then
              (call (RunsCancel threadId runIdFromErr)
                 (fun h => runs_cancel client h threadId runIdFromErr) ;;;
               cancelActiveRuns client threadId None ;;;
               call (MessagesCreate threadId message)
                 (fun h => messages_create client h threadId message)) w1
            else (Throw e, w1)
        | None => (Throw e, w1)
        end
    end.

(** Lines 889-896 and 979-990: the figures that are logged. *)
Definition reported_usage (streamResult : StreamResult) (usage : option (Z * Z)) : Z * Z :=
  match usage with
  | Some u => u
  | None => (sr_inputTokens streamResult, sr_outputTokens streamResult)
  end.

(** [streamResult.error ? 'error' : 'success'] *)
Definition log_status (error : option string) : string :=
  if truthy_str error then "error" else "success".

(** [streamResult.error || null] *)
Definition log_error (error : option string) : option string :=
  if truthy_str error then error else None.

(** [await handleStream(stream, res)] *)
Definition relay (stream : Stream) : Prog StreamResult :=
  fun w =>
    let '(streamResult, res) := handleStream stream (response w) in
    (Ok streamResult, {| trace := trace w; response := res |}).

(** The [try] block of the chat route once the session is authorized. *)
Definition chat_try (client : Client) (assistantId threadId message : string) : Prog unit :=
  on_response res_flushHeaders ;;;
  cancelActiveRuns client threadId None ;;;
  append_message client threadId message ;;;
  stream <- call (RunsStream threadId assistantId)
              (fun h => runs_stream client h threadId assistantId) ;;
  streamResult <- relay stream ;;
  usage <- retrieveRunUsageWithRetry client threadId (sr_runId streamResult) ;;
  emit (LogRequest threadId "chat" (sr_toolCallCount streamResult)
          (fst (reported_usage streamResult usage))
          (snd (reported_usage streamResult usage))
          (log_status (sr_error streamResult)) (log_error (sr_error streamResult))).

(** The last step of both [catch] blocks (lines 926-932, 1019-1024). *)
Definition report_error (e : option string) (res : Response) : Response :=
  if headersSent res then res_end (res_write (FError e) res)
  else res_json 500 (JError "LLM_ERROR" e) res.

(** The audit store [llmLogOps] (models/database.js).  [logRequest]
    returns, or rethrows the error of the database (lines 287-290); it
    answers from the trace before the call.  [updateSessionStatus] catches
    its own errors (lines 293-304) and so always returns. *)
Record LlmLogOps := {
  logRequest : list Effect -> string -> string -> nat -> Z -> Z -> string
               -> option string -> Result unit
}.

(** The [catch] block of the chat route.  Lines 917-924 put both audit
    writes in one [try]: when [logRequest] throws, [updateSessionStatus]
    is not reached.  ([threadId] is truthy wherever the block is entered.) *)
Definition chat_catch (llmLogOps : LlmLogOps) (threadId : string) (e : option string)
    (w : World) : World :=
  {| trace := trace w ++
       match logRequest llmLogOps (trace w) threadId "chat" 0 0 0 "error" e with
       | Ok _ => [LogRequest threadId "chat" 0 0 0 "error" e;
                  UpdateSessionStatus threadId "error" e]
       | Throw _ => [LogRequest threadId "chat" 0 0 0 "error" e]
       end;
     response := report_error e (response w) |}.

Record ChatRequest := {
  chat_threadId : option string;
  chat_message : option string;
  chat_user_id : Z               (* req.user.id *)
}.

(** [router.post('/chat', ...)] *)
Definition post_chat (llmLogOps : LlmLogOps) (sessions : Sessions) (req : ChatRequest)
    (w : World) : World :=
  if negb (truthy_str (chat_threadId req)) || negb (truthy_str (chat_message req)) then
    {| trace := trace w;
       response := res_json 400 (JError "Missing threadId or message" None) (response w) |}
  else
    let threadId := default "" (chat_threadId req) in
    let message := default "" (chat_message req) in
    match sessions !! threadId with
    | None =>
        {| trace := trace w;
           response := res_json 404
             (JError "SESSION_NOT_FOUND"
                (Some "Thread session not found. Call /assistant first.")) (response w) |}
    | Some session =>
        if negb (Z.eqb (session_userId session) (chat_user_id req)) then
          {| trace := trace w;
             response := res_json 403
               (JError "UNAUTHORIZED" (Some "Not authorized to access this session"))
               (response w) |}
        else
          match chat_try (session_client session) (session_assistantId session)
                  threadId message w with
          | (Ok _, w') => w'
          | (Throw e, w') => chat_catch llmLogOps threadId e w'
          end
    end.

(** The [try] block of the tool-outputs route once the session is authorized. *)
Definition tool_outputs_try (client : Client) (threadId runId : string)
    (toolOutputs : list ToolOutput) : Prog unit :=
  on_response res_flushHeaders ;;;
  cancelActiveRuns client threadId (Some runId) ;;;
  stream <- call (SubmitToolOutputsStream threadId runId toolOutputs)
              (fun h => runs_submitToolOutputsStream client h threadId runId toolOutputs) ;;
  streamResult <- relay stream ;;
  usage <- (if negb (truthy_str (sr_runId streamResult)) then ret None
            else retrieveRunUsageWithRetry client threadId (sr_runId streamResult)) ;;
  emit (LogRequest threadId "tool_output" (length toolOutputs)
          (fst (reported_usage streamResult usage))
          (snd (reported_usage streamResult usage))
          (log_status (sr_error streamResult)) (log_error (sr_error streamResult))).

(** The [catch] block of the tool-outputs route. *)
Definition tool_outputs_catch (threadId : string) (toolOutputs : list ToolOutput)
    (e : option string) (w : World) : World :=
  {| trace := trace w ++ [LogRequest threadId "tool_output" (length toolOutputs)
                            0 0 "error" e];
     response := report_error e (response w) |}.

Record ToolOutputsRequest := {
  to_threadId : option string;
  to_runId : option string;
  to_toolOutputs : option (list ToolOutput);
  to_user_id : Z
}.

(** [router.post('/tool-outputs', ...)] *)
Definition post_tool_outputs (sessions : Sessions) (req : ToolOutputsRequest) (w : World)
  : World :=
  if negb (truthy_str (to_threadId req)) || negb (truthy_str (to_runId req))
     || negb (bool_decide (is_Some (to_toolOutputs req))) then
    {| trace := trace w;
       response := res_json 400 (JError "Missing required fields" None) (response w) |}
  else
    let threadId := default "" (to_threadId req) in
    let runId := default "" (to_runId req) in
    let toolOutputs := default [] (to_toolOutputs req) in
    match sessions !! threadId with
    | None =>
        {| trace := trace w;
           response := res_json 404
             (JError "SESSION_NOT_FOUND" (Some "Thread session not found")) (response w) |}
    | Some session =>
        if negb (Z.eqb (session_userId session) (to_user_id req)) then
          {| trace := trace w;
             response := res_json 403 (JError "UNAUTHORIZED" None) (response w) |}
        else
          match tool_outputs_try (session_client session) threadId runId toolOutputs w with
          | (Ok _, w') => w'
          | (Throw e, w') => tool_outputs_catch threadId toolOutputs e w'
          end
    end.

(** [router.delete('/session/:threadId', ...)] *)
Definition delete_session (sessions : Sessions) (threadId : string) (user_id : Z)
    (w : World) : Sessions * World :=
  match sessions !! threadId with
  | Some session =>
      if Z.eqb (session_userId session) user_id then
        (delete threadId sessions,
         {| trace := trace w ++ [UpdateSessionStatus threadId "completed" None];
            response := res_json 200 JSuccess (response w) |})
      else
        (sessions,
         {| trace := trace w;
            response := res_json 404 (JError "Session not found" None) (response w) |})
  | None =>
      (sessions,
       {| trace := trace w;
          response := res_json 404 (JError "Session not found" None) (response w) |})
  end.

(** A request arrives with nothing sent and, here, an empty trace. *)
Definition fresh_world : World := {| trace := []; response := fresh_response |}.

(** ** Vocabulary of the statements *)

(** [done] and [error] frames close a relayed stream. *)
Definition is_terminal (f : Frame) : bool :=
  match f with
  | FDone _ | FError _ => true
  | _ => false
  end.

Definition is_tool_calls (f : Frame) : bool :=
  match f with
  | FToolCalls _ _ => true
  | _ => false
  end.

(** A slot that holds a call with a non-empty id. *)
Definition has_id (slot : option ToolCall) : bool :=
  match slot with
  | Some c => negb (String.eqb (call_id c) "")
  | None => false
  end.

(** The accumulator when the provider's events are used up. *)
Definition final_state (stream : Stream) : StreamState :=
  fst (consume (stream_events stream) initial_state fresh_response).

(** The fragments of one index, in arrival order. *)
Definition fragments_at (i : nat) (tcs : list ToolCallDelta) : list ToolCallDelta :=
  List.filter (fun tc => Nat.eqb (tc_index tc) i) tcs.

(** What the fragments of index [i] make of slot [i]. *)
Definition slot_fold (i : nat) (slot : option ToolCall) (tcs : list ToolCallDelta)
  : option ToolCall :=
  foldl (fun o tc =>
           if Nat.eqb (tc_index tc) i && String.eqb (tc_type tc) "function"
           then Some (apply_fragment o tc) else o) slot tcs.

(** One more than the largest index a function fragment writes. *)
Fixpoint write_bound (tcs : list ToolCallDelta) : nat :=
  match tcs with
  | [] => 0
  | tc :: rest =>
      if String.eqb (tc_type tc) "function"
      then Nat.max (S (tc_index tc)) (write_bound rest)
      else write_bound rest
  end.

(** A run lifecycle event carries the id of its run. *)
Definition names_its_run (ev : Event) : bool :=
  if String.eqb (event_name ev) "thread.run.requires_action"
     || String.eqb (event_name ev) "thread.run.completed"
     || String.eqb (event_name ev) "thread.run.failed"
  then truthy_str (data_id (event_data ev))
  else true.

Definition count_effects (p : Effect -> bool) (t : list Effect) : nat :=
  length (List.filter p t).

Definition is_create (e : Effect) : bool :=
  match e with MessagesCreate _ _ => true | _ => false end.

Definition is_list (e : Effect) : bool :=
  match e with RunsList _ _ => true | _ => false end.

Definition is_retrieve (e : Effect) : bool :=
  match e with RunsRetrieve _ _ => true | _ => false end.

(** The run ids of the cancellations in a trace, in order. *)
Definition cancels_of (t : list Effect) : list string :=
  omap (fun e => match e with RunsCancel _ r => Some r | _ => None end) t.

(** [k] polls of a still active run, each followed by its 250 ms pause. *)
Definition active_polls (threadId runId : string) (k : nat) : list Effect :=
  concat (replicate k [RunsRetrieve threadId runId; Sleep 250]).

(** The effects of a polling loop: [k] polls that continue, then possibly
    one that ends the loop. *)
Definition poll_pattern (threadId runId : string) (k : nat) (final : bool) : list Effect :=
  active_polls threadId runId k ++ (if final then [RunsRetrieve threadId runId] else []).

(** What the provider answers to poll number [j] (from 0) of a loop that
    started at trace [h] and has paused after every earlier poll. *)
Definition poll_reply (client : Client) (threadId runId : string) (h : list Effect) (j : nat)
  : Result (option Run) :=
  runs_retrieve client (h ++ active_polls threadId runId j) threadId runId.

(** The run a usage poll sees: a rejected retrieve counts as null. *)
Definition polled_run (r : Result (option Run)) : option Run :=
  match r with
  | Ok run => run
  | Throw _ => None
  end.

(** A usage poll after which the loop goes on: no figure, run not active. *)
Definition inconclusive (r : Result (option Run)) : bool :=
  negb (has_tokens (polled_run r ≫= run_usage))
  && negb (isRunActive (polled_run r ≫= run_status)).


(** The effects of cancelling one run and waiting for it. *)
Definition cancel_segment (threadId : string) (runId : string) (seg : list Effect) : Prop :=
  exists k final,
    seg = RunsCancel threadId runId :: poll_pattern threadId runId k final
    /\ k + (if final then 1 else 0) <= 10.

(** The listing [cancelActiveRuns] works from, asked at trace [h]. *)
Definition listed (client : Client) (threadId : string) (h : list Effect) : list Run :=
  match runs_list client h threadId 10 with
  | Ok runs => default [] runs
  | Throw _ => []
  end.

Definition run_id_of (r : Run) : string := default "" (run_ident r).

(** [k] usage polls, with a 250 ms pause between one poll and the next. *)
Definition usage_polls (threadId runId : string) (k : nat) : list Effect :=
  match k with
  | 0 => []
  | S k' => poll_pattern threadId runId k' true
  end.

(** The world after more effects. *)
Definition after (w : World) (new : list Effect) : World :=
  {| trace := trace w ++ new; response := response w |}.

(** The effects a sweep of thread [threadId] can have. *)
Definition sweep_effect (threadId : string) (e : Effect) : bool :=
  match e with
  | RunsList t n => String.eqb t threadId && Nat.eqb n 10
  | RunsCancel t _ => String.eqb t threadId
  | RunsRetrieve t _ => String.eqb t threadId
  | Sleep ms => Nat.eqb ms 250
  | _ => false
  end.

(** A program that only adds to the trace, and among what it adds has at
    most [n] message appends. *)
Definition creates_at_most (n : nat) {A} (m : Prog A) : Prop :=
  forall w, exists new,
    trace (snd (m w)) = trace w ++ new /\ count_effects is_create new <= n.

(** The relay state has captured no inline usage while it has no run id. *)
Definition no_usage_without_runId (st : StreamState) : Prop :=
  truthy_str (st_runId st) = false -> st_inputTokens st = 0%Z /\ st_outputTokens st = 0%Z.

(** The status update of the chat route's [catch] block, entered with
    error [e] after the calls [h]: made when the log write returns. *)
Definition status_update (llmLogOps : LlmLogOps) (h : list Effect) (threadId : string)
    (e : option string) : list Effect :=
  match logRequest llmLogOps h threadId "chat" 0 0 0 "error" e with
  | Ok _ => [UpdateSessionStatus threadId "error" e]
  | Throw _ => []
  end.

(** A chat request that started in world [w] ends, as [out], with the error
    [e] thrown in world [w']: after the calls of [w'] come only the audit
    writes, and the client gets one [error] frame on a closed stream. *)
Definition ends_in_error (llmLogOps : LlmLogOps) (threadId : string) (e : option string)
    (w w' out : World) : Prop :=
  trace out = trace w' ++ LogRequest threadId "chat" 0 0 0 "error" e
                          :: status_update llmLogOps (trace w') threadId e
  /\ frames (response out) = frames (response w) ++ [FError e]
  /\ ended (response out) = true.

(** The 403 answer. *)
Definition is_unauthorized (res : Response) : Prop :=
  statusCode res = 403 /\ exists m, body res = Some (JError "UNAUTHORIZED" m).

(** A fragment that carries a name, or arguments. *)
Definition carries_name (tc : ToolCallDelta) : bool :=
  truthy_str (tc_function tc ≫= fn_name).

Definition carries_arguments (tc : ToolCallDelta) : bool :=
  truthy_str (tc_function tc ≫= fn_arguments).

(** The frames a relay adds after the text it forwarded. *)
Definition closing_frames (stream : Stream) (r : StreamResult) (slots : ToolCalls)
  : list Frame :=
  match stream_end stream with
  | Finished =>
      (if decide (0 < sr_toolCallCount r)
       then [FToolCalls (sr_runId r) (filter_calls slots)] else [])
      ++ [FDone (sr_runId r)]
  | Faulted message => [FError message]
  end.

Definition tool_calls_frame_written (stream : Stream) : Prop :=
  exists rid calls,
    FToolCalls rid calls ∈ frames (snd (handleStream stream fresh_response)).

(** ** Scenarios *)

(** The double-quote character, as a string. *)
Definition dq : string := String (ascii_of_nat 34) EmptyString.

Definition fragment (i : nat) (id name arguments : option string) : ToolCallDelta :=
  {| tc_index := i; tc_type := "function"; tc_id := id;
     tc_function := Some {| fn_name := name; fn_arguments := arguments |} |}.

Definition no_delta : Delta :=
  {| delta_content := None; delta_step_details := None |}.

(** A [thread.run.*] lifecycle event of run [rid]. *)
Definition run_event (name rid : string) : Event :=
  {| event_name := name;
     event_data := {| data_id := Some rid; data_run_id := None; data_delta := no_delta;
                      data_usage := None; data_last_error := None |} |}.

(** A [thread.run.step.delta] event of step [sid] with tool-call fragments. *)
Definition step_delta_event (sid : string) (tcs : list ToolCallDelta) : Event :=
  {| event_name := "thread.run.step.delta";
     event_data :=
       {| data_id := Some sid; data_run_id := None;
          data_delta :=
            {| delta_content := None;
               delta_step_details := Some {| sd_type := "tool_calls"; sd_tool_calls := tcs |} |};
          data_usage := None; data_last_error := None |} |}.

(** A [thread.message.delta] event with one text part. *)
Definition text_event (s : string) : Event :=
  {| event_name := "thread.message.delta";
     event_data :=
       {| data_id := Some "msg_1"; data_run_id := None;
          data_delta :=
            {| delta_content :=
                 Some [{| part_type := "text";
                          part_text := Some {| text_value := Some s |} |}];
               delta_step_details := None |};
          data_usage := None; data_last_error := None |} |}.

(** Scenario D of the specification. *)
Definition scenario_d_first : ToolCallDelta :=
  fragment 0 (Some "call_1") (Some "read_f") (Some ("{" +:+ dq +:+ "path" +:+ dq +:+ ":")).

Definition scenario_d_second : ToolCallDelta :=
  fragment 0 None (Some "ile") (Some (dq +:+ "a.txt" +:+ dq +:+ "}")).

Definition scenario_d_call : ToolCall :=
  {| call_id := "call_1"; call_type := "function"; call_name := "read_file";
     call_arguments := "{" +:+ dq +:+ "path" +:+ dq +:+ ":" +:+ dq +:+ "a.txt" +:+ dq +:+ "}" |}.

Definition scenario_d_stream : Stream :=
  {| stream_events :=
       [run_event "thread.run.created" "run_1";
        step_delta_event "step_1" [scenario_d_first];
        step_delta_event "step_1" [scenario_d_second];
        run_event "thread.run.requires_action" "run_1"];
     stream_end := Finished |}.

(** A stream that breaks after a complete tool call has arrived. *)
Definition broken_stream : Stream :=
  {| stream_events :=
       [run_event "thread.run.created" "run_1";
        step_delta_event "step_1" [scenario_d_first; scenario_d_second]];
     stream_end := Faulted (Some "socket hang up") |}.

(** Two deliveries that interleave the fragments of indices 0 and 1. *)
Definition other_call_fragment : ToolCallDelta :=
  fragment 1 (Some "call_2") (Some "list_dir") (Some "{}").

Definition delivery_a : list ToolCallDelta :=
  [scenario_d_first; scenario_d_second; other_call_fragment].

Definition delivery_b : list ToolCallDelta :=
  [other_call_fragment; scenario_d_first; scenario_d_second].

Definition name_only : ToolCallDelta := fragment 0 (Some "call_1") (Some "read_file") None.

Definition arguments_only : ToolCallDelta := fragment 0 None None (Some "{}").

(** A provider that plays a script: the listing is fixed, the answer to a
    retrieve depends on how many retrieves came before, the answer to an
    append on how many appends came before. *)
Record Script := {
  script_runs : list Run;
  script_cancel : string -> Result unit;
  script_retrieve : nat -> Result (option Run);
  script_create : nat -> Result unit;
  script_stream : Stream
}.

Definition scripted (s : Script) : Client :=
  {| has_runs_list := true; has_runs_cancel := true; has_runs_retrieve := true;
     runs_list := fun _ _ _ => Ok (Some (script_runs s));
     runs_cancel := fun _ _ r => script_cancel s r;
     runs_retrieve := fun h _ _ => script_retrieve s (count_effects is_retrieve h);
     messages_create := fun h _ _ => script_create s (count_effects is_create h);
     runs_stream := fun _ _ _ => Ok (script_stream s);
     runs_submitToolOutputsStream := fun _ _ _ _ => Ok (script_stream s) |}.

Definition run_in (rid status : string) (usage : option Usage) : Run :=
  {| run_ident := Some rid; run_status := Some status; run_usage := usage |}.

Definition some_usage : Usage :=
  {| prompt_tokens := Some 120%Z; completion_tokens := Some 45%Z |}.

(** The provider finalizes the usage of [run_1] between the second and the
    third poll. *)
Definition late_usage : Script :=
  {| script_runs := [];
     script_cancel := fun _ => Ok tt;
     script_retrieve := fun n =>
       if (n <? 2)%nat then Ok (Some (run_in "run_1" "completed" None))
       else Ok (Some (run_in "run_1" "completed" (Some some_usage)));
     script_create := fun _ => Ok tt;
     script_stream := scenario_d_stream |}.

(** [run_1] is waiting for tool outputs whenever it is polled. *)
Definition waiting_run : Script :=
  {| script_runs := [];
     script_cancel := fun _ => Ok tt;
     script_retrieve := fun _ => Ok (Some (run_in "run_1" "requires_action" None));
     script_create := fun _ => Ok tt;
     script_stream := scenario_d_stream |}.

(** A stream that ends before it discloses any run. *)
Definition anonymous_stream : Stream :=
  {| stream_events := [text_event "Here"]; stream_end := Finished |}.

(** The provider's conflict message. *)
Definition conflict_message (rid : string) : string :=
  "Can't add messages to thread_1 while a run " +:+ rid +:+ " is active.".

(** Scenario C with a second conflict: the thread lists one run waiting for
    tool outputs and one finished run, cancellation takes effect at once,
    and every append is refused with a conflict. *)
Definition wedged_session : Script :=
  {| script_runs := [run_in "run_old" "requires_action" None;
                     run_in "run_done" "completed" (Some some_usage)];
     script_cancel := fun _ => Ok tt;
     script_retrieve := fun _ => Ok (Some (run_in "run_old" "cancelled" None));
     script_create := fun n =>
       if (n =? 0)%nat then Throw (Some (conflict_message "run_abc123"))
       else Throw (Some (conflict_message "run_def456"));
     script_stream := scenario_d_stream |}.

(** Scenario C: as above, but the second append is accepted. *)
Definition recovered_session : Script :=
  {| script_runs := script_runs wedged_session;
     script_cancel := script_cancel wedged_session;
     script_retrieve := script_retrieve wedged_session;
     script_create := fun n =>
       if (n =? 0)%nat then Throw (Some (conflict_message "run_abc123")) else Ok tt;
     script_stream := scenario_d_stream |}.


(** The first append meets a conflict with [run_abc123], which finishes
    before the explicit cancel reaches the provider: the cancel is
    rejected. *)
Definition lost_race : Script :=
  {| script_runs := [];
     script_cancel := fun _ => Throw (Some "Cannot cancel run with status 'completed'.");
     script_retrieve := fun _ => Ok (Some (run_in "run_abc123" "completed" None));
     script_create := fun n =>
       if (n =? 0)%nat then Throw (Some (conflict_message "run_abc123")) else Ok tt;
     script_stream := scenario_d_stream |}.

(** A run completes with its usage in an event whose payload has no id. *)
Definition unnamed_completion : Stream :=
  {| stream_events :=
       [{| event_name := "thread.run.completed";
           event_data :=
             {| data_id := None; data_run_id := None; data_delta := no_delta;
                data_usage := Some {| prompt_tokens := Some 10%Z;
                                      completion_tokens := Some 4%Z |};
                data_last_error := None |} |}];
     stream_end := Finished |}.

Definition unnamed_run : Script :=
  {| script_runs := [];
     script_cancel := fun _ => Ok tt;
     script_retrieve := fun _ => Ok (Some (run_in "run_1" "completed" (Some some_usage)));
     script_create := fun _ => Ok tt;
     script_stream := unnamed_completion |}.

(** An audit store that takes every record, and one whose database
    refuses every write. *)
Definition working_database : LlmLogOps :=
  {| logRequest := fun _ _ _ _ _ _ _ _ => Ok tt |}.

Definition broken_database : LlmLogOps :=
  {| logRequest := fun _ _ _ _ _ _ _ _ => Throw (Some "database disk image is malformed") |}.

Definition session_of (s : Script) (owner : Z) : Session :=
  {| session_client := scripted s; session_assistantId := "asst_1";
     session_userId := owner; session_deploymentName := "gpt-4o" |}.

(** One session, of thread [thread_1], owned by user 7. *)
Definition registry (s : Script) : Sessions := {[ "thread_1" := session_of s 7%Z ]}.

Definition chat_from (user : Z) : ChatRequest :=
  {| chat_threadId := Some "thread_1"; chat_message := Some "list files";
     chat_user_id := user |}.

Definition tool_outputs_from (user : Z) : ToolOutputsRequest :=
  {| to_threadId := Some "thread_1"; to_runId := Some "run_1";
     to_toolOutputs := Some [{| tool_call_id := "call_1"; tool_output := "done" |}];
     to_user_id := user |}.

(** ** The relay, event by event *)

(** The text a [thread.message.delta] event makes the relay forward: the
    value of its first content part, when that part is text and the value
    is not empty. *)
Definition event_text (ev : Event) : option string :=
  if String.eqb (event_name ev) "thread.message.delta" then
    match delta_content (data_delta (event_data ev)) ≫= head with
    | Some part =>
        if String.eqb (part_type part) "text" && truthy_str (part_text part ≫= text_value)
        then part_text part ≫= text_value
        else None
    | None => None
    end
  else None.

(** The events whose branch assigns [runId = event.data.id]. *)
Definition is_lifecycle (ev : Event) : bool :=
  String.eqb (event_name ev) "thread.run.requires_action"
  || String.eqb (event_name ev) "thread.run.completed"
  || String.eqb (event_name ev) "thread.run.failed".

(** The identity an event discloses to a relay that has none yet: the id of
    a [thread.run.*] event, else the [run_id] of its payload. *)
Definition disclosure (ev : Event) : option string :=
  if truthy_str (data_id (event_data ev)) && String.prefix "thread.run." (event_name ev)
  then data_id (event_data ev)
  else if truthy_str (data_run_id (event_data ev))
       then data_run_id (event_data ev)
       else None.

(** The run id a relay that starts in state [st] holds after [evs]. *)
Definition runId_after (st : StreamState) (evs : list Event) : option string :=
  match last (List.filter is_lifecycle evs) with
  | Some ev => data_id (event_data ev)
  | None =>
      if truthy_str (st_runId st) then st_runId st
      else match head (omap disclosure evs) with
           | Some rid => Some rid
           | None => st_runId st
           end
  end.

(** The events whose branch reads the inline usage. *)
Definition carries_usage (ev : Event) : bool :=
  (String.eqb (event_name ev) "thread.run.requires_action"
   || String.eqb (event_name ev) "thread.run.completed")
  && bool_decide (is_Some (data_usage (event_data ev))).

Definition is_failed (ev : Event) : bool :=
  String.eqb (event_name ev) "thread.run.failed".

(** The inline usage a relay that starts in state [st] holds after [evs]. *)
Definition usage_after (st : StreamState) (evs : list Event) : Z * Z :=
  match last (List.filter carries_usage evs) with
  | Some ev =>
      (num_or_zero (data_usage (event_data ev) ≫= prompt_tokens),
       num_or_zero (data_usage (event_data ev) ≫= completion_tokens))
  | None => (st_inputTokens st, st_outputTokens st)
  end.

(** The stream error a relay that starts in state [st] holds after [evs]. *)
Definition error_after (st : StreamState) (evs : list Event) : option string :=
  match last (List.filter is_failed evs) with
  | Some ev =>
      Some (str_or (data_last_error (event_data ev) ≫= last_error_message) "Run failed")
  | None => st_streamError st
  end.

(** ** A call from all its fragments *)

(** [tc.function?.name], read as the string that [+=] appends. *)
Definition fragment_name (tc : ToolCallDelta) : string :=
  str_or (tc_function tc ≫= fn_name) "".

Definition fragment_arguments (tc : ToolCallDelta) : string :=
  str_or (tc_function tc ≫= fn_arguments) "".

(** The function fragments of index [i], in arrival order. *)
Definition functions_at (i : nat) (tcs : list ToolCallDelta) : list ToolCallDelta :=
  List.filter (fun tc => Nat.eqb (tc_index tc) i && String.eqb (tc_type tc) "function") tcs.

(** The strings [f] picks from the fragments, concatenated in order. *)
Definition joined (f : ToolCallDelta -> string) (fs : list ToolCallDelta) : string :=
  foldr (fun tc s => f tc +:+ s) "" fs.

(** The last non-empty id among the fragments, after [id0]. *)
Definition last_id (id0 : string) (fs : list ToolCallDelta) : string :=
  foldl (fun acc tc => if truthy_str (tc_id tc) then default "" (tc_id tc) else acc) id0 fs.

Definition reconstructed (fs : list ToolCallDelta) : ToolCall :=
  {| call_id := last_id "" fs; call_type := "function";
     call_name := joined fragment_name fs;
     call_arguments := joined fragment_arguments fs |}.

(** Three fragments of call 0 around a fragment of call 1. *)
Definition split_delivery : list ToolCallDelta :=
  [fragment 0 None (Some "read") None;
   fragment 0 (Some "call_1") (Some "_fi") (Some "{");
   other_call_fragment;
   fragment 0 None (Some "le") (Some "}")].

(** ** Further vocabulary *)

(** A string of [[A-Za-z0-9]*]. *)
Fixpoint all_alnum (s : string) : bool :=
  match s with
  | EmptyString => true
  | String c s' => is_alnum c && all_alnum s'
  end.

Definition is_pause (e : Effect) : bool :=
  match e with Sleep _ => true | _ => false end.

(** The run metadata cannot be read: every retrieve is rejected. *)
Definition unreachable_metadata : Script :=
  {| script_runs := [];
     script_cancel := fun _ => Ok tt;
     script_retrieve := fun _ => Throw (Some "502 Bad Gateway");
     script_create := fun _ => Ok tt;
     script_stream := scenario_d_stream |}.

(** ** The two phases of a streaming route *)

(** The world once the event stream is opened towards the client. *)
Definition flushed (w : World) : World :=
  {| trace := trace w; response := res_flushHeaders (response w) |}.

(** The chat route up to the provider's stream. *)
Definition chat_open (client : Client) (assistantId threadId message : string)
  : Prog Stream :=
  cancelActiveRuns client threadId None ;;;
  append_message client threadId message ;;;
  call (RunsStream threadId assistantId)
    (fun h => runs_stream client h threadId assistantId).

(** The chat route from the provider's stream on. *)
Definition chat_close (client : Client) (threadId : string) (stream : Stream) : Prog unit :=
  streamResult <- relay stream ;;
  usage <- retrieveRunUsageWithRetry client threadId (sr_runId streamResult) ;;
  emit (LogRequest threadId "chat" (sr_toolCallCount streamResult)
          (fst (reported_usage streamResult usage))
          (snd (reported_usage streamResult usage))
          (log_status (sr_error streamResult)) (log_error (sr_error streamResult))).

(** The tool-outputs route up to the provider's stream. *)
Definition tool_outputs_open (client : Client) (threadId runId : string)
    (toolOutputs : list ToolOutput) : Prog Stream :=
  cancelActiveRuns client threadId (Some runId) ;;;
  call (SubmitToolOutputsStream threadId runId toolOutputs)
    (fun h => runs_submitToolOutputsStream client h threadId runId toolOutputs).

(** The tool-outputs route from the provider's stream on. *)
Definition tool_outputs_close (client : Client) (threadId : string)
    (toolOutputs : list ToolOutput) (stream : Stream) : Prog unit :=
  streamResult <- relay stream ;;
  usage <- (if negb (truthy_str (sr_runId streamResult)) then ret None
            else retrieveRunUsageWithRetry client threadId (sr_runId streamResult)) ;;
  emit (LogRequest threadId "tool_output" (length toolOutputs)
          (fst (reported_usage streamResult usage))
          (snd (reported_usage streamResult usage))
          (log_status (sr_error streamResult)) (log_error (sr_error streamResult))).

Definition is_log (e : Effect) : bool :=
  match e with LogRequest _ _ _ _ _ _ _ => true | _ => false end.

Definition is_status_update (e : Effect) : bool :=
  match e with UpdateSessionStatus _ _ _ => true | _ => false end.

Definition is_submit (e : Effect) : bool :=
  match e with SubmitToolOutputsStream _ _ _ => true | _ => false end.

(** The calls a route makes to the provider, and its pauses: everything
    but the audit writes. *)
Definition provider_effect (e : Effect) : bool :=
  negb (is_log e) && negb (is_status_update e).

(** An effect other than an append and other than a cancellation of [rid]. *)
Definition spares (rid : string) (e : Effect) : bool :=
  match e with
  | RunsCancel _ r => negb (String.eqb r rid)
  | MessagesCreate _ _ => false
  | _ => true
  end.

(** A program that only adds effects satisfying [P] to the trace and
    leaves the response alone. *)
Definition adds_only (P : Effect -> bool) {A} (m : Prog A) : Prop :=
  forall w, exists new, snd (m w) = after w new /\ forallb P new = true.

(** The answer [w'] to a request that arrived in world [w]: a JSON refusal
    that leaves no other mark, or an event stream that one terminal frame
    closes. *)
Definition refusal_or_stream (w w' : World) : Prop :=
  (exists code error message,
     In code [400; 404; 403]
     /\ w' = {| trace := trace w;
                response := res_json code (JError error message) (response w) |})
  \/ (body (response w') = body (response w)
      /\ headersSent (response w') = true
      /\ ended (response w') = true
      /\ exists mid last,
           frames (response w') = frames (response w) ++ mid ++ [last]
           /\ is_terminal last = true
           /\ Forall (fun f => is_terminal f = false) mid).

(** The provider is down: every call is rejected. *)
Definition provider_down : Client :=
  {| has_runs_list := true; has_runs_cancel := true; has_runs_retrieve := true;
     runs_list := fun _ _ _ => Throw (Some "503 Service Unavailable");
     runs_cancel := fun _ _ _ => Throw (Some "503 Service Unavailable");
     runs_retrieve := fun _ _ _ => Throw (Some "503 Service Unavailable");
     messages_create := fun _ _ _ => Throw (Some "503 Service Unavailable");
     runs_stream := fun _ _ _ => Throw (Some "503 Service Unavailable");
     runs_submitToolOutputsStream := fun _ _ _ _ => Throw (Some "503 Service Unavailable") |}.

Definition session_with (client : Client) (owner : Z) : Session :=
  {| session_client := client; session_assistantId := "asst_1";
     session_userId := owner; session_deploymentName := "gpt-4o" |}.

(** ** Starting a session (POST /assistant) *)

(** A row of the users table, as [verifyToken] attaches it to the request;
    the Azure columns may be NULL. *)
Record User := {
  user_id : Z;
  user_email : string;
  user_apiKey : option string;
  user_azureResourceName : option string;
  user_azureDeployment : option string;
  user_azureApiVersion : option string
}.

(** The argument of [new AzureOpenAI(...)]. *)
Record AzureOptions := {
  opt_apiKey : string;
  opt_endpoint : string;
  opt_apiVersion : string;
  opt_deployment : string
}.

(** The provider's SDK: the constructor of the client object, and the two
    methods of the client that only this route calls. *)
Record Platform := {
  new_AzureOpenAI : AzureOptions -> Client;
  assistants_create : Client -> string -> string -> Result string;
  threads_create : Client -> Result string
}.

(** The options [getAzureClient(user)] builds its client from, or the
    error it throws. *)
Definition azure_options (user : User) : Result AzureOptions :=
  if negb (truthy_str (user_apiKey user))
     || negb (truthy_str (user_azureResourceName user))
     || negb (truthy_str (user_azureDeployment user))
  then Throw (Some "User Azure config not complete")
  else Ok {| opt_apiKey := default "" (user_apiKey user);
             opt_endpoint := "https://" +:+ default "" (user_azureResourceName user)
                             +:+ ".openai.azure.com/";
             opt_apiVersion := str_or (user_azureApiVersion user) "2024-05-01-preview";
             opt_deployment := default "" (user_azureDeployment user) |}.

(** [getAzureClient(user)] *)
Definition getAzureClient (sdk : Platform) (user : User) : Result Client :=
  match azure_options user with
  | Ok options => Ok (new_AzureOpenAI sdk options)
  | Throw e => Throw e
  end.

(** The calls of the route, in order: the two provider calls (the tool list
    passed to the first is the constant of [getToolDefinitions]) and the
    audit write. *)
Inductive SetupCall :=
| AssistantsCreate (name instructions model : string)
| ThreadsCreate
| CreateSession (threadId assistantId : string) (userId : Z) (userEmail : string).

Inductive AssistantJson :=
| JStarted (threadId assistantId : string)
| JRefused (error : string) (message : option string).

Record AssistantAnswer := {
  answer_status : nat;
  answer_body : AssistantJson
}.

(** [hay.includes(needle)] *)
Fixpoint includes (needle hay : string) : bool :=
  String.prefix needle hay
  || match hay with
     | String _ hay' => includes needle hay'
     | EmptyString => false
     end.

(** The [catch] block of the route. *)
Definition assistant_catch (e : option string) : AssistantAnswer :=
  if match e with Some m => includes "API key" m | None => false end
  then {| answer_status := 401;
          answer_body := JRefused "INVALID_API_KEY" (Some "Invalid Azure API key") |}
  else if match e with Some m => includes "resource" m | None => false end
  then {| answer_status := 400;
          answer_body := JRefused "INVALID_RESOURCE" (Some "Azure resource not found") |}
  else {| answer_status := 500; answer_body := JRefused "LLM_ERROR" e |}.

(** [router.post('/assistant', ...)] : the session table, the calls made
    and the answer. *)
Definition post_assistant (sdk : Platform) (sessions : Sessions)
    (instructions : option string) (user : User)
  : Sessions * list SetupCall * AssistantAnswer :=
  match getAzureClient sdk user with
  | Throw e => (sessions, [], assistant_catch e)
  | Ok client =>
      let deployment := default "" (user_azureDeployment user) in
      let create := AssistantsCreate "Agentic Coder"
                      (str_or instructions "You are an expert AI coding assistant.")
                      deployment in
      match assistants_create sdk client
              (str_or instructions "You are an expert AI coding assistant.") deployment with
      | Throw e => (sessions, [create], assistant_catch e)
      | Ok assistantId =>
          match threads_create sdk client with
          | Throw e => (sessions, [create; ThreadsCreate], assistant_catch e)
          | Ok threadId =>
              (<[threadId := {| session_client := client;
                                session_assistantId := assistantId;
                                session_userId := user_id user;
                                session_deploymentName := deployment |}]> sessions,
               [create; ThreadsCreate;
                CreateSession threadId assistantId (user_id user) (user_email user)],
               {| answer_status := 200; answer_body := JStarted threadId assistantId |})
          end
      end
  end.

(** ** The principal of a request (middleware/auth.js) *)

(** [s.split(sep)] for a one-character separator. *)
Fixpoint split_on (sep : ascii) (s : string) : list string :=
  match s with
  | EmptyString => [EmptyString]
  | String c s' =>
      if Ascii.eqb c sep then EmptyString :: split_on sep s'
      else match split_on sep s' with
           | piece :: pieces => String c piece :: pieces
           | [] => [String c EmptyString]
           end
  end.

(** What the middleware reads of the request. *)
Record Credentials := {
  cookie_token : option string;      (* req.cookies?.token *)
  authorization : option string      (* req.headers.authorization *)
}.

(** [jwt.verify] with the server's secret, giving the [userId] claim, and
    [userOps.findById]; either may throw. *)
Record Directory := {
  jwt_verify : string -> Result Z;
  findById : Z -> Result (option User)
}.

Inductive Admission :=
| Next (user : User)                       (* req.user = user; next() *)
| Rejected (status : nat) (error : string).

(** [req.cookies?.token || req.headers.authorization?.split(' ')[1]] *)
Definition request_token (req : Credentials) : option string :=
  if truthy_str (cookie_token req) then cookie_token req
  else authorization req ≫= (fun h => split_on " " h !! 1).

(** [verifyToken] *)
Definition verifyToken (dir : Directory) (req : Credentials) : Admission :=
  if negb (truthy_str (request_token req)) then Rejected 401 "No token provided"
  else
    match jwt_verify dir (default "" (request_token req)) with
    | Throw _ => Rejected 401 "Invalid token"
    | Ok userId =>
        match findById dir userId with
        | Throw _ => Rejected 401 "Invalid token"
        | Ok None => Rejected 401 "User not found"
        | Ok (Some user) => Next user
        end
    end.

(** A string without the character [c]. *)
Fixpoint lacks (c : ascii) (s : string) : bool :=
  match s with
  | EmptyString => true
  | String a s' => negb (Ascii.eqb a c) && lacks c s'
  end.

(** ** Scenarios of the session start *)

Definition configured_user : User :=
  {| user_id := 7; user_email := "dev@example.com";
     user_apiKey := Some "key-1"; user_azureResourceName := Some "contoso";
     user_azureDeployment := Some "gpt-4o"; user_azureApiVersion := None |}.

Definition unconfigured_user : User :=
  {| user_id := 9; user_email := "new@example.com";
     user_apiKey := None; user_azureResourceName := None;
     user_azureDeployment := None; user_azureApiVersion := None |}.

(** A platform that creates assistant [asst_1] and thread [thread_1]. *)
Definition working_platform : Platform :=
  {| new_AzureOpenAI := fun _ => scripted waiting_run;
     assistants_create := fun _ _ _ => Ok "asst_1";
     threads_create := fun _ => Ok "thread_1" |}.


(** Tokens [tok-7] of user 7; nobody else is known. *)
Definition one_user_directory : Directory :=
  {| jwt_verify := fun token =>
       if String.eqb token "tok-7" then Ok 7%Z else Throw (Some "invalid signature");
     findById := fun id => if Z.eqb id 7 then Ok (Some configured_user) else Ok None |}.

(** The provider refuses every append for a reason that names no run. *)
Definition rate_limited : Script :=
  {| script_runs := [];
     script_cancel := fun _ => Ok tt;
     script_retrieve := fun _ => Ok None;
     script_create := fun _ => Throw (Some "429 Rate limit reached");
     script_stream := scenario_d_stream |}.



(** * Properties *)

(** ** The helpers on examples *)

Example isRunActive_states :
  isRunActive (Some "queued") = true
  /\ isRunActive (Some "in_progress") = true
  /\ isRunActive (Some "requires_action") = true
  /\ isRunActive (Some "cancelling") = false
  /\ isRunActive (Some "cancelled") = false
  /\ isRunActive None = false.
Proof. repeat split; reflexivity. Qed.

Example extract_scenario_c :
  extractActiveRunIdFromErrorMessage (Some (conflict_message "run_abc123"))
  = Some "run_abc123".
Proof. reflexivity. Qed.

Example extract_needs_the_phrase :
  extractActiveRunIdFromErrorMessage (Some "Rate limit reached for run_abc123") = None
  /\ extractActiveRunIdFromErrorMessage (Some "while a run run_ is active") = None
  /\ extractActiveRunIdFromErrorMessage (Some "while a run run_a-b is active") = None
  /\ extractActiveRunIdFromErrorMessage None = None.
Proof. repeat split; reflexivity. Qed.

Example extract_leftmost :
  extractActiveRunIdFromErrorMessage
    (Some "while a run run_x1 is active, while a run run_y2 is active") = Some "run_x1".
Proof. reflexivity. Qed.

Example array_set_extends :
  array_set 2 scenario_d_call [] = [None; None; Some scenario_d_call]
  /\ array_get (array_set 2 scenario_d_call []) 1 = None
  /\ filter_calls (array_set 2 scenario_d_call []) = [scenario_d_call].
Proof. repeat split; reflexivity. Qed.

(** ** The stream relay and the accumulator *)

Section Relay.

Lemma dispatch_frames ev st :
  Forall (fun f => exists s, f = FText s) (snd (dispatch ev st)).
Proof.
  unfold dispatch.
  repeat match goal with
         | |- context [if ?b then _ else _] => destruct b
         | |- context [match ?o with Some _ => _ | None => _ end] => destruct o
         end; simpl; repeat constructor; eauto.
Qed.

Lemma foldl_write_frames fs res :
  frames (foldl (fun r f => res_write f r) res fs) = frames res ++ fs
  /\ ended (foldl (fun r f => res_write f r) res fs) = ended res.
Proof.
  revert res. induction fs as [|f fs IH]; intros res; simpl.
  - by rewrite app_nil_r.
  - destruct (IH (res_write f res)) as [-> ->]. simpl.
    by rewrite <- app_assoc.
Qed.

(** The loop writes text frames only and leaves the connection as it was. *)
Lemma consume_frames evs st res :
  exists mid,
    frames (snd (consume evs st res)) = frames res ++ mid
    /\ Forall (fun f => exists s, f = FText s) mid
    /\ ended (snd (consume evs st res)) = ended res.
Proof.
  revert st res. induction evs as [|ev evs IH]; intros st res; simpl.
  - exists []. by rewrite app_nil_r.
  - unfold on_event.
    pose proof (dispatch_frames ev (capture_runId ev st)) as Hfs.
    destruct (dispatch ev (capture_runId ev st)) as [st' fs]. simpl in Hfs.
    destruct (IH st' (foldl (fun r f => res_write f r) res fs)) as (mid & Hfr & Hmid & Hend).
    destruct (foldl_write_frames fs res) as [Hf He].
    exists (fs ++ mid). rewrite Hfr, Hf, Hend, He, app_assoc.
    split; [done|]. split; [|done]. by apply Forall_app.
Qed.

(** The accumulated state does not depend on the connection. *)
Lemma consume_state evs st res res0 :
  fst (consume evs st res) = fst (consume evs st res0).
Proof.
  revert st res res0. induction evs as [|ev evs IH]; intros st res res0; simpl; [done|].
  destruct (on_event ev st) as [st' fs]. apply IH.
Qed.

Lemma text_not_terminal mid :
  Forall (fun f => exists s, f = FText s) mid ->
  Forall (fun f => is_terminal f = false) mid /\ Forall (fun f => is_tool_calls f = false) mid.
Proof.
  intros H; split; (eapply Forall_impl; [exact H|]); intros f [s ->]; done.
Qed.

End Relay.

(** C3: however the provider's event sequence ends, the relay closes the
    output: after a normal end the last frame is [done] with the run id it
    returns (possibly empty), after a fault the last frame is [error] with
    the fault's message, no terminal frame comes before it, and the
    response is ended. *)
Theorem handleStream_closes_output (stream : Stream) (res : Response) :
  ended (snd (handleStream stream res)) = true
  /\ exists mid,
       frames (snd (handleStream stream res))
       = frames res ++ mid ++
           [match stream_end stream with
            | Finished => FDone (sr_runId (fst (handleStream stream res)))
            | Faulted message => FError message
            end]
       /\ Forall (fun f => is_terminal f = false) mid.
Proof.
  unfold handleStream.
  destruct (consume_frames (stream_events stream) initial_state res) as (mid & Hfr & Hmid & _).
  destruct (consume (stream_events stream) initial_state res) as [st res1].
  simpl in Hfr. apply text_not_terminal in Hmid as [Hterm _].
  destruct (stream_end stream) as [|msg]; simpl.
  - split; [done|]. case_decide; simpl.
    + exists (mid ++ [FToolCalls (st_runId st) (filter_calls (st_toolCalls st))]).
      rewrite Hfr, <- !app_assoc. split; [done|].
      apply Forall_app; split; [done|]. by repeat constructor.
    + exists mid. rewrite Hfr, <- !app_assoc. done.
  - split; [done|]. exists mid. rewrite Hfr, <- !app_assoc. done.
Qed.

(** [filter_calls] keeps exactly the slots with an id, by ascending index. *)
Lemma filter_calls_indices (slots : ToolCalls) :
  exists idxs : list nat,
    StronglySorted lt idxs
    /\ Forall2 (fun i c => slots !! i = Some (Some c)) idxs (filter_calls slots)
    /\ forall i c, slots !! i = Some (Some c) -> call_id c <> "" -> i ∈ idxs.
Proof.
  induction slots as [|o slots (idxs & Hs & Hf & Hall)].
  - exists []. split; [constructor|]. split; [constructor|]. intros i c H; by destruct i.
  - assert (Hshift : StronglySorted lt (S <$> idxs)).
    { clear -Hs. induction Hs as [|a l _ IH Ha]; simpl; constructor; [done|].
      apply Forall_fmap. eapply Forall_impl; [exact Ha|]. intros x; simpl; lia. }
    assert (Hlook : Forall2 (fun i c => (o :: slots) !! i = Some (Some c))
                      (S <$> idxs) (filter_calls slots)).
    { apply Forall2_fmap_l. eapply Forall2_impl; [exact Hf|]. done. }
    assert (Htail : forall i c, (o :: slots) !! S i = Some (Some c) ->
                                call_id c <> "" -> S i ∈ S <$> idxs).
    { intros i c Hi Hc. apply list_elem_of_fmap. exists i. split; [done|]. by eapply Hall. }
    destruct o as [c|]; simpl.
    + destruct (String.eqb_spec (call_id c) "") as [He|Hne]; simpl.
      * exists (S <$> idxs). split; [done|]. split; [done|].
        intros [|i] c' Hi Hc'; [|by eapply Htail].
        simpl in Hi. by simplify_eq.
      * exists (0 :: (S <$> idxs)). split; [|split].
        -- constructor; [done|]. apply Forall_fmap, Forall_forall. intros; simpl; lia.
        -- by constructor.
        -- intros [|i] c' Hi Hc'; [left|right; by eapply Htail].
    + exists (S <$> idxs). split; [done|]. split; [done|].
      intros [|i] c' Hi Hc'; [done|by eapply Htail].
Qed.

Lemma filter_calls_have_ids (slots : ToolCalls) :
  Forall (fun c => call_id c <> "") (filter_calls slots).
Proof.
  induction slots as [|[c|] slots IH]; simpl; [constructor| |done].
  destruct (String.eqb_spec (call_id c) ""); simpl; [done|by constructor].
Qed.

Lemma filter_calls_length (slots : ToolCalls) :
  length (filter_calls slots) = length (List.filter has_id slots).
Proof.
  induction slots as [|[c|] slots IH]; simpl; [done| |done].
  destruct (negb (call_id c =? "")%string); simpl; by rewrite IH.
Qed.

(** The frames one relay adds hold at most one [tool_calls] frame, and its
    calls are the filtered accumulator. *)
Lemma handleStream_tool_calls_frame (stream : Stream) (res : Response) :
  exists new,
    frames (snd (handleStream stream res)) = frames res ++ new
    /\ forall rid calls, FToolCalls rid calls ∈ new ->
         stream_end stream = Finished
         /\ calls = filter_calls (st_toolCalls (final_state stream))
         /\ 0 < length calls.
Proof.
  unfold handleStream, final_state.
  rewrite (consume_state _ _ fresh_response res).
  destruct (consume_frames (stream_events stream) initial_state res) as (mid & Hfr & Hmid & _).
  destruct (consume (stream_events stream) initial_state res) as [st res1].
  simpl in *. apply text_not_terminal in Hmid as [_ Htc].
  assert (Hmid : forall rid calls, FToolCalls rid calls ∉ mid).
  { intros rid calls Hin. rewrite Forall_forall in Htc. by apply Htc in Hin. }
  destruct (stream_end stream) as [|msg]; simpl.
  - case_decide; simpl; rewrite Hfr, <- ?app_assoc; eexists; (split; [done|]);
      intros rid calls Hin; apply elem_of_app in Hin as [Hin|Hin];
      try (by apply Hmid in Hin); repeat (apply elem_of_cons in Hin as [Hin|Hin]);
      try (by apply elem_of_nil in Hin); try discriminate.
    by simplify_eq.
  - rewrite Hfr, <- ?app_assoc; eexists; (split; [done|]).
    intros rid calls Hin; apply elem_of_app in Hin as [Hin|Hin];
      try (by apply Hmid in Hin); repeat (apply elem_of_cons in Hin as [Hin|Hin]);
      try (by apply elem_of_nil in Hin); discriminate.
Qed.

(** C4: every call listed in a [tool_calls] frame has a non-empty id, and
    the listed calls are the accumulator's slots with an id taken by
    strictly ascending index; a slot whose id is still empty is in no
    frame; and the [toolCallCount] handed back is the number of slots with
    a non-empty id. *)
Theorem tool_calls_frame_ids_and_order (stream : Stream) (res : Response) :
  let slots := st_toolCalls (final_state stream) in
  (exists new,
     frames (snd (handleStream stream res)) = frames res ++ new
     /\ forall rid calls, FToolCalls rid calls ∈ new ->
          Forall (fun c => call_id c <> "") calls
          /\ (exists idxs : list nat,
                StronglySorted lt idxs
                /\ Forall2 (fun i c => slots !! i = Some (Some c)) idxs calls
                /\ forall i c, slots !! i = Some (Some c) -> call_id c <> "" -> i ∈ idxs)
          /\ (forall c, call_id c = "" -> c ∉ calls))
  /\ sr_toolCallCount (fst (handleStream stream res)) = length (List.filter has_id slots).
Proof.
  intros slots. split.
  - destruct (handleStream_tool_calls_frame stream res) as (new & Hfr & Hnew).
    exists new. split; [done|]. intros rid calls Hin.
    destruct (Hnew rid calls Hin) as (_ & -> & _).
    pose proof (filter_calls_have_ids slots) as Hids.
    split; [done|]. split; [apply filter_calls_indices|].
    intros c Hc Hin'. rewrite Forall_forall in Hids. by apply (Hids c).
  - unfold handleStream, final_state in *. subst slots.
    rewrite (consume_state _ _ fresh_response res).
    destruct (consume (stream_events stream) initial_state res) as [st res1].
    destruct (stream_end stream); simpl; apply filter_calls_length.
Qed.

(** C7: the two fragments of Scenario D, in this order, leave in slot 0
    the call with the id of the first fragment and with name and arguments
    concatenated in arrival order; relayed as two step deltas they reach
    the client as that one call. *)
Theorem scenario_d_reconstruction :
  accumulate_all [] [scenario_d_first; scenario_d_second] = [Some scenario_d_call]
  /\ call_name scenario_d_call = "read_f" +:+ "ile"
  /\ frames (snd (handleStream scenario_d_stream fresh_response))
     = [FToolCalls (Some "run_1") [scenario_d_call]; FDone (Some "run_1")]
  /\ sr_toolCallCount (fst (handleStream scenario_d_stream fresh_response)) = 1.
Proof. repeat split; reflexivity. Qed.

(** C9, as stated, fails on a stream that breaks after a complete call has
    arrived: one finalized call is counted, and no [tool_calls] frame is
    written. *)
Lemma tool_calls_frame_not_iff_finalized :
  ~ (tool_calls_frame_written broken_stream
     <-> 0 < sr_toolCallCount (fst (handleStream broken_stream fresh_response))).
Proof.
  intros [_ Hfin].
  destruct Hfin as (rid & calls & Hin); [vm_compute; lia|].
  vm_compute in Hin.
  repeat (apply elem_of_cons in Hin as [Hin|Hin]); try discriminate.
  by apply elem_of_nil in Hin.
Qed.

(** The frames of a relay: forwarded text, then the closing frames. *)
Lemma handleStream_frames (stream : Stream) (res : Response) :
  exists texts,
    Forall (fun f => exists s, f = FText s) texts
    /\ frames (snd (handleStream stream res))
       = frames res ++ texts
         ++ closing_frames stream (fst (handleStream stream res))
              (st_toolCalls (final_state stream)).
Proof.
  unfold handleStream, final_state, closing_frames.
  rewrite (consume_state _ _ fresh_response res).
  destruct (consume_frames (stream_events stream) initial_state res) as (mid & Hfr & Hmid & _).
  destruct (consume (stream_events stream) initial_state res) as [st res1].
  simpl in *. exists mid. split; [done|].
  destruct (stream_end stream) as [|msg]; simpl.
  - case_decide; simpl; rewrite Hfr, <- ?app_assoc; done.
  - rewrite Hfr, <- ?app_assoc; done.
Qed.

Lemma toolCallCount_filter_calls (stream : Stream) (res : Response) :
  sr_toolCallCount (fst (handleStream stream res))
  = length (filter_calls (st_toolCalls (final_state stream))).
Proof.
  unfold handleStream, final_state.
  rewrite (consume_state _ _ fresh_response res).
  destruct (consume (stream_events stream) initial_state res) as [st res1].
  by destruct (stream_end stream).
Qed.

(** C9, amended: after the text frames it forwarded, a relay whose source
    ended normally writes the [tool_calls] frame exactly when the count of
    finalized calls is positive and then [done]; a relay whose source
    faulted writes [error] alone, whatever was accumulated.  So the frame
    is written exactly when the source ended normally with at least one
    finalized call. *)
Theorem tool_calls_frame_iff_finalized_and_finished (stream : Stream) (res : Response) :
  (exists texts,
     Forall (fun f => exists s, f = FText s) texts
     /\ frames (snd (handleStream stream res))
        = frames res ++ texts
          ++ closing_frames stream (fst (handleStream stream res))
               (st_toolCalls (final_state stream)))
  /\ (tool_calls_frame_written stream
      <-> stream_end stream = Finished
          /\ 0 < sr_toolCallCount (fst (handleStream stream fresh_response))).
Proof.
  split; [apply handleStream_frames|]. split.
  - intros (rid & calls & Hin).
    destruct (handleStream_tool_calls_frame stream fresh_response) as (new & Hfr & Hnew).
    simpl in Hfr. rewrite Hfr in Hin.
    destruct (Hnew rid calls Hin) as (Hend & -> & Hpos).
    split; [done|]. by rewrite toolCallCount_filter_calls.
  - intros [Hend Hpos].
    destruct (handleStream_frames stream fresh_response) as (texts & _ & Hfr).
    unfold tool_calls_frame_written. rewrite Hfr. unfold closing_frames.
    rewrite Hend. rewrite decide_True by done.
    do 2 eexists. simpl. apply elem_of_app. right. apply elem_of_cons. by left.
Qed.

(** C9 at Scenario D: a finished stream with one finalized call. *)
Lemma tool_calls_frame_iff_finalized_and_finished_witness :
  tool_calls_frame_written scenario_d_stream.
Proof.
  apply (tool_calls_frame_iff_finalized_and_finished scenario_d_stream fresh_response).
  split; [reflexivity|]. vm_compute. lia.
Defined.

(** ** Accumulation and arrival order *)

Section Arrays.

Implicit Types (slots : ToolCalls) (c : ToolCall) (tc : ToolCallDelta).

Lemma length_array_set i c slots :
  length (array_set i c slots) = Nat.max (length slots) (S i).
Proof.
  unfold array_set. case_decide.
  - rewrite length_insert. lia.
  - rewrite !length_app, length_replicate. simpl. lia.
Qed.

Lemma array_get_set_eq i c slots : array_get (array_set i c slots) i = Some c.
Proof.
  unfold array_get, array_set. case_decide.
  - by rewrite list_lookup_insert_eq.
  - rewrite lookup_app_r by lia.
    rewrite lookup_app_r by (rewrite length_replicate; lia).
    rewrite length_replicate.
    by replace (i - length slots - (i - length slots)) with 0 by lia.
Qed.

Lemma array_get_set_ne i j c slots :
  i <> j -> array_get (array_set i c slots) j = array_get slots j.
Proof.
  intros Hne. unfold array_get, array_set. case_decide.
  - by rewrite list_lookup_insert_ne.
  - destruct (decide (j < length slots)).
    + by rewrite lookup_app_l.
    + rewrite (lookup_ge_None_2 slots j) by lia.
      rewrite lookup_app_r by lia.
      destruct (decide (j < i)).
      * rewrite lookup_app_l by (rewrite length_replicate; lia).
        by rewrite lookup_replicate_2 by lia.
      * rewrite lookup_ge_None_2; [done|].
        rewrite length_app, length_replicate. simpl. lia.
Qed.

(** Two arrays of one length that read alike are equal. *)
Lemma arrays_eq slots1 slots2 :
  length slots1 = length slots2 ->
  (forall i, array_get slots1 i = array_get slots2 i) ->
  slots1 = slots2.
Proof.
  intros Hlen Hget. apply list_eq. intros i.
  specialize (Hget i). unfold array_get in Hget.
  destruct (slots1 !! i) as [o1|] eqn:H1, (slots2 !! i) as [o2|] eqn:H2; simpl in Hget.
  - by subst.
  - apply lookup_lt_Some in H1. apply lookup_ge_None in H2. lia.
  - apply lookup_ge_None in H1. apply lookup_lt_Some in H2. lia.
  - done.
Qed.

Lemma accumulate_get slots tc j :
  array_get (accumulate slots tc) j
  = if Nat.eqb (tc_index tc) j && String.eqb (tc_type tc) "function"
    then Some (apply_fragment (array_get slots j) tc)
    else array_get slots j.
Proof.
  unfold accumulate.
  destruct (String.eqb (tc_type tc) "function"); [|by rewrite andb_false_r].
  rewrite andb_true_r. destruct (Nat.eqb_spec (tc_index tc) j) as [->|Hne].
  - apply array_get_set_eq.
  - by apply array_get_set_ne.
Qed.

Lemma accumulate_all_get tcs slots j :
  array_get (accumulate_all slots tcs) j = slot_fold j (array_get slots j) tcs.
Proof.
  revert slots. induction tcs as [|tc tcs IH]; intros slots; [done|].
  unfold accumulate_all, slot_fold in *. simpl.
  by rewrite IH, accumulate_get.
Qed.

Lemma slot_fold_fragments_at j tcs o :
  slot_fold j o tcs = slot_fold j o (fragments_at j tcs).
Proof.
  revert o. induction tcs as [|tc tcs IH]; intros o; [done|].
  unfold slot_fold, fragments_at in *. simpl.
  destruct (Nat.eqb (tc_index tc) j) eqn:E; simpl.
  - rewrite E. simpl. apply IH.
  - apply IH.
Qed.

Lemma accumulate_all_length tcs slots :
  length (accumulate_all slots tcs) = Nat.max (length slots) (write_bound tcs).
Proof.
  revert slots. induction tcs as [|tc tcs IH]; intros slots; simpl; [lia|].
  unfold accumulate_all in *. simpl. rewrite IH. unfold accumulate.
  destruct (String.eqb (tc_type tc) "function"); [|done].
  rewrite length_array_set. lia.
Qed.

Lemma write_bound_le tcs n :
  write_bound tcs <= n <->
  forall tc, tc ∈ tcs -> tc_type tc = "function" -> tc_index tc < n.
Proof.
  induction tcs as [|tc tcs IH]; simpl.
  - split; [|lia]. intros _ tc H. by apply elem_of_nil in H.
  - destruct (String.eqb_spec (tc_type tc) "function") as [Hf|Hnf].
    + rewrite Nat.max_lub_iff, IH. split.
      * intros [H1 H2] tc' Hin Hty. apply elem_of_cons in Hin as [->|Hin]; [lia|by apply H2].
      * intros H. split; [apply H; [left|done]|]. intros tc' Hin. apply H. by right.
    + rewrite IH. split.
      * intros H tc' Hin Hty. apply elem_of_cons in Hin as [->|Hin]; [done|by apply H].
      * intros H tc' Hin. apply H. by right.
Qed.

Lemma elem_of_fragments_at tc tcs :
  tc ∈ tcs <-> tc ∈ fragments_at (tc_index tc) tcs.
Proof.
  unfold fragments_at. rewrite !list_elem_of_In, List.filter_In, Nat.eqb_refl. tauto.
Qed.

Lemma write_bound_fragments_at tcs1 tcs2 :
  (forall i, fragments_at i tcs1 = fragments_at i tcs2) ->
  write_bound tcs1 = write_bound tcs2.
Proof.
  intros H.
  assert (Hin : forall tc, tc ∈ tcs1 <-> tc ∈ tcs2).
  { intros tc. by rewrite (elem_of_fragments_at tc tcs1), (elem_of_fragments_at tc tcs2), H. }
  apply Nat.le_antisymm.
  - apply write_bound_le. intros tc Htc. apply (proj1 (write_bound_le tcs2 _)); [lia|].
    by apply Hin.
  - apply write_bound_le. intros tc Htc. apply (proj1 (write_bound_le tcs1 _)); [lia|].
    by apply Hin.
Qed.

(** The final array depends only on the fragments of each index, in order. *)
Lemma accumulate_all_keyed_by_index slots tcs1 tcs2 :
  (forall i, fragments_at i tcs1 = fragments_at i tcs2) ->
  accumulate_all slots tcs1 = accumulate_all slots tcs2.
Proof.
  intros H. apply arrays_eq.
  - by rewrite !accumulate_all_length, (write_bound_fragments_at tcs1 tcs2).
  - intros i. rewrite !accumulate_all_get.
    by rewrite (slot_fold_fragments_at i tcs1), (slot_fold_fragments_at i tcs2), H.
Qed.

End Arrays.

Lemma apply_fragment_swap (o : option ToolCall) (f g : ToolCallDelta) :
  carries_arguments f = false ->
  carries_name g = false ->
  truthy_str (tc_id f) && truthy_str (tc_id g) = false \/ tc_id f = tc_id g ->
  apply_fragment (Some (apply_fragment o f)) g
  = apply_fragment (Some (apply_fragment o g)) f.
Proof.
  unfold carries_arguments, carries_name, apply_fragment.
  intros Hf Hg Hid.
  unfold append_name, append_arguments, update_id, str_or. cbv zeta.
  rewrite Hf, Hg.
  destruct Hid as [Hid| ->].
  - destruct (truthy_str (tc_id f)) eqn:Ef, (truthy_str (tc_id g)) eqn:Eg; try discriminate;
      destruct (truthy_str (tc_function f ≫= fn_name)),
               (truthy_str (tc_function g ≫= fn_arguments)), o; reflexivity.
  - destruct (truthy_str (tc_id g)) eqn:Eg;
      destruct (truthy_str (tc_function f ≫= fn_name)),
               (truthy_str (tc_function g ≫= fn_arguments)), o; reflexivity.
Qed.

(** A fragment with only a name and one with only arguments, of one index,
    can arrive in either order. *)
Lemma accumulate_name_arguments_swap (slots : ToolCalls) (f g : ToolCallDelta) :
  tc_index f = tc_index g ->
  carries_arguments f = false ->
  carries_name g = false ->
  truthy_str (tc_id f) && truthy_str (tc_id g) = false \/ tc_id f = tc_id g ->
  accumulate_all slots [f; g] = accumulate_all slots [g; f].
Proof.
  intros Hidx Hf Hg Hid. apply arrays_eq.
  - rewrite !accumulate_all_length. simpl.
    destruct (String.eqb (tc_type f) "function"), (String.eqb (tc_type g) "function"); lia.
  - intros j. rewrite !accumulate_all_get. unfold slot_fold. simpl. rewrite Hidx.
    destruct (Nat.eqb (tc_index g) j); simpl; [|done].
    destruct (String.eqb (tc_type f) "function"), (String.eqb (tc_type g) "function");
      try done.
    f_equal. by apply apply_fragment_swap.
Qed.

(** C6, as stated, fails: the two fragments of Scenario D carry the same
    index, and delivering them in the other order builds another call. *)
Lemma accumulation_depends_on_arrival_order :
  [scenario_d_first; scenario_d_second] ≡ₚ [scenario_d_second; scenario_d_first]
  /\ tc_index scenario_d_first = tc_index scenario_d_second
  /\ accumulate_all [] [scenario_d_second; scenario_d_first]
     <> accumulate_all [] [scenario_d_first; scenario_d_second].
Proof.
  split; [apply perm_swap|]. split; [reflexivity|]. vm_compute. discriminate.
Qed.

(** C6, amended: accumulation is keyed by index, so two deliveries with the
    same fragments per index, in the same order within each index, build
    the same calls however the indices are interleaved; and within one
    index a fragment carrying no arguments and one carrying no name can be
    swapped, unless they carry two different ids. *)
Theorem accumulation_keyed_by_index :
  (forall (slots : ToolCalls) (tcs1 tcs2 : list ToolCallDelta),
     (forall i, fragments_at i tcs1 = fragments_at i tcs2) ->
     accumulate_all slots tcs1 = accumulate_all slots tcs2)
  /\ (forall (slots : ToolCalls) (f g : ToolCallDelta),
        tc_index f = tc_index g ->
        carries_arguments f = false ->
        carries_name g = false ->
        truthy_str (tc_id f) && truthy_str (tc_id g) = false \/ tc_id f = tc_id g ->
        accumulate_all slots [f; g] = accumulate_all slots [g; f]).
Proof.
  split.
  - apply accumulate_all_keyed_by_index.
  - apply accumulate_name_arguments_swap.
Qed.

(** C6 at two interleavings of the calls 0 and 1, and at a name and an
    arguments fragment of call 0. *)
Lemma accumulation_keyed_by_index_witness :
  accumulate_all [] delivery_a = accumulate_all [] delivery_b
  /\ accumulate_all [] [name_only; arguments_only]
     = accumulate_all [] [arguments_only; name_only].
Proof.
  split.
  - apply (proj1 accumulation_keyed_by_index).
    intros [|[|i]]; reflexivity.
  - apply (proj2 accumulation_keyed_by_index); try reflexivity.
    left; reflexivity.
Defined.

(** ** Usage reconciliation *)

Section Reconcile.

Variable client : Client.
Variables threadId runId : string.

Lemma after_nil w : after w [] = w.
Proof. destruct w. unfold after. simpl. by rewrite app_nil_r. Qed.

Lemma after_after w l1 l2 : after (after w l1) l2 = after w (l1 ++ l2).
Proof. unfold after. simpl. by rewrite app_assoc. Qed.

Lemma active_polls_S k :
  active_polls threadId runId (S k)
  = [RunsRetrieve threadId runId; Sleep 250] ++ active_polls threadId runId k.
Proof. reflexivity. Qed.

Lemma poll_reply_0 h : poll_reply client threadId runId h 0 = runs_retrieve client h threadId runId.
Proof. unfold poll_reply, active_polls. simpl. by rewrite app_nil_r. Qed.

Lemma poll_reply_S h j :
  poll_reply client threadId runId h (S j)
  = poll_reply client threadId runId (h ++ [RunsRetrieve threadId runId; Sleep 250]) j.
Proof. unfold poll_reply. by rewrite active_polls_S, app_assoc. Qed.

(** One turn of the usage loop, by what the poll shows. *)
Lemma usage_loop_step n i w :
  usage_loop client threadId runId (S n) i w
  = let r := poll_reply client threadId runId (trace w) 0 in
    let w1 := after w [RunsRetrieve threadId runId] in
    if has_tokens (polled_run r ≫= run_usage)
    then (Ok (Some (usage_pair (polled_run r ≫= run_usage))), w1)
    else if isRunActive (polled_run r ≫= run_status) then (Ok None, w1)
    else if (i <? 5)%nat
         then usage_loop client threadId runId n (S i)
                (after w [RunsRetrieve threadId runId; Sleep 250])
         else usage_loop client threadId runId n (S i) w1.
Proof.
  rewrite poll_reply_0. simpl. unfold bind at 1, call_or_null.
  destruct (runs_retrieve client (trace w) threadId runId) as [run|e]; simpl;
    fold (after w [RunsRetrieve threadId runId]).
  - destruct (has_tokens (run ≫= run_usage)); [done|].
    assert (Hst : truthy_str (run ≫= run_status) && isRunActive (run ≫= run_status)
                  = isRunActive (run ≫= run_status)).
    { destruct (run ≫= run_status) as [s|]; [|done]. simpl.
      destruct (String.eqb_spec s ""); [by subst|done]. }
    rewrite Hst. destruct (isRunActive (run ≫= run_status)); [done|].
    unfold bind at 1. destruct (i <? 5)%nat; simpl; [|done].
    unfold after. simpl. by rewrite <- app_assoc.
  - unfold bind at 1. destruct (i <? 5)%nat; simpl; [|done].
    unfold after. simpl. by rewrite <- app_assoc.
Qed.

(** Polls that show neither a figure nor an active run are followed by a
    pause and the next poll. *)
Lemma usage_loop_skip k : forall n i w,
  i + k <= 5 ->
  (forall j, j < k -> inconclusive (poll_reply client threadId runId (trace w) j) = true) ->
  usage_loop client threadId runId (k + n) i w
  = usage_loop client threadId runId n (i + k) (after w (active_polls threadId runId k)).
Proof.
  induction k as [|k IH]; intros n i w Hi Hinc.
  - by rewrite after_nil, Nat.add_0_r.
  - replace (S k + n) with (S (k + n)) by lia. rewrite usage_loop_step. cbv zeta.
    pose proof (Hinc 0 ltac:(lia)) as H0. unfold inconclusive in H0.
    apply andb_true_iff in H0 as [Ht Ha].
    apply negb_true_iff in Ht. apply negb_true_iff in Ha. rewrite Ht, Ha.
    replace (i <? 5)%nat with true by (symmetry; apply Nat.ltb_lt; lia).
    rewrite IH.
    + rewrite after_after, <- active_polls_S. f_equal. lia.
    + lia.
    + intros j Hj. simpl. rewrite <- poll_reply_S. apply Hinc. lia.
Qed.

(** From a fresh loop, at most six polls with a pause between them, and
    never an exception. *)
Lemma usage_loop_bounded n : forall i w,
  i + n = 6 -> 0 < n ->
  exists k u,
    k < n
    /\ usage_loop client threadId runId n i w
       = (Ok u, after w (poll_pattern threadId runId k true)).
Proof.
  induction n as [|n IH]; intros i w Hi Hn; [lia|].
  rewrite usage_loop_step. cbv zeta.
  destruct (has_tokens _); [exists 0; eexists; split; [lia|done]|].
  destruct (isRunActive _); [exists 0; eexists; split; [lia|done]|].
  destruct n as [|n].
  - replace (i <? 5)%nat with false by (symmetry; apply Nat.ltb_ge; lia).
    exists 0, None. split; [lia|done].
  - replace (i <? 5)%nat with true by (symmetry; apply Nat.ltb_lt; lia).
    destruct (IH (S i) (after w [RunsRetrieve threadId runId; Sleep 250])) as (k & u & Hk & ->);
      [lia..|].
    exists (S k), u. split; [lia|]. by rewrite after_after.
Qed.

End Reconcile.

Lemma on_event_no_usage_without_runId ev st :
  names_its_run ev = true ->
  no_usage_without_runId st ->
  no_usage_without_runId (fst (on_event ev st)).
Proof.
  unfold names_its_run, on_event, no_usage_without_runId. intros Hev Hst.
  assert (Hcap : truthy_str (st_runId (capture_runId ev st)) = false ->
                 st_inputTokens (capture_runId ev st) = 0%Z
                 /\ st_outputTokens (capture_runId ev st) = 0%Z).
  { unfold capture_runId. destruct (truthy_str (st_runId st)) eqn:E; simpl; [by rewrite E|].
    destruct (truthy_str (data_id (event_data ev)) && _) eqn:E1; simpl.
    - apply andb_true_iff in E1 as [-> _]. done.
    - destruct (truthy_str (data_run_id (event_data ev))) eqn:E2; simpl; [by rewrite E2|].
      intros _. by apply Hst. }
  revert Hcap. generalize (capture_runId ev st). clear Hst st. intros st Hst.
  unfold dispatch.
  destruct (String.eqb (event_name ev) "thread.message.delta").
  { repeat match goal with
           | |- context [if ?b then _ else _] => destruct b
           | |- context [match ?o with Some _ => _ | None => _ end] => destruct o
           end; done. }
  destruct (String.eqb (event_name ev) "thread.run.step.delta").
  { repeat match goal with
           | |- context [if ?b then _ else _] => destruct b
           | |- context [match ?o with Some _ => _ | None => _ end] => destruct o
           end; done. }
  destruct (String.eqb (event_name ev) "thread.run.requires_action"); simpl in *.
  { destruct (data_usage (event_data ev)); simpl; by rewrite Hev. }
  destruct (String.eqb (event_name ev) "thread.run.completed"); simpl in *.
  { destruct (data_usage (event_data ev)); simpl; by rewrite Hev. }
  destruct (String.eqb (event_name ev) "thread.run.failed"); simpl in *.
  { by rewrite Hev. }
  done.
Qed.

Lemma consume_no_usage_without_runId evs : forall st res,
  forallb names_its_run evs = true ->
  no_usage_without_runId st ->
  no_usage_without_runId (fst (consume evs st res)).
Proof.
  induction evs as [|ev evs IH]; intros st res Hevs Hst; simpl; [done|].
  simpl in Hevs. apply andb_true_iff in Hevs as [Hev Hevs].
  pose proof (on_event_no_usage_without_runId ev st Hev Hst) as Hst'.
  destruct (on_event ev st) as [st' fs]. by apply IH.
Qed.

Lemma handleStream_no_usage_without_runId (stream : Stream) (res : Response) :
  forallb names_its_run (stream_events stream) = true ->
  truthy_str (sr_runId (fst (handleStream stream res))) = false ->
  reported_usage (fst (handleStream stream res)) None = (0%Z, 0%Z).
Proof.
  intros Hevs. unfold handleStream, reported_usage.
  pose proof (consume_no_usage_without_runId (stream_events stream) initial_state res Hevs) as H.
  destruct (consume (stream_events stream) initial_state res) as [st res1].
  simpl in H. destruct (stream_end stream); simpl; intros Hrun;
    (destruct H as [-> ->]; [done|done|done]).
Qed.

(** Reconciliation never fails and leaves at most six polls in the trace. *)
Lemma reconciliation_polls_bounded (client : Client) (threadId : string)
    (runId : option string) (w : World) :
  exists k u,
    k <= 6
    /\ retrieveRunUsageWithRetry client threadId runId w
       = (Ok u, after w (usage_polls threadId (default "" runId) k)).
Proof.
  unfold retrieveRunUsageWithRetry.
  destruct (negb (has_runs_retrieve client) || negb (truthy_str runId)).
  - exists 0, None. split; [lia|]. by rewrite after_nil.
  - destruct (usage_loop_bounded client threadId (default "" runId) 6 0 w)
      as (k & u & Hk & ->); [lia..|].
    exists (S k), u. split; [lia|done].
Qed.

(** ** Cancelling the active runs *)

Section Sweep.

Variable client : Client.
Variable threadId : string.

Lemma await_cancelled_step runId n w :
  await_cancelled client threadId runId (S n) w
  = match poll_reply client threadId runId (trace w) 0 with
    | Ok rr =>
        if isRunActive (rr ≫= run_status)
        then await_cancelled client threadId runId n
               (after w [RunsRetrieve threadId runId; Sleep 250])
        else (Ok tt, after w [RunsRetrieve threadId runId])
    | Throw e => (Throw e, after w [RunsRetrieve threadId runId])
    end.
Proof.
  rewrite poll_reply_0. simpl. unfold bind at 1, call.
  destruct (runs_retrieve client (trace w) threadId runId) as [rr|e]; [|done].
  destruct (isRunActive (rr ≫= run_status)); simpl; [|done].
  unfold bind at 1. simpl. unfold after. simpl. by rewrite <- app_assoc.
Qed.


(** Whatever the provider answers, the loop makes at most [n] polls, each
    followed by a 250 ms pause except a poll that ends the loop. *)
Lemma await_cancelled_shape runId n : forall w,
  exists k (final : bool),
    k + (if final then 1 else 0) <= n
    /\ snd (await_cancelled client threadId runId n w)
       = after w (poll_pattern threadId runId k final).
Proof.
  induction n as [|n IH]; intros w.
  - exists 0, false. split; [simpl; lia|]. simpl. by rewrite after_nil.
  - rewrite await_cancelled_step.
    destruct (poll_reply client threadId runId (trace w) 0) as [rr|e].
    + destruct (isRunActive (rr ≫= run_status)).
      * destruct (IH (after w [RunsRetrieve threadId runId; Sleep 250]))
          as (k & final & Hk & ->).
        exists (S k), final. split; [lia|]. by rewrite after_after.
      * exists 0, true. split; [simpl; lia|done].
    + exists 0, true. split; [simpl; lia|done].
Qed.

Variable excludeRunId : option string.

(** A run the loop skips leaves no effect; any other run leaves one
    cancellation and its polls. *)
Lemma cancel_run_shape r w :
  if eligible excludeRunId r && has_runs_cancel client
  then exists seg,
         cancel_segment threadId (run_id_of r) seg
         /\ snd (cancel_run client threadId excludeRunId r w) = after w seg
  else cancel_run client threadId excludeRunId r w = (Ok tt, w).
Proof.
  unfold cancel_run, eligible.
  destruct (truthy_str (run_ident r)); cbn [negb orb andb]; [|done].
  destruct (bool_decide (run_ident r = excludeRunId)); cbn [negb orb andb]; [done|].
  destruct (isRunActive (run_status r)); cbn [negb orb andb]; [|done].
  destruct (has_runs_cancel client); cbn [negb orb andb]; [|done].
  fold (run_id_of r). unfold bind at 1, call.
  destruct (runs_cancel client (trace w) threadId (run_id_of r)) as [[]|e].
  - destruct (has_runs_retrieve client).
    + destruct (await_cancelled_shape (run_id_of r) 10
                  {| trace := trace w ++ [RunsCancel threadId (run_id_of r)];
                     response := response w |}) as (k & final & Hk & ->).
      exists (RunsCancel threadId (run_id_of r) :: poll_pattern threadId (run_id_of r) k final).
      split; [by exists k, final|]. unfold after. simpl. by rewrite <- app_assoc.
    + exists [RunsCancel threadId (run_id_of r)]. split; [|done].
      exists 0, false. split; [done|simpl; lia].
  - exists [RunsCancel threadId (run_id_of r)]. split; [|done].
    exists 0, false. split; [done|simpl; lia].
Qed.

Lemma for_each_no_cancel data w :
  has_runs_cancel client = false ->
  for_each (cancel_run client threadId excludeRunId) data w = (Ok tt, w).
Proof.
  intros Hc. induction data as [|r data IH]; [done|].
  simpl. unfold bind. pose proof (cancel_run_shape r w) as Hr.
  rewrite Hc, andb_false_r in Hr. by rewrite Hr.
Qed.

(** The loop cancels the runs it does not skip, in listing order, and
    stops short only if the provider rejects a call. *)
Lemma for_each_cancel_shape data : forall w,
  exists ids segs,
    Forall2 (cancel_segment threadId) ids segs
    /\ snd (for_each (cancel_run client threadId excludeRunId) data w)
       = after w (concat segs)
    /\ ids `prefix_of` (run_id_of <$> List.filter (eligible excludeRunId) data)
    /\ (fst (for_each (cancel_run client threadId excludeRunId) data w) = Ok tt ->
        has_runs_cancel client = true ->
        ids = run_id_of <$> List.filter (eligible excludeRunId) data).
Proof.
  destruct (has_runs_cancel client) eqn:Hc; cycle 1.
  { intros w. exists [], []. rewrite for_each_no_cancel by done.
    split; [constructor|]. split; [by rewrite after_nil|].
    split; [apply prefix_nil|done]. }
  induction data as [|r data IH]; intros w.
  - exists [], []. split; [constructor|]. split; [by rewrite after_nil|]. done.
  - cbn [for_each List.filter]. unfold bind.
    pose proof (cancel_run_shape r w) as Hr. rewrite Hc, andb_true_r in Hr.
    destruct (eligible excludeRunId r) eqn:Hel.
    + destruct Hr as (seg & Hseg & Hw).
      destruct (cancel_run client threadId excludeRunId r w) as [[[]|e] w1];
        simpl in Hw; subst w1.
      * destruct (IH (after w seg)) as (ids & segs & Hsegs & Hw & Hpre & Hall).
        exists (run_id_of r :: ids), (seg :: segs).
        split; [by constructor|]. split; [by rewrite Hw, after_after|].
        split; [rewrite fmap_cons; by apply prefix_cons|].
        intros Hok _. rewrite fmap_cons. f_equal. by apply Hall.
      * exists [run_id_of r], [seg]. split; [by repeat constructor|].
        split; [simpl; by rewrite app_nil_r|].
        split; [rewrite fmap_cons; apply prefix_cons, prefix_nil|done].
    + rewrite Hr. destruct (IH w) as (ids & segs & Hsegs & Hw & Hpre & Hall).
      exists ids, segs. repeat split; done.
Qed.

(** The whole sweep: one listing capped at 10, then the cancellations. *)
Lemma cancelActiveRuns_shape w :
  exists ids segs,
    Forall2 (cancel_segment threadId) ids segs
    /\ snd (cancelActiveRuns client threadId excludeRunId w)
       = after w ((if has_runs_list client then [RunsList threadId 10] else [])
                  ++ concat segs)
    /\ ids `prefix_of`
         (run_id_of <$> List.filter (eligible excludeRunId)
                          (listed client threadId (trace w)))
    /\ (fst (cancelActiveRuns client threadId excludeRunId w) = Ok tt ->
        has_runs_list client = true ->
        has_runs_cancel client = true ->
        ids = run_id_of <$> List.filter (eligible excludeRunId)
                              (listed client threadId (trace w))).
Proof.
  unfold cancelActiveRuns, listed.
  destruct (has_runs_list client); cbn [negb].
  - unfold bind, call. cbv beta.
    destruct (runs_list client (trace w) threadId 10) as [runs|e].
    + destruct (for_each_cancel_shape (default [] runs)
                  {| trace := trace w ++ [RunsList threadId 10]; response := response w |})
        as (ids & segs & Hsegs & Hw & Hpre & Hall).
      exists ids, segs. split; [done|]. split; [|split; [done|]].
      * rewrite Hw. unfold after. simpl. by rewrite <- app_assoc.
      * intros Hok _ Hc. by apply Hall.
    + exists [], []. split; [constructor|]. split; [done|].
      split; [apply prefix_nil|done].
  - exists [], []. split; [constructor|]. split; [by rewrite after_nil|].
    split; [apply prefix_nil|done].
Qed.

End Sweep.

Section SweepEffects.

Variable threadId : string.

Lemma active_polls_sweep runId k :
  forallb (sweep_effect threadId) (active_polls threadId runId k) = true.
Proof.
  induction k as [|k IH]; [done|].
  rewrite active_polls_S, forallb_app, IH. simpl. by rewrite String.eqb_refl.
Qed.

Lemma active_polls_cancels runId k : cancels_of (active_polls threadId runId k) = [].
Proof. induction k as [|k IH]; [done|]. by rewrite active_polls_S. Qed.

Lemma segment_sweep runId seg :
  cancel_segment threadId runId seg ->
  forallb (sweep_effect threadId) seg = true /\ cancels_of seg = [runId].
Proof.
  intros (k & final & -> & _). unfold poll_pattern. split.
  - simpl. rewrite String.eqb_refl, forallb_app, active_polls_sweep. simpl.
    destruct final; simpl; [by rewrite String.eqb_refl|done].
  - unfold cancels_of. simpl. f_equal. rewrite omap_app.
    fold (cancels_of (active_polls threadId runId k)). rewrite active_polls_cancels.
    by destruct final.
Qed.

Lemma segments_sweep ids segs :
  Forall2 (cancel_segment threadId) ids segs ->
  forallb (sweep_effect threadId) (concat segs) = true /\ cancels_of (concat segs) = ids.
Proof.
  induction 1 as [|rid seg ids segs Hseg _ [IH1 IH2]]; [done|].
  apply segment_sweep in Hseg as [H1 H2]. simpl.
  rewrite forallb_app, H1, IH1. split; [done|].
  unfold cancels_of in *. by rewrite omap_app, H2, IH2.
Qed.

Lemma segments_no_listing ids segs :
  Forall2 (cancel_segment threadId) ids segs -> List.filter is_list (concat segs) = [].
Proof.
  induction 1 as [|rid seg ids segs (k & final & -> & _) _ IH]; [done|].
  simpl. rewrite List.filter_app, IH, app_nil_r. unfold poll_pattern.
  rewrite List.filter_app.
  assert (List.filter is_list (active_polls threadId rid k) = []) as ->.
  { induction k as [|k IHk]; [done|]. by rewrite active_polls_S. }
  by destruct final.
Qed.

Lemma sweep_no_create new :
  forallb (sweep_effect threadId) new = true -> count_effects is_create new = 0.
Proof.
  unfold count_effects. induction new as [|e new IH]; [done|]. simpl.
  intros [He Hnew]%andb_true_iff. destruct e; try discriminate; simpl; by apply IH.
Qed.

End SweepEffects.

Section Extends.

Lemma count_effects_app p l1 l2 :
  count_effects p (l1 ++ l2) = count_effects p l1 + count_effects p l2.
Proof. unfold count_effects. by rewrite List.filter_app, length_app. Qed.


Lemma creates_bind {A B} n k (m : Prog A) (f : A -> Prog B) :
  creates_at_most n m -> (forall a, creates_at_most k (f a)) ->
  creates_at_most (n + k) (bind m f).
Proof.
  intros Hm Hf w. unfold bind. destruct (Hm w) as (new1 & Ht1 & Hc1).
  destruct (m w) as [[a|e] w1]; simpl in Ht1.
  - destruct (Hf a w1) as (new2 & Ht2 & Hc2). exists (new1 ++ new2).
    rewrite Ht2, Ht1, app_assoc, count_effects_app. split; [done|lia].
  - exists new1. split; [done|lia].
Qed.

Lemma creates_call {A} (e : Effect) (reply : list Effect -> Result A) :
  creates_at_most (if is_create e then 1 else 0) (call e reply).
Proof.
  intros w. exists [e]. split; [done|]. unfold count_effects. simpl.
  by destruct (is_create e).
Qed.

Lemma creates_emit (e : Effect) : is_create e = false -> creates_at_most 0 (emit e).
Proof.
  intros He w. exists [e]. split; [done|]. unfold count_effects. simpl. by rewrite He.
Qed.

Lemma creates_on_response f : creates_at_most 0 (on_response f).
Proof. intros w. exists []. simpl. by rewrite app_nil_r. Qed.

Lemma creates_relay stream : creates_at_most 0 (relay stream).
Proof.
  intros w. exists []. unfold relay.
  destruct (handleStream stream (response w)). simpl. by rewrite app_nil_r.
Qed.

Lemma creates_sweep client threadId excludeRunId :
  creates_at_most 0 (cancelActiveRuns client threadId excludeRunId).
Proof.
  intros w.
  destruct (cancelActiveRuns_shape client threadId excludeRunId w)
    as (ids & segs & Hsegs & -> & _).
  eexists. split; [done|].
  apply segments_sweep in Hsegs as [Hs _].
  rewrite (sweep_no_create threadId); [done|].
  rewrite forallb_app, Hs. destruct (has_runs_list client); simpl; [|done].
  by rewrite String.eqb_refl.
Qed.

Lemma creates_usage client threadId runId :
  creates_at_most 0 (retrieveRunUsageWithRetry client threadId runId).
Proof.
  intros w.
  destruct (reconciliation_polls_bounded client threadId runId w) as (k & u & _ & ->).
  eexists. split; [done|].
  rewrite (sweep_no_create threadId); [done|].
  destruct k as [|k]; [done|]. simpl. unfold poll_pattern.
  rewrite forallb_app, active_polls_sweep. simpl. by rewrite String.eqb_refl.
Qed.

End Extends.

(** ** The append and its recovery *)

Section Append.

Variable client : Client.
Variables threadId message : string.

(** The three outcomes of the first append. *)
Lemma append_message_cases w :
  let w1 := after w [MessagesCreate threadId message] in
  append_message client threadId message w
  = match messages_create client (trace w) threadId message with
    | Ok _ => (Ok tt, w1)
    | Throw e =>
        match extractActiveRunIdFromErrorMessage e with
        | Some runIdFromErr =>
            if has_runs_cancel client then
              (call (RunsCancel threadId runIdFromErr)
                 (fun h => runs_cancel client h threadId runIdFromErr) ;;;
               cancelActiveRuns client threadId None ;;;
               call (MessagesCreate threadId message)
                 (fun h => messages_create client h threadId message)) w1
            else (Throw e, w1)
        | None => (Throw e, w1)
        end
    end.
Proof.
  unfold append_message, call at 1. simpl.
  by destruct (messages_create client (trace w) threadId message).
Qed.

(** An append adds one or two [MessagesCreate] to the trace, never more. *)
Lemma creates_append : creates_at_most 2 (append_message client threadId message).
Proof.
  intros w. rewrite append_message_cases. cbv zeta.
  assert (Hone : exists new,
            trace (after w [MessagesCreate threadId message]) = trace w ++ new
            /\ count_effects is_create new <= 2).
  { exists [MessagesCreate threadId message]. split; [done|]. unfold count_effects. simpl. lia. }
  destruct (messages_create client (trace w) threadId message) as [|e]; [done|].
  destruct (extractActiveRunIdFromErrorMessage e) as [rid|]; [|done].
  destruct (has_runs_cancel client); [|done].
  assert (Hrec : creates_at_most (0 + (0 + 1))
            (call (RunsCancel threadId rid) (fun h => runs_cancel client h threadId rid) ;;;
             cancelActiveRuns client threadId None ;;;
             call (MessagesCreate threadId message)
               (fun h => messages_create client h threadId message))).
  { apply creates_bind; [apply (creates_call (RunsCancel threadId rid))|]. intros _.
    apply creates_bind; [apply creates_sweep|]. intros _.
    apply (creates_call (MessagesCreate threadId message)). }
  destruct (Hrec (after w [MessagesCreate threadId message])) as (new & -> & Hc).
  exists ([MessagesCreate threadId message] ++ new).
  split; [simpl; by rewrite <- app_assoc|].
  rewrite count_effects_app. unfold count_effects at 1. simpl. lia.
Qed.

(** The recovery when the cancellation and the second sweep return: the
    conflicting run is cancelled right after the failed append, the sweep
    follows, and the append is tried once more; its outcome is the outcome
    of [append_message]. *)
Lemma append_message_conflict w e rid w3 :
  messages_create client (trace w) threadId message = Throw e ->
  extractActiveRunIdFromErrorMessage e = Some rid ->
  has_runs_cancel client = true ->
  runs_cancel client (trace w ++ [MessagesCreate threadId message]) threadId rid = Ok tt ->
  cancelActiveRuns client threadId None
    (after w [MessagesCreate threadId message; RunsCancel threadId rid]) = (Ok tt, w3) ->
  append_message client threadId message w
  = (messages_create client (trace w3) threadId message,
     after w3 [MessagesCreate threadId message]).
Proof.
  intros He Hrid Hc Hcancel Hsweep.
  rewrite append_message_cases. cbv zeta. rewrite He, Hrid, Hc.
  unfold bind at 1, call at 1. simpl trace. rewrite Hcancel.
  unfold bind at 1.
  replace {| trace := (trace w ++ [MessagesCreate threadId message])
                      ++ [RunsCancel threadId rid];
             response := response (after w [MessagesCreate threadId message]) |}
    with (after w [MessagesCreate threadId message; RunsCancel threadId rid])
    by (unfold after; simpl; by rewrite <- app_assoc).
  by rewrite Hsweep.
Qed.

(** The recovery, step by step: a rejected cancel and a rejected sweep end
    the append with their own error; only when both return is the append
    tried again. *)
Lemma append_message_recovery w e rid :
  let create := MessagesCreate threadId message in
  let cancel := RunsCancel threadId rid in
  messages_create client (trace w) threadId message = Throw e ->
  extractActiveRunIdFromErrorMessage e = Some rid ->
  has_runs_cancel client = true ->
  append_message client threadId message w
  = match runs_cancel client (trace w ++ [create]) threadId rid with
    | Throw e1 => (Throw e1, after w [create; cancel])
    | Ok _ =>
        match cancelActiveRuns client threadId None (after w [create; cancel]) with
        | (Throw e2, w3) => (Throw e2, w3)
        | (Ok _, w3) => (messages_create client (trace w3) threadId message,
                         after w3 [create])
        end
    end.
Proof.
  intros create cancel He Hrid Hc.
  rewrite append_message_cases. cbv zeta. rewrite He, Hrid, Hc.
  unfold bind at 1, call at 1. simpl trace.
  replace {| trace := (trace w ++ [MessagesCreate threadId message])
                      ++ [RunsCancel threadId rid];
             response := response (after w [MessagesCreate threadId message]) |}
    with (after w [create; cancel])
    by (unfold after; simpl; by rewrite <- app_assoc).
  fold create.
  destruct (runs_cancel client (trace w ++ [create]) threadId rid) as [[]|e1]; [|done].
  unfold bind at 1.
  by destruct (cancelActiveRuns client threadId None (after w [create; cancel]))
    as [[[]|e2] w3].
Qed.

End Append.

(** The part of the chat route after the first sweep. *)
Lemma creates_chat_rest client assistantId threadId message :
  creates_at_most 2
    (append_message client threadId message ;;;
     stream <- call (RunsStream threadId assistantId)
                 (fun h => runs_stream client h threadId assistantId) ;;
     streamResult <- relay stream ;;
     usage <- retrieveRunUsageWithRetry client threadId (sr_runId streamResult) ;;
     emit (LogRequest threadId "chat" (sr_toolCallCount streamResult)
             (fst (reported_usage streamResult usage))
             (snd (reported_usage streamResult usage))
             (log_status (sr_error streamResult)) (log_error (sr_error streamResult)))).
Proof.
  apply (creates_bind 2 0); [apply creates_append|]. intros _.
  apply (creates_bind 0 0); [apply (creates_call (RunsStream threadId assistantId))|].
  intros stream.
  apply (creates_bind 0 0); [apply creates_relay|]. intros streamResult.
  apply (creates_bind 0 0); [apply creates_usage|]. intros usage.
  by apply creates_emit.
Qed.



(** ** The sweep before a submission *)

Lemma eligible_ident excludeRunId (r : Run) :
  eligible excludeRunId r = true ->
  run_ident r = Some (run_id_of r) /\ run_ident r <> excludeRunId.
Proof.
  unfold eligible, run_id_of. intros [[Hid Hex]%andb_true_iff _]%andb_true_iff.
  apply negb_true_iff, bool_decide_eq_false in Hex.
  destruct (run_ident r); [done|discriminate].
Qed.

Lemma elem_of_eligible_ids excludeRunId (data : list Run) rid :
  rid ∈ run_id_of <$> List.filter (eligible excludeRunId) data ->
  exists run, run ∈ data /\ run_ident run = Some rid /\ eligible excludeRunId run = true.
Proof.
  intros (run & -> & Hin)%list_elem_of_fmap.
  apply list_elem_of_In, List.filter_In in Hin as [Hin Hel].
  exists run. split; [by apply list_elem_of_In|]. split; [|done].
  by apply eligible_ident in Hel as [? _].
Qed.

Lemma filter_length_le_all {A} (p : A -> bool) (l : list A) :
  length (List.filter p l) <= length l.
Proof. induction l as [|x l IH]; simpl; [lia|]. destruct (p x); simpl; lia. Qed.

(** C10: a sweep asks the provider for one listing, with the limit 10, and
    every cancellation it issues is for this thread and for a run of that
    listing (one with an id, not the excluded one, active in the listing);
    so a run that the listing does not hold is not cancelled, whatever its
    state, and there are no more cancellations than listed runs. *)
Theorem sweep_cancels_only_listed (client : Client) (threadId : string)
    (excludeRunId : option string) (w : World) :
  exists new,
    snd (cancelActiveRuns client threadId excludeRunId w) = after w new
    /\ List.filter is_list new
       = (if has_runs_list client then [RunsList threadId 10] else [])
    /\ (forall t r, RunsCancel t r ∈ new ->
          t = threadId
          /\ exists run, run ∈ listed client threadId (trace w)
                         /\ run_ident run = Some r
                         /\ eligible excludeRunId run = true)
    /\ (forall r, (forall run, run ∈ listed client threadId (trace w) ->
                               run_ident run <> Some r) ->
                  forall t, RunsCancel t r ∉ new)
    /\ length (cancels_of new) <= length (listed client threadId (trace w)).
Proof.
  destruct (cancelActiveRuns_shape client threadId excludeRunId w)
    as (ids & segs & Hsegs & Hw & Hpre & _).
  pose proof (segments_no_listing threadId ids segs Hsegs) as Hnolist.
  apply segments_sweep in Hsegs as [Hsweep Hcancels].
  set (head := if has_runs_list client then [RunsList threadId 10] else []) in *.
  assert (Hhead : forallb (sweep_effect threadId) head = true /\ cancels_of head = []
                  /\ List.filter is_list head = head).
  { subst head. destruct (has_runs_list client); simpl; [|done]. by rewrite String.eqb_refl. }
  destruct Hhead as (Hh1 & Hh2 & Hh3).
  assert (Hall : forallb (sweep_effect threadId) (head ++ concat segs) = true)
    by (by rewrite forallb_app, Hh1, Hsweep).
  assert (Hc : cancels_of (head ++ concat segs) = ids).
  { unfold cancels_of in *. by rewrite omap_app, Hh2, Hcancels. }
  assert (Hin : forall t r, RunsCancel t r ∈ head ++ concat segs ->
            t = threadId
            /\ exists run, run ∈ listed client threadId (trace w)
                           /\ run_ident run = Some r
                           /\ eligible excludeRunId run = true).
  { intros t r Hin. split.
    - rewrite forallb_forall in Hall. apply list_elem_of_In, Hall in Hin.
      simpl in Hin. by apply String.eqb_eq in Hin.
    - apply (elem_of_eligible_ids excludeRunId).
      destruct Hpre as [k ->]. apply elem_of_app. left. rewrite <- Hc.
      apply list_elem_of_omap. by exists (RunsCancel t r). }
  exists (head ++ concat segs). split; [done|]. split; [|split; [done|split]].
  - rewrite List.filter_app, Hh3.
    by rewrite Hnolist, app_nil_r.
  - intros r Hr t Hr'. destruct (Hin t r Hr') as (_ & run & Hrun & Hid & _).
    by apply (Hr run).
  - rewrite Hc. apply prefix_length in Hpre. rewrite length_fmap in Hpre.
    pose proof (filter_length_le_all (eligible excludeRunId)
                  (listed client threadId (trace w))). lia.
Qed.




(** ** The chat route *)

Lemma truthy_nonempty (s : string) : s <> "" -> truthy_str (Some s) = true.
Proof. intros H. simpl. by apply negb_true_iff, String.eqb_neq. Qed.

(** An authorized chat request runs the [try] block and, if it throws, the
    [catch] block. *)
Lemma post_chat_authorized db sessions req session threadId message w :
  chat_threadId req = Some threadId ->
  chat_message req = Some message ->
  threadId <> "" -> message <> "" ->
  sessions !! threadId = Some session ->
  session_userId session = chat_user_id req ->
  post_chat db sessions req w
  = match chat_try (session_client session) (session_assistantId session)
            threadId message w with
    | (Ok _, w') => w'
    | (Throw e, w') => chat_catch db threadId e w'
    end.
Proof.
  intros Ht Hm Hte Hme Hs Hu. unfold post_chat.
  rewrite Ht, Hm, !truthy_nonempty by done. simpl. rewrite Hs, Hu, Z.eqb_refl. done.
Qed.

(** The audit writes of the [catch] block: the log record, then the status
    update if the log write returned. *)
Lemma chat_catch_trace db threadId e w :
  trace (chat_catch db threadId e w)
  = trace w ++ LogRequest threadId "chat" 0 0 0 "error" e
               :: status_update db (trace w) threadId e.
Proof.
  unfold chat_catch, status_update. simpl.
  by destruct (logRequest db (trace w) threadId "chat" 0 0 0 "error" e).
Qed.

Lemma status_update_audit db h threadId e :
  List.filter is_create (status_update db h threadId e) = []
  /\ List.filter is_log (status_update db h threadId e) = []
  /\ List.filter is_status_update (status_update db h threadId e)
     = status_update db h threadId e
  /\ forallb (fun x => negb (provider_effect x)) (status_update db h threadId e) = true.
Proof.
  unfold status_update.
  by destruct (logRequest db h threadId "chat" 0 0 0 "error" e).
Qed.

(** Once the headers are flushed, the [catch] block ends the request in
    the error it caught. *)
Lemma chat_catch_ends_in_error db threadId e w w' :
  response w' = res_flushHeaders (response w) ->
  ends_in_error db threadId e w w' (chat_catch db threadId e w').
Proof.
  intros Hres. split; [apply chat_catch_trace|].
  unfold chat_catch, report_error. simpl. by rewrite Hres.
Qed.

(** No chat request appends more than twice. *)
Lemma post_chat_creates db sessions req w :
  exists new,
    trace (post_chat db sessions req w) = trace w ++ new
    /\ count_effects is_create new <= 2.
Proof.
  assert (Hnil : forall res, exists new,
            trace {| trace := trace w; response := res |} = trace w ++ new
            /\ count_effects is_create new <= 2).
  { intros res. exists []. simpl. rewrite app_nil_r. split; [done|].
    unfold count_effects. simpl. lia. }
  unfold post_chat.
  destruct (negb (truthy_str (chat_threadId req)) || negb (truthy_str (chat_message req)));
    [apply Hnil|].
  destruct (sessions !! default "" (chat_threadId req)) as [session|]; [|apply Hnil].
  destruct (negb (session_userId session =? chat_user_id req)%Z); [apply Hnil|].
  set (threadId := default "" (chat_threadId req)).
  set (message := default "" (chat_message req)).
  assert (Htry : creates_at_most 2
                   (chat_try (session_client session) (session_assistantId session)
                      threadId message)).
  { unfold chat_try.
    apply (creates_bind 0 2); [apply creates_on_response|]. intros _.
    apply (creates_bind 0 2); [apply creates_sweep|]. intros _.
    apply creates_chat_rest. }
  destruct (Htry w) as (new & Ht & Hc).
  destruct (chat_try _ _ threadId message w) as [[[]|e] w']; simpl in Ht.
  - by exists new.
  - exists (new ++ LogRequest threadId "chat" 0 0 0 "error" e
                   :: status_update db (trace w') threadId e).
    rewrite chat_catch_trace, Ht, <- app_assoc. split; [done|].
    assert (Hzero : forall h, count_effects is_create
                      (LogRequest threadId "chat" 0 0 0 "error" e
                       :: status_update db h threadId e) = 0).
    { intros h. unfold count_effects. cbn [List.filter is_create].
      by destruct (status_update_audit db h threadId e) as (-> & _). }
    rewrite count_effects_app, Hzero. lia.
Qed.

(** A chat request whose append ends in an error ends in that error. *)
Lemma post_chat_append_rejected db sessions req session threadId message w w1 e w' :
  chat_threadId req = Some threadId ->
  chat_message req = Some message ->
  threadId <> "" -> message <> "" ->
  sessions !! threadId = Some session ->
  session_userId session = chat_user_id req ->
  cancelActiveRuns (session_client session) threadId None
    {| trace := trace w; response := res_flushHeaders (response w) |} = (Ok tt, w1) ->
  append_message (session_client session) threadId message w1 = (Throw e, w') ->
  post_chat db sessions req w = chat_catch db threadId e w'.
Proof.
  intros Ht Hm Hte Hme Hs Hu Hsweep Happend.
  rewrite (post_chat_authorized db sessions req session threadId message) by done.
  unfold chat_try. unfold bind at 1, on_response. unfold bind at 1.
  rewrite Hsweep. unfold bind at 1. by rewrite Happend.
Qed.

(** C1, as stated, fails when the explicit cancel is rejected.  The first
    append meets a conflict that names [run_abc123]; the run finishes
    before the cancel arrives, the provider rejects the cancel, and the
    request ends there: the message is appended once, not retried. *)
Lemma rejected_cancel_is_not_retried :
  messages_create (scripted lost_race) [RunsList "thread_1" 10] "thread_1" "list files"
  = Throw (Some (conflict_message "run_abc123"))
  /\ extractActiveRunIdFromErrorMessage (Some (conflict_message "run_abc123"))
     = Some "run_abc123"
  /\ trace (post_chat working_database (registry lost_race) (chat_from 7) fresh_world)
     = [RunsList "thread_1" 10;
        MessagesCreate "thread_1" "list files";
        RunsCancel "thread_1" "run_abc123";
        LogRequest "thread_1" "chat" 0 0 0 "error"
          (Some "Cannot cancel run with status 'completed'.");
        UpdateSessionStatus "thread_1" "error"
          (Some "Cannot cancel run with status 'completed'.")]
  /\ count_effects is_create
       (trace (post_chat working_database (registry lost_race) (chat_from 7) fresh_world))
     <> 2
  /\ frames (response (post_chat working_database (registry lost_race) (chat_from 7)
                         fresh_world))
     = [FError (Some "Cannot cancel run with status 'completed'.")].
Proof.
  split; [reflexivity|]. split; [reflexivity|]. split; [reflexivity|].
  split; [|reflexivity]. vm_compute. discriminate.
Qed.

(** C1, amended: when the append is rejected with a message that names an
    active run, the coordinator asks the provider to cancel that run right
    after the failed append (a client object without a cancel method ends
    the request in the conflict itself).  If that cancel is rejected, or
    the sweep of the remaining runs that follows it is, the request ends
    in that error and the append is not retried.  If both return, the
    append is tried once more and decides the outcome: a rejected retry
    ends the request in its error.  A request that ends in an error calls
    the provider no more: it writes the log record (and marks the session,
    unless the log write fails) and closes the stream with one [error]
    frame.  And no chat request, whatever the provider does, appends more
    than twice. *)
Theorem conflict_retry_once :
  (forall (db : LlmLogOps) (sessions : Sessions) (req : ChatRequest) (session : Session)
          (threadId message : string) (w w1 : World) (e : option string) (rid : string),
     let client := session_client session in
     let create := MessagesCreate threadId message in
     let cancel := RunsCancel threadId rid in
     let out := post_chat db sessions req w in
     chat_threadId req = Some threadId ->
     chat_message req = Some message ->
     threadId <> "" -> message <> "" ->
     sessions !! threadId = Some session ->
     session_userId session = chat_user_id req ->
     cancelActiveRuns client threadId None
       {| trace := trace w; response := res_flushHeaders (response w) |} = (Ok tt, w1) ->
     messages_create client (trace w1) threadId message = Throw e ->
     extractActiveRunIdFromErrorMessage e = Some rid ->
     (exists sweep1,
        trace w1 = trace w ++ sweep1 /\ count_effects is_create sweep1 = 0)
     /\ (has_runs_cancel client = false ->
         ends_in_error db threadId e w (after w1 [create]) out)
     /\ (has_runs_cancel client = true ->
         (forall e1,
            runs_cancel client (trace w1 ++ [create]) threadId rid = Throw e1 ->
            ends_in_error db threadId e1 w (after w1 [create; cancel]) out)
         /\ (forall (r : Result unit) (w3 : World),
               runs_cancel client (trace w1 ++ [create]) threadId rid = Ok tt ->
               cancelActiveRuns client threadId None (after w1 [create; cancel])
               = (r, w3) ->
               (exists sweep2,
                  trace w3 = trace w1 ++ [create; cancel] ++ sweep2
                  /\ count_effects is_create sweep2 = 0)
               /\ match r with
                  | Throw e2 => ends_in_error db threadId e2 w w3 out
                  | Ok _ =>
                      append_message client threadId message w1
                      = (messages_create client (trace w3) threadId message,
                         after w3 [create])
                      /\ (forall e3,
                            messages_create client (trace w3) threadId message
                            = Throw e3 ->
                            ends_in_error db threadId e3 w (after w3 [create]) out)
                  end)))
  /\ (forall (db : LlmLogOps) (sessions : Sessions) (req : ChatRequest) (w : World),
        exists new,
          trace (post_chat db sessions req w) = trace w ++ new
          /\ count_effects is_create new <= 2).
Proof.
  split; [|apply post_chat_creates].
  intros db sessions req session threadId message w w1 e rid client create cancel out
    Ht Hm Hte Hme Hs Hu Hsweep1 He Hrid.
  pose proof (append_message_recovery client threadId message w1 e rid He Hrid)
    as Happend. cbv zeta in Happend. fold create cancel in Happend.
  destruct (cancelActiveRuns_shape client threadId None
              {| trace := trace w; response := res_flushHeaders (response w) |})
    as (ids1 & segs1 & Hsegs1 & Hw1 & _).
  rewrite Hsweep1 in Hw1. simpl in Hw1.
  assert (Hno : forall ids segs,
            Forall2 (cancel_segment threadId) ids segs ->
            count_effects is_create
              ((if has_runs_list client then [RunsList threadId 10] else [])
               ++ concat segs) = 0).
  { intros ids segs Hsegs. apply (sweep_no_create threadId).
    apply segments_sweep in Hsegs as [Hsw _]. rewrite forallb_app, Hsw.
    destruct (has_runs_list client); simpl; [|done]. by rewrite String.eqb_refl. }
  assert (Hres1 : response w1 = res_flushHeaders (response w)) by (by rewrite Hw1).
  split; [|split; [|intros Hc; specialize (Happend Hc); split]].
  - eexists. split; [by rewrite Hw1|]. by eapply Hno.
  - intros Hc. subst out.
    assert (Hthrow : append_message client threadId message w1
                     = (Throw e, after w1 [create])).
    { rewrite append_message_cases. cbv zeta. by rewrite He, Hrid, Hc. }
    rewrite (post_chat_append_rejected db sessions req session threadId message w w1 e
               (after w1 [create])) by done.
    by apply chat_catch_ends_in_error.
  - intros e1 He1. rewrite He1 in Happend. subst out.
    rewrite (post_chat_append_rejected db sessions req session threadId message w w1 e1
               (after w1 [create; cancel])) by done.
    by apply chat_catch_ends_in_error.
  - intros r w3 Hcancel Hsweep2. rewrite Hcancel, Hsweep2 in Happend.
    destruct (cancelActiveRuns_shape client threadId None (after w1 [create; cancel]))
      as (ids2 & segs2 & Hsegs2 & Hw3 & _).
    rewrite Hsweep2 in Hw3. simpl in Hw3.
    assert (Hres3 : response w3 = res_flushHeaders (response w)) by (by rewrite Hw3).
    split.
    { eexists. split; [rewrite Hw3; simpl; by rewrite <- app_assoc|]. by eapply Hno. }
    destruct r as [[]|e2].
    + split; [done|]. intros e3 He3. rewrite He3 in Happend. subst out.
      rewrite (post_chat_append_rejected db sessions req session threadId message w w1 e3
                 (after w3 [create])) by done.
      by apply chat_catch_ends_in_error.
    + subst out.
      rewrite (post_chat_append_rejected db sessions req session threadId message w w1 e2 w3)
        by done.
      by apply chat_catch_ends_in_error.
Qed.

(** C1 at Scenario C with a second conflict (the first append is refused
    because [run_abc123] is active, the retry because [run_def456] is), at
    Scenario C itself, and at a cancel that comes too late, with an audit
    store that refuses the log record. *)
Lemma conflict_retry_once_witness :
  extractActiveRunIdFromErrorMessage (Some (conflict_message "run_abc123"))
  = Some "run_abc123"
  /\ frames (response (post_chat working_database (registry wedged_session) (chat_from 7)
                         fresh_world))
     = [FError (Some (conflict_message "run_def456"))]
  /\ ended (response (post_chat working_database (registry wedged_session) (chat_from 7)
                        fresh_world)) = true
  /\ cancels_of (trace (post_chat working_database (registry wedged_session) (chat_from 7)
                          fresh_world))
     = ["run_old"; "run_abc123"; "run_old"]
  /\ count_effects is_create
       (trace (post_chat working_database (registry wedged_session) (chat_from 7)
                 fresh_world)) = 2
  /\ fst (append_message (scripted recovered_session) "thread_1" "list files"
            (snd (cancelActiveRuns (scripted recovered_session) "thread_1" None
                    {| trace := []; response := res_flushHeaders fresh_response |})))
     = Ok tt
  /\ trace (post_chat broken_database (registry lost_race) (chat_from 7) fresh_world)
     = [RunsList "thread_1" 10;
        MessagesCreate "thread_1" "list files";
        RunsCancel "thread_1" "run_abc123";
        LogRequest "thread_1" "chat" 0 0 0 "error"
          (Some "Cannot cancel run with status 'completed'.")].
Proof.
  assert (Hrecovered :
    fst (append_message (scripted recovered_session) "thread_1" "list files"
           (snd (cancelActiveRuns (scripted recovered_session) "thread_1" None
                   {| trace := []; response := res_flushHeaders fresh_response |})))
    = Ok tt).
  { pose (client := scripted recovered_session).
    pose (w1 := snd (cancelActiveRuns client "thread_1" None
                       {| trace := []; response := res_flushHeaders fresh_response |})).
    pose (w3 := snd (cancelActiveRuns client "thread_1" None
                       (after w1 [MessagesCreate "thread_1" "list files";
                                  RunsCancel "thread_1" "run_abc123"]))).
    destruct (proj1 conflict_retry_once working_database (registry recovered_session)
                (chat_from 7) (session_of recovered_session 7) "thread_1" "list files"
                fresh_world w1 (Some (conflict_message "run_abc123")) "run_abc123")
      as (_ & _ & Hcan); [first [reflexivity|discriminate]..|].
    destruct (Hcan eq_refl) as (_ & Hretry).
    destruct (Hretry (Ok tt) w3 eq_refl eq_refl) as (_ & Happend & _).
    exact (f_equal fst Happend). }
  assert (Hlost :
    trace (post_chat broken_database (registry lost_race) (chat_from 7) fresh_world)
    = [RunsList "thread_1" 10;
       MessagesCreate "thread_1" "list files";
       RunsCancel "thread_1" "run_abc123";
       LogRequest "thread_1" "chat" 0 0 0 "error"
         (Some "Cannot cancel run with status 'completed'.")]).
  { pose (client := scripted lost_race).
    pose (w1 := snd (cancelActiveRuns client "thread_1" None
                       {| trace := []; response := res_flushHeaders fresh_response |})).
    destruct (proj1 conflict_retry_once broken_database (registry lost_race)
                (chat_from 7) (session_of lost_race 7) "thread_1" "list files"
                fresh_world w1 (Some (conflict_message "run_abc123")) "run_abc123")
      as (_ & _ & Hcan); [first [reflexivity|discriminate]..|].
    destruct (Hcan eq_refl) as (Hcancel & _).
    destruct (Hcancel (Some "Cannot cancel run with status 'completed'.") eq_refl)
      as (Htrace & _).
    exact Htrace. }
  pose (client := scripted wedged_session).
  pose (w1 := snd (cancelActiveRuns client "thread_1" None
                     {| trace := []; response := res_flushHeaders fresh_response |})).
  pose (w3 := snd (cancelActiveRuns client "thread_1" None
                     (after w1 [MessagesCreate "thread_1" "list files";
                                RunsCancel "thread_1" "run_abc123"]))).
  destruct (proj1 conflict_retry_once working_database (registry wedged_session)
              (chat_from 7) (session_of wedged_session 7) "thread_1" "list files"
              fresh_world w1 (Some (conflict_message "run_abc123")) "run_abc123")
    as (_ & _ & Hcan); [first [reflexivity|discriminate]..|].
  destruct (Hcan eq_refl) as (_ & Hretry).
  destruct (Hretry (Ok tt) w3 eq_refl eq_refl) as (_ & _ & Hfatal).
  destruct (Hfatal (Some (conflict_message "run_def456")) eq_refl)
    as (Htrace & Hframes & Hended).
  split; [reflexivity|]. split; [exact Hframes|]. split; [exact Hended|].
  rewrite Htrace. split; [reflexivity|]. split; [reflexivity|].
  split; [exact Hrecovered|exact Hlost].
Defined.

(** ** Sessions of another principal *)

(** C8, as stated, fails for the deletion: the session of [thread_1]
    belongs to user 7, and user 8 is told that there is no such session,
    not that the access is unauthorized. *)
Lemma delete_by_stranger_not_unauthorized :
  registry waiting_run !! "thread_1" = Some (session_of waiting_run 7)
  /\ session_userId (session_of waiting_run 7) <> 8%Z
  /\ ~ is_unauthorized
         (response (snd (delete_session (registry waiting_run) "thread_1" 8 fresh_world)))
  /\ statusCode
       (response (snd (delete_session (registry waiting_run) "thread_1" 8 fresh_world)))
     = 404.
Proof.
  split; [reflexivity|]. split; [discriminate|]. split; [|reflexivity].
  intros [Hcode _]. vm_compute in Hcode. discriminate.
Qed.

(** C8, amended: when the session exists and belongs to another principal,
    a chat or tool-output request that carries its required fields is
    answered 403 [UNAUTHORIZED], and a deletion is answered 404 [Session
    not found] and deletes nothing; each answer is a JSON body on a closed
    response, with no provider call made and no frame written. *)
Theorem foreign_session_refused (db : LlmLogOps) (sessions : Sessions)
    (session : Session) (threadId : string) (user : Z) (w : World) :
  sessions !! threadId = Some session ->
  session_userId session <> user ->
  threadId <> "" ->
  (forall message,
     message <> "" ->
     let w' := post_chat db sessions
                 {| chat_threadId := Some threadId; chat_message := Some message;
                    chat_user_id := user |} w in
     is_unauthorized (response w')
     /\ trace w' = trace w
     /\ frames (response w') = frames (response w)
     /\ ended (response w') = true)
  /\ (forall runId toolOutputs,
        runId <> "" ->
        let w' := post_tool_outputs sessions
                    {| to_threadId := Some threadId; to_runId := Some runId;
                       to_toolOutputs := Some toolOutputs; to_user_id := user |} w in
        is_unauthorized (response w')
        /\ trace w' = trace w
        /\ frames (response w') = frames (response w)
        /\ ended (response w') = true)
  /\ (let out := delete_session sessions threadId user w in
      fst out = sessions
      /\ statusCode (response (snd out)) = 404
      /\ body (response (snd out)) = Some (JError "Session not found" None)
      /\ trace (snd out) = trace w
      /\ frames (response (snd out)) = frames (response w)
      /\ ended (response (snd out)) = true).
Proof.
  intros Hs Hu Ht.
  assert (Hneq : (session_userId session =? user)%Z = false) by (by apply Z.eqb_neq).
  split; [|split].
  - intros message Hm. unfold post_chat. simpl chat_threadId. simpl chat_message.
    simpl chat_user_id. rewrite !truthy_nonempty by done. simpl.
    rewrite Hs, Hneq. simpl. repeat split; eauto.
  - intros runId toolOutputs Hr. unfold post_tool_outputs. simpl to_threadId.
    simpl to_runId. simpl to_toolOutputs. simpl to_user_id.
    rewrite !truthy_nonempty by done. simpl.
    rewrite Hs, Hneq. simpl. repeat split; eauto.
  - unfold delete_session. rewrite Hs, Hneq. simpl. done.
Qed.

(** C8 at user 8 and the session of user 7. *)
Lemma foreign_session_refused_witness :
  is_unauthorized
    (response (post_chat working_database (registry waiting_run) (chat_from 8) fresh_world))
  /\ trace (post_chat working_database (registry waiting_run) (chat_from 8) fresh_world)
     = []
  /\ is_unauthorized
       (response (post_tool_outputs (registry waiting_run) (tool_outputs_from 8) fresh_world))
  /\ fst (delete_session (registry waiting_run) "thread_1" 8 fresh_world)
     = registry waiting_run.
Proof.
  destruct (foreign_session_refused working_database (registry waiting_run)
              (session_of waiting_run 7)
              "thread_1" 8 fresh_world) as (Hchat & Htool & Hdel);
    [reflexivity|discriminate|discriminate|].
  destruct (Hchat "list files") as (H1 & H2 & _); [discriminate|].
  destruct (Htool "run_1" [{| tool_call_id := "call_1"; tool_output := "done" |}])
    as (H3 & _); [discriminate|].
  destruct Hdel as (H4 & _).
  split; [exact H1|]. split; [exact H2|]. split; [exact H3|exact H4].
Defined.

(** * Further properties *)

(** ** What the relay forwards and what it returns *)

Lemma dispatch_event_text ev st :
  snd (dispatch ev st) = match event_text ev with Some s => [FText s] | None => [] end.
Proof.
  unfold dispatch, event_text.
  destruct (String.eqb (event_name ev) "thread.message.delta").
  - destruct (delta_content (data_delta (event_data ev)) ≫= head) as [part|]; [|done].
    destruct (String.eqb (part_type part) "text"); [|done]. simpl.
    destruct (part_text part ≫= text_value) as [v|]; [|done]. simpl.
    by destruct (negb (String.eqb v "")).
  - repeat match goal with
           | |- context [if ?b then _ else _] => destruct b
           | |- context [match ?o with Some _ => _ | None => _ end] => destruct o
           end; done.
Qed.

Lemma consume_texts evs : forall st res,
  frames (snd (consume evs st res)) = frames res ++ (FText <$> omap event_text evs).
Proof.
  induction evs as [|ev evs IH]; intros st res; simpl.
  - by rewrite app_nil_r.
  - unfold on_event.
    pose proof (dispatch_event_text ev (capture_runId ev st)) as Hfs.
    destruct (dispatch ev (capture_runId ev st)) as [st' fs]. simpl in Hfs. subst fs.
    rewrite IH. destruct (event_text ev) as [s|]; simpl; [|done].
    by rewrite <- app_assoc.
Qed.

(** X1: the relay forwards the text of the message deltas, one frame per
    delta that carries text, in arrival order and before the closing
    frames, whatever other events lie between them. *)
Theorem relay_forwards_text_in_order (stream : Stream) (res : Response) :
  frames (snd (handleStream stream res))
  = frames res
    ++ (FText <$> omap event_text (stream_events stream))
    ++ closing_frames stream (fst (handleStream stream res))
         (st_toolCalls (final_state stream)).
Proof.
  unfold handleStream, final_state, closing_frames.
  rewrite (consume_state _ _ fresh_response res).
  pose proof (consume_texts (stream_events stream) initial_state res) as Hfr.
  destruct (consume (stream_events stream) initial_state res) as [st res1].
  simpl in *.
  destruct (stream_end stream) as [|msg]; simpl.
  - case_decide; simpl; rewrite Hfr, <- ?app_assoc; done.
  - rewrite Hfr, <- ?app_assoc; done.
Qed.

Ltac by_event_name ev :=
  unfold dispatch, is_lifecycle, carries_usage, is_failed;
  destruct (String.eqb_spec (event_name ev) "thread.message.delta") as [E|_];
    [try rewrite E; simpl;
     repeat match goal with
            | |- context [if ?b then _ else _] => destruct b
            | |- context [match ?o with Some _ => _ | None => _ end] => destruct o
            end; reflexivity|];
  destruct (String.eqb_spec (event_name ev) "thread.run.step.delta") as [E|_];
    [try rewrite E; simpl;
     repeat match goal with
            | |- context [if ?b then _ else _] => destruct b
            | |- context [match ?o with Some _ => _ | None => _ end] => destruct o
            end; reflexivity|];
  destruct (String.eqb_spec (event_name ev) "thread.run.requires_action") as [E|_];
    [try rewrite E; simpl; destruct (data_usage (event_data ev)); reflexivity|];
  destruct (String.eqb_spec (event_name ev) "thread.run.completed") as [E|_];
    [try rewrite E; simpl; destruct (data_usage (event_data ev)); reflexivity|];
  destruct (String.eqb_spec (event_name ev) "thread.run.failed") as [E|_];
    [try rewrite E; simpl; reflexivity|];
  reflexivity.

Lemma dispatch_runId ev st :
  st_runId (fst (dispatch ev st))
  = if is_lifecycle ev then data_id (event_data ev) else st_runId st.
Proof. by_event_name ev. Qed.

Lemma dispatch_usage ev st :
  (st_inputTokens (fst (dispatch ev st)), st_outputTokens (fst (dispatch ev st)))
  = if carries_usage ev
    then (num_or_zero (data_usage (event_data ev) ≫= prompt_tokens),
          num_or_zero (data_usage (event_data ev) ≫= completion_tokens))
    else (st_inputTokens st, st_outputTokens st).
Proof. by_event_name ev. Qed.

Lemma dispatch_error ev st :
  st_streamError (fst (dispatch ev st))
  = if is_failed ev
    then Some (str_or (data_last_error (event_data ev) ≫= last_error_message) "Run failed")
    else st_streamError st.
Proof. by_event_name ev. Qed.

Lemma capture_runId_spec ev st :
  st_runId (capture_runId ev st)
  = (if truthy_str (st_runId st) then st_runId st
     else match disclosure ev with
          | Some rid => Some rid
          | None => st_runId st
          end)
  /\ st_inputTokens (capture_runId ev st) = st_inputTokens st
  /\ st_outputTokens (capture_runId ev st) = st_outputTokens st
  /\ st_streamError (capture_runId ev st) = st_streamError st.
Proof.
  unfold capture_runId, disclosure.
  destruct (truthy_str (st_runId st)); simpl; [done|].
  destruct (truthy_str (data_id (event_data ev)) && _) eqn:E1; simpl.
  - apply andb_true_iff in E1 as [E1 _].
    destruct (data_id (event_data ev)); [done|discriminate].
  - destruct (truthy_str (data_run_id (event_data ev))) eqn:E2; simpl; [|done].
    destruct (data_run_id (event_data ev)); [done|discriminate].
Qed.

Lemma disclosure_truthy ev rid : disclosure ev = Some rid -> truthy_str (Some rid) = true.
Proof.
  unfold disclosure.
  destruct (truthy_str (data_id (event_data ev)) && _) eqn:E1.
  - apply andb_true_iff in E1 as [E1 _]. by intros <-.
  - destruct (truthy_str (data_run_id (event_data ev))) eqn:E2; [by intros <-|done].
Qed.

Lemma last_filter_cons {A} (p : A -> bool) (x : A) (l : list A) :
  last (List.filter p (x :: l))
  = match last (List.filter p l) with
    | Some y => Some y
    | None => if p x then Some x else None
    end.
Proof.
  simpl. destruct (p x); [|by destruct (last (List.filter p l))].
  destruct (List.filter p l) as [|y l'] eqn:E; [done|].
  rewrite last_cons. by destruct (last (y :: l')).
Qed.

Lemma consume_runId evs : forall st res,
  forallb names_its_run evs = true ->
  st_runId (fst (consume evs st res)) = runId_after st evs.
Proof.
  induction evs as [|ev evs IH]; intros st res Hevs.
  - unfold runId_after. simpl. by destruct (truthy_str (st_runId st)).
  - simpl in Hevs. apply andb_true_iff in Hevs as [Hev Hevs].
    simpl. unfold on_event.
    pose proof (dispatch_runId ev (capture_runId ev st)) as Hd.
    destruct (capture_runId_spec ev st) as (Hc & _).
    destruct (dispatch ev (capture_runId ev st)) as [st' fs]. simpl in Hd.
    rewrite IH by done. unfold runId_after. rewrite last_filter_cons.
    destruct (last (List.filter is_lifecycle evs)) as [ev'|]; [done|].
    rewrite Hd. unfold names_its_run in Hev. fold (is_lifecycle ev) in Hev.
    destruct (is_lifecycle ev).
    + by rewrite Hev.
    + rewrite Hc. simpl. destruct (truthy_str (st_runId st)) eqn:Est; [by rewrite Est|].
      destruct (disclosure ev) as [rid|] eqn:Edis; simpl.
      * pose proof (disclosure_truthy ev rid Edis) as Hrid. simpl in Hrid.
        by rewrite Hrid.
      * by rewrite Est.
Qed.

Lemma consume_usage evs : forall st res,
  (st_inputTokens (fst (consume evs st res)), st_outputTokens (fst (consume evs st res)))
  = usage_after st evs.
Proof.
  induction evs as [|ev evs IH]; intros st res; [done|].
  simpl. unfold on_event.
  pose proof (dispatch_usage ev (capture_runId ev st)) as Hd.
  destruct (capture_runId_spec ev st) as (_ & Hi & Ho & _).
  destruct (dispatch ev (capture_runId ev st)) as [st' fs]. simpl in Hd.
  rewrite IH. unfold usage_after. rewrite last_filter_cons.
  destruct (last (List.filter carries_usage evs)) as [ev'|]; [done|].
  rewrite Hd, Hi, Ho. by destruct (carries_usage ev).
Qed.

Lemma consume_error evs : forall st res,
  st_streamError (fst (consume evs st res)) = error_after st evs.
Proof.
  induction evs as [|ev evs IH]; intros st res; [done|].
  simpl. unfold on_event.
  pose proof (dispatch_error ev (capture_runId ev st)) as Hd.
  destruct (capture_runId_spec ev st) as (_ & _ & _ & He).
  destruct (dispatch ev (capture_runId ev st)) as [st' fs]. simpl in Hd.
  rewrite IH. unfold error_after. rewrite last_filter_cons.
  destruct (last (List.filter is_failed evs)) as [ev'|]; [done|].
  rewrite Hd, He. by destruct (is_failed ev).
Qed.

Lemma handleStream_result (stream : Stream) (res : Response) :
  let st := fst (consume (stream_events stream) initial_state res) in
  sr_runId (fst (handleStream stream res)) = st_runId st
  /\ sr_inputTokens (fst (handleStream stream res)) = st_inputTokens st
  /\ sr_outputTokens (fst (handleStream stream res)) = st_outputTokens st
  /\ sr_error (fst (handleStream stream res))
     = match stream_end stream with
       | Finished => st_streamError st
       | Faulted message => message
       end.
Proof.
  unfold handleStream.
  destruct (consume (stream_events stream) initial_state res) as [st res1].
  by destruct (stream_end stream).
Qed.

(** ** Usage that is reported without reconciliation *)

(** C5, as stated, fails in its last part.  The stream closes with a
    [thread.run.completed] event whose payload carries the usage but no
    id: the relay returns no run id, reconciliation is skipped without a
    call, and the usage that is logged is the 10 and 4 of the stream, not
    zero. *)
Lemma skipped_reconciliation_reports_inline_usage :
  truthy_str (sr_runId (fst (handleStream unnamed_completion fresh_response))) = false
  /\ retrieveRunUsageWithRetry (scripted unnamed_run) "thread_1"
       (sr_runId (fst (handleStream unnamed_completion fresh_response))) fresh_world
     = (Ok None, fresh_world)
  /\ reported_usage (fst (handleStream unnamed_completion fresh_response)) None
     = (10%Z, 4%Z)
  /\ reported_usage (fst (handleStream unnamed_completion fresh_response)) None
     <> (0%Z, 0%Z)
  /\ trace (post_chat working_database (registry unnamed_run) (chat_from 7) fresh_world)
     = [RunsList "thread_1" 10;
        MessagesCreate "thread_1" "list files";
        RunsStream "thread_1" "asst_1";
        LogRequest "thread_1" "chat" 0 10 4 "success" None].
Proof.
  split; [reflexivity|]. split; [reflexivity|]. split; [reflexivity|].
  split; [|reflexivity]. vm_compute. discriminate.
Qed.

(** C5, amended: reconciliation makes at most six polls with a 250 ms
    pause between them and never fails; it returns the figures of the
    first poll that shows a non-zero token count; it returns nothing, with
    the remaining polls unused, at the first poll that shows no figure and
    an active run; and with an empty run id it makes no call at all.  What
    is reported when reconciliation returns nothing is the usage the
    stream itself carried: that of its last [requires_action] or
    [completed] event with a usage object, and zero when there is none --
    in particular, with an empty run id, whenever the run lifecycle events
    name their run. *)
Theorem usage_reconciliation (client : Client) (threadId : string) :
  (forall runId w,
     truthy_str runId = false ->
     retrieveRunUsageWithRetry client threadId runId w = (Ok None, w))
  /\ (forall stream res,
        reported_usage (fst (handleStream stream res)) None
        = match last (List.filter carries_usage (stream_events stream)) with
          | Some ev =>
              (num_or_zero (data_usage (event_data ev) ≫= prompt_tokens),
               num_or_zero (data_usage (event_data ev) ≫= completion_tokens))
          | None => (0%Z, 0%Z)
          end)
  /\ (forall stream res,
        forallb names_its_run (stream_events stream) = true ->
        truthy_str (sr_runId (fst (handleStream stream res))) = false ->
        reported_usage (fst (handleStream stream res)) None = (0%Z, 0%Z))
  /\ (forall runId w,
        exists k u,
          k <= 6
          /\ retrieveRunUsageWithRetry client threadId runId w
             = (Ok u, after w (usage_polls threadId (default "" runId) k)))
  /\ (forall rid w k,
        has_runs_retrieve client = true ->
        truthy_str (Some rid) = true ->
        k < 6 ->
        (forall j, j < k -> inconclusive (poll_reply client threadId rid (trace w) j) = true) ->
        let run := polled_run (poll_reply client threadId rid (trace w) k) in
        (has_tokens (run ≫= run_usage) = true ->
         retrieveRunUsageWithRetry client threadId (Some rid) w
         = (Ok (Some (usage_pair (run ≫= run_usage))),
            after w (usage_polls threadId rid (S k))))
        /\ (has_tokens (run ≫= run_usage) = false ->
            isRunActive (run ≫= run_status) = true ->
            retrieveRunUsageWithRetry client threadId (Some rid) w
            = (Ok None, after w (usage_polls threadId rid (S k))))).
Proof.
  split; [|split; [|split; [|split]]].
  - intros runId w Hrun. unfold retrieveRunUsageWithRetry. rewrite Hrun.
    by rewrite orb_true_r.
  - intros stream res. unfold reported_usage.
    destruct (handleStream_result stream res) as (_ & -> & -> & _).
    by rewrite consume_usage.
  - apply handleStream_no_usage_without_runId.
  - apply reconciliation_polls_bounded.
  - intros rid w k Hret Hrid Hk Hinc run. unfold retrieveRunUsageWithRetry.
    rewrite Hret, Hrid. cbn [negb orb]. change (default "" (Some rid)) with rid.
    replace 6 with (k + S (5 - k)) by lia.
    rewrite usage_loop_skip by (first [lia|done]).
    assert (Hr : poll_reply client threadId rid
                   (trace (after w (active_polls threadId rid k))) 0
                 = poll_reply client threadId rid (trace w) k)
      by (by rewrite poll_reply_0).
    rewrite usage_loop_step. cbv zeta. rewrite Hr. fold run.
    split.
    + intros H. by rewrite H, after_after.
    + intros H1 H2. by rewrite H1, H2, after_after.
Qed.

(** C5 at a run whose usage appears at the third poll, at a run that is
    waiting for tool outputs, at a stream that disclosed no run, and at
    a stream that carried its usage without disclosing its run. *)
Lemma usage_reconciliation_witness :
  retrieveRunUsageWithRetry (scripted late_usage) "thread_1" (Some "run_1") fresh_world
  = (Ok (Some (120%Z, 45%Z)), after fresh_world (usage_polls "thread_1" "run_1" 3))
  /\ retrieveRunUsageWithRetry (scripted waiting_run) "thread_1" (Some "run_1") fresh_world
     = (Ok None, after fresh_world (usage_polls "thread_1" "run_1" 1))
  /\ retrieveRunUsageWithRetry (scripted late_usage) "thread_1"
       (sr_runId (fst (handleStream anonymous_stream fresh_response))) fresh_world
     = (Ok None, fresh_world)
  /\ reported_usage (fst (handleStream anonymous_stream fresh_response)) None = (0%Z, 0%Z)
  /\ reported_usage (fst (handleStream unnamed_completion fresh_response)) None
     = (10%Z, 4%Z).
Proof.
  pose proof (usage_reconciliation (scripted late_usage) "thread_1")
    as (Hskip & Hinline & Hzero & _ & Hpoll).
  pose proof (usage_reconciliation (scripted waiting_run) "thread_1")
    as (_ & _ & _ & _ & Hwait).
  split; [|split; [|split; [|split]]].
  - apply (Hpoll "run_1" fresh_world 2); try reflexivity; [lia|].
    intros [|[|j]] Hj; [reflexivity|reflexivity|lia].
  - apply (Hwait "run_1" fresh_world 0); try reflexivity; [lia|].
    intros j Hj; lia.
  - apply Hskip. reflexivity.
  - apply Hzero; reflexivity.
  - exact (Hinline unnamed_completion fresh_response).
Defined.

(** X2: when the run lifecycle events name their run, the run id the relay
    returns (and puts in its [done] frame) is the id of the last
    [requires_action], [completed] or [failed] event; without such an
    event it is the first identity disclosed -- the id of the first
    [thread.run.*] event carrying one, or the [run_id] of an earlier
    payload -- and without any it is the empty string. *)
Theorem relay_run_id (stream : Stream) (res : Response) :
  forallb names_its_run (stream_events stream) = true ->
  sr_runId (fst (handleStream stream res))
  = match last (List.filter is_lifecycle (stream_events stream)) with
    | Some ev => data_id (event_data ev)
    | None =>
        match head (omap disclosure (stream_events stream)) with
        | Some rid => Some rid
        | None => Some ""
        end
    end.
Proof.
  intros Hevs. destruct (handleStream_result stream res) as (-> & _).
  by rewrite consume_runId.
Qed.

(** X3: the inline usage the relay returns is that of the last
    [requires_action] or [completed] event that carries a usage object
    (absent figures read as 0), and (0, 0) without one; the error it
    returns is the fault message when the source faults, and otherwise
    the message of the last [failed] event ("Run failed" when that event
    has none), or none. *)
Theorem relay_usage_and_error (stream : Stream) (res : Response) :
  (sr_inputTokens (fst (handleStream stream res)),
   sr_outputTokens (fst (handleStream stream res)))
  = match last (List.filter carries_usage (stream_events stream)) with
    | Some ev =>
        (num_or_zero (data_usage (event_data ev) ≫= prompt_tokens),
         num_or_zero (data_usage (event_data ev) ≫= completion_tokens))
    | None => (0%Z, 0%Z)
    end
  /\ sr_error (fst (handleStream stream res))
     = match stream_end stream with
       | Finished =>
           match last (List.filter is_failed (stream_events stream)) with
           | Some ev =>
               Some (str_or (data_last_error (event_data ev) ≫= last_error_message)
                       "Run failed")
           | None => None
           end
       | Faulted message => message
       end.
Proof.
  destruct (handleStream_result stream res) as (_ & -> & -> & ->).
  rewrite consume_usage, consume_error. done.
Qed.

(** X2 at Scenario D (the id of its [requires_action] event) and at a
    stream that discloses nothing. *)
Lemma relay_run_id_witness :
  sr_runId (fst (handleStream scenario_d_stream fresh_response)) = Some "run_1"
  /\ sr_runId (fst (handleStream anonymous_stream fresh_response)) = Some "".
Proof.
  split.
  - exact (relay_run_id scenario_d_stream fresh_response eq_refl).
  - exact (relay_run_id anonymous_stream fresh_response eq_refl).
Defined.

(** ** A call from all its fragments *)

Lemma string_app_nil_r (s : string) : s +:+ "" = s.
Proof. induction s as [|a s IH]; [done|]. unfold String.append; fold String.append. by rewrite IH. Qed.

Lemma string_app_assoc (s t u : string) : (s +:+ t) +:+ u = s +:+ (t +:+ u).
Proof.
  induction s as [|a s IH]; [done|].
  unfold String.append; fold String.append. by rewrite IH.
Qed.

Lemma apply_fragment_some (c : ToolCall) (tc : ToolCallDelta) :
  apply_fragment (Some c) tc
  = {| call_id := last_id (call_id c) [tc]; call_type := call_type c;
       call_name := call_name c +:+ fragment_name tc;
       call_arguments := call_arguments c +:+ fragment_arguments tc |}.
Proof.
  unfold apply_fragment, append_name, append_arguments, update_id, fragment_name,
    fragment_arguments, str_or, last_id. simpl.
  destruct c as [id ty nm ar]. simpl.
  destruct (truthy_str (tc_function tc ≫= fn_name)),
           (truthy_str (tc_function tc ≫= fn_arguments)),
           (truthy_str (tc_id tc)); simpl; by rewrite ?string_app_nil_r.
Qed.

Lemma apply_fragment_none (tc : ToolCallDelta) :
  apply_fragment None tc = reconstructed [tc].
Proof.
  unfold apply_fragment, append_name, append_arguments, update_id, reconstructed,
    fragment_name, fragment_arguments, str_or, last_id, joined. simpl.
  destruct (truthy_str (tc_function tc ≫= fn_name)),
           (truthy_str (tc_function tc ≫= fn_arguments)),
           (truthy_str (tc_id tc)); simpl; by rewrite ?string_app_nil_r.
Qed.

Lemma slot_fold_functions_at i tcs : forall o,
  slot_fold i o tcs = slot_fold i o (functions_at i tcs).
Proof.
  induction tcs as [|tc tcs IH]; intros o; [done|].
  unfold slot_fold, functions_at in *. simpl.
  destruct (Nat.eqb (tc_index tc) i && String.eqb (tc_type tc) "function") eqn:E; simpl.
  - rewrite E. apply IH.
  - apply IH.
Qed.

Lemma slot_fold_some i fs : forall c,
  Forall (fun tc => Nat.eqb (tc_index tc) i && String.eqb (tc_type tc) "function" = true) fs ->
  slot_fold i (Some c) fs
  = Some {| call_id := last_id (call_id c) fs; call_type := call_type c;
            call_name := call_name c +:+ joined fragment_name fs;
            call_arguments := call_arguments c +:+ joined fragment_arguments fs |}.
Proof.
  induction fs as [|tc fs IH]; intros c Hfs.
  - unfold slot_fold, joined, last_id. simpl. rewrite !string_app_nil_r. by destruct c.
  - apply Forall_cons in Hfs as [Htc Hfs].
    unfold slot_fold in *. simpl. rewrite Htc, apply_fragment_some, IH by done.
    simpl. unfold joined. simpl. by rewrite !string_app_assoc.
Qed.

Lemma functions_at_all i tcs :
  Forall (fun tc => Nat.eqb (tc_index tc) i && String.eqb (tc_type tc) "function" = true)
    (functions_at i tcs).
Proof.
  apply Forall_forall. intros tc Hin.
  by apply list_elem_of_In, List.filter_In in Hin as [_ ?].
Qed.

(** X4: a slot that is empty before a delivery holds, after it, the call
    made of all the function fragments of its index: the last non-empty id
    among them, and their names and their arguments concatenated in
    arrival order; fragments of other indices and of other types do not
    touch it, and without a function fragment of its index it stays
    empty. *)
Theorem slot_holds_all_fragments (slots : ToolCalls) (tcs : list ToolCallDelta) (i : nat) :
  array_get slots i = None ->
  array_get (accumulate_all slots tcs) i
  = match functions_at i tcs with
    | [] => None
    | fs => Some (reconstructed fs)
    end.
Proof.
  intros Hempty. rewrite accumulate_all_get, Hempty, slot_fold_functions_at.
  pose proof (functions_at_all i tcs) as Hall.
  destruct (functions_at i tcs) as [|tc fs]; [done|].
  apply Forall_cons in Hall as [Htc Hfs].
  unfold slot_fold. simpl. rewrite Htc, apply_fragment_none.
  fold (slot_fold i (Some (reconstructed [tc])) fs).
  rewrite slot_fold_some by done. unfold reconstructed, joined, last_id. simpl.
  by rewrite !string_app_nil_r.
Qed.

(** X4 at a call that arrives in three fragments around another call. *)
Lemma slot_holds_all_fragments_witness :
  array_get (accumulate_all [] split_delivery) 0
  = Some {| call_id := "call_1"; call_type := "function";
            call_name := "read_file"; call_arguments := "{}" |}.
Proof. exact (slot_holds_all_fragments [] split_delivery 0 eq_refl). Defined.

(** ** The run id in a conflict message *)

Section Regex.

Lemma string_app_cons a (s t : string) : String a s +:+ t = String a (s +:+ t).
Proof. reflexivity. Qed.

Lemma strip_prefix_app (p s : string) : strip_prefix p (p +:+ s) = Some s.
Proof.
  induction p as [|a p IH]; [by destruct s|].
  rewrite string_app_cons. simpl. by rewrite Ascii.eqb_refl.
Qed.

Lemma strip_prefix_Some (p s r : string) : strip_prefix p s = Some r -> s = p +:+ r.
Proof.
  revert s. induction p as [|a p IH]; intros s H.
  - destruct s; simpl in H; by simplify_eq.
  - destruct s as [|b s]; simpl in H; [done|].
    destruct (Ascii.eqb_spec a b) as [->|]; [|done].
    rewrite string_app_cons. f_equal. by apply IH.
Qed.

Lemma string_prefix_app (p s : string) : String.prefix p (p +:+ s) = true.
Proof.
  induction p as [|a p IH]; [by destruct s|].
  rewrite string_app_cons. simpl. by destruct (ascii_dec a a).
Qed.

Lemma string_prefix_true (p s : string) : String.prefix p s = true -> exists r, s = p +:+ r.
Proof.
  revert s. induction p as [|a p IH]; intros s H.
  - by exists s.
  - destruct s as [|b s]; simpl in H; [done|].
    destruct (ascii_dec a b) as [->|]; [|done].
    destruct (IH s H) as [r ->]. by exists r.
Qed.

Lemma span_alnum_spec (s : string) :
  s = fst (span_alnum s) +:+ snd (span_alnum s) /\ all_alnum (fst (span_alnum s)) = true.
Proof.
  induction s as [|c s [IH1 IH2]]; [done|]. simpl.
  destruct (is_alnum c) eqn:E; [|done].
  destruct (span_alnum s) as [tok rest]. simpl in *.
  rewrite string_app_cons, <- IH1, E. done.
Qed.

Lemma span_alnum_app (tok : string) (c : ascii) (rest : string) :
  all_alnum tok = true -> is_alnum c = false ->
  span_alnum (tok +:+ String c rest) = (tok, String c rest).
Proof.
  intros Htok Hc. induction tok as [|a tok IH].
  - change ("" +:+ String c rest) with (String c rest). simpl. by rewrite Hc.
  - simpl in Htok. apply andb_true_iff in Htok as [Ha Htok].
    rewrite string_app_cons. simpl. by rewrite Ha, IH.
Qed.

Lemma match_here_phrase (tok post : string) :
  tok <> "" -> all_alnum tok = true ->
  match_here ("while a run run_" +:+ tok +:+ " is active" +:+ post)
  = Some ("run_" +:+ tok).
Proof.
  intros Hne Htok. unfold match_here. rewrite strip_prefix_app.
  change (" is active" +:+ post) with (String " " ("is active" +:+ post)).
  rewrite span_alnum_app by done.
  apply String.eqb_neq in Hne. rewrite Hne. simpl negb.
  change (String " " ("is active" +:+ post)) with (" is active" +:+ post).
  by rewrite string_prefix_app.
Qed.

Lemma match_here_Some (s g : string) :
  match_here s = Some g ->
  exists tok post,
    s = "while a run run_" +:+ tok +:+ " is active" +:+ post
    /\ g = "run_" +:+ tok /\ tok <> "" /\ all_alnum tok = true.
Proof.
  unfold match_here. intros H.
  destruct (strip_prefix "while a run run_" s) as [rest|] eqn:Hstrip; [|done].
  apply strip_prefix_Some in Hstrip.
  destruct (span_alnum_spec rest) as [Hrest Htok].
  destruct (span_alnum rest) as [tok rest']. simpl in *.
  destruct (String.eqb_spec tok "") as [|Hne]; [done|]. simpl in H.
  destruct (String.prefix " is active" rest') eqn:Hpre; [|done].
  apply string_prefix_true in Hpre as [post ->].
  exists tok, post. simplify_eq. done.
Qed.

Lemma regex_search_unfold (s : string) :
  regex_search s
  = match match_here s with
    | Some g => Some g
    | None => match s with
              | String _ s' => regex_search s'
              | EmptyString => None
              end
    end.
Proof. by destruct s. Qed.

Lemma regex_search_Some (s g : string) :
  regex_search s = Some g -> exists pre suf, s = pre +:+ suf /\ match_here suf = Some g.
Proof.
  induction s as [|a s IH]; rewrite regex_search_unfold; intros H.
  - destruct (match_here "") eqn:E; [|done]. exists "", "". by simplify_eq.
  - destruct (match_here (String a s)) eqn:E.
    + exists "", (String a s). by simplify_eq.
    + destruct (IH H) as (pre & suf & -> & Hm). by exists (String a pre), suf.
Qed.

Lemma regex_search_finds (pre suf g : string) :
  match_here suf = Some g -> is_Some (regex_search (pre +:+ suf)).
Proof.
  intros Hm. induction pre as [|a pre IH].
  - change ("" +:+ suf) with suf. rewrite regex_search_unfold, Hm. by eexists.
  - rewrite string_app_cons, regex_search_unfold.
    destruct (match_here (String a (pre +:+ suf))); [by eexists|done].
Qed.

End Regex.

(** X5: the helper returns a run id exactly for the messages that contain
    the phrase "while a run run_TOKEN is active" with a non-empty
    alphanumeric TOKEN, and what it returns is "run_" followed by the
    whole TOKEN of such an occurrence (of the one at the start, when the
    message starts with the phrase). *)
Theorem extract_reads_the_phrase :
  (forall msg rid,
     extractActiveRunIdFromErrorMessage (Some msg) = Some rid ->
     exists pre tok post,
       msg = pre +:+ "while a run run_" +:+ tok +:+ " is active" +:+ post
       /\ rid = "run_" +:+ tok /\ tok <> "" /\ all_alnum tok = true)
  /\ (forall pre tok post,
        tok <> "" -> all_alnum tok = true ->
        is_Some (extractActiveRunIdFromErrorMessage
                   (Some (pre +:+ "while a run run_" +:+ tok +:+ " is active" +:+ post))))
  /\ (forall tok post,
        tok <> "" -> all_alnum tok = true ->
        extractActiveRunIdFromErrorMessage
          (Some ("while a run run_" +:+ tok +:+ " is active" +:+ post))
        = Some ("run_" +:+ tok)).
Proof.
  split; [|split].
  - intros msg rid H. unfold extractActiveRunIdFromErrorMessage in H.
    apply regex_search_Some in H as (pre & suf & -> & Hm).
    apply match_here_Some in Hm as (tok & post & -> & -> & Hne & Htok).
    by exists pre, tok, post.
  - intros pre tok post Hne Htok. unfold extractActiveRunIdFromErrorMessage.
    eapply regex_search_finds. by apply match_here_phrase.
  - intros tok post Hne Htok. unfold extractActiveRunIdFromErrorMessage.
    by rewrite regex_search_unfold, match_here_phrase.
Qed.

(** X5 at the run [run_abc123]. *)
Lemma extract_reads_the_phrase_witness :
  extractActiveRunIdFromErrorMessage (Some "while a run run_abc123 is active.")
  = Some "run_abc123"
  /\ is_Some (extractActiveRunIdFromErrorMessage (Some (conflict_message "run_abc123"))).
Proof.
  split.
  - apply (proj2 (proj2 extract_reads_the_phrase) "abc123" ".");
      [discriminate|reflexivity].
  - apply (proj1 (proj2 extract_reads_the_phrase)
             "Can't add messages to thread_1 " "abc123" ".");
      [discriminate|reflexivity].
Defined.

(** ** Polling to the end *)

(** X6: when none of six polls shows a figure or an active run -- a
    rejected retrieve counts as such a poll -- reconciliation returns no
    usage after exactly six retrieves and the five pauses between them. *)
Theorem usage_reconciliation_exhausted (client : Client) (threadId rid : string) (w : World) :
  has_runs_retrieve client = true ->
  rid <> "" ->
  (forall j, j < 6 -> inconclusive (poll_reply client threadId rid (trace w) j) = true) ->
  retrieveRunUsageWithRetry client threadId (Some rid) w
  = (Ok None, after w (usage_polls threadId rid 6))
  /\ count_effects is_retrieve (usage_polls threadId rid 6) = 6
  /\ count_effects is_pause (usage_polls threadId rid 6) = 5.
Proof.
  intros Hret Hrid Hinc. split; [|done].
  unfold retrieveRunUsageWithRetry. rewrite Hret, truthy_nonempty by done.
  cbn [negb orb]. change (default "" (Some rid)) with rid.
  change 6 with (5 + 1) at 1.
  rewrite usage_loop_skip by (first [lia|intros j Hj; apply Hinc; lia]).
  assert (Hr : poll_reply client threadId rid
                 (trace (after w (active_polls threadId rid 5))) 0
               = poll_reply client threadId rid (trace w) 5)
    by (by rewrite poll_reply_0).
  rewrite usage_loop_step. cbv zeta. rewrite Hr.
  pose proof (Hinc 5 ltac:(lia)) as H5. unfold inconclusive in H5.
  apply andb_true_iff in H5 as [Ht Ha].
  apply negb_true_iff in Ht. apply negb_true_iff in Ha. rewrite Ht, Ha.
  change (0 + 5 <? 5)%nat with false. cbv iota.
  change (usage_loop client threadId rid 0 (S (0 + 5))) with (@ret (option (Z * Z)) None).
  unfold ret. by rewrite after_after.
Qed.

(** X6 at a provider that rejects every retrieve. *)
Lemma usage_reconciliation_exhausted_witness :
  retrieveRunUsageWithRetry (scripted unreachable_metadata) "thread_1" (Some "run_1")
    fresh_world
  = (Ok None, after fresh_world (usage_polls "thread_1" "run_1" 6)).
Proof.
  apply (usage_reconciliation_exhausted (scripted unreachable_metadata) "thread_1" "run_1"
           fresh_world); [reflexivity|discriminate|].
  intros j Hj. reflexivity.
Defined.

(** ** The cost of a sweep *)

Lemma active_polls_counts threadId runId k :
  length (active_polls threadId runId k) = 2 * k
  /\ count_effects is_pause (active_polls threadId runId k) = k.
Proof.
  induction k as [|k [IH1 IH2]]; [done|].
  rewrite active_polls_S, length_app, count_effects_app, IH1, IH2.
  unfold count_effects. simpl. lia.
Qed.

Lemma segment_counts threadId runId seg :
  cancel_segment threadId runId seg ->
  length seg <= 21 /\ count_effects is_pause seg <= 10.
Proof.
  intros (k & final & -> & Hk). unfold poll_pattern.
  destruct (active_polls_counts threadId runId k) as [Hl Hp].
  change (RunsCancel threadId runId :: ?l) with ([RunsCancel threadId runId] ++ l).
  rewrite !length_app, !count_effects_app, Hl, Hp.
  unfold count_effects. destruct final; simpl; lia.
Qed.

Lemma segments_counts threadId ids segs :
  Forall2 (cancel_segment threadId) ids segs ->
  length (concat segs) <= 21 * length ids
  /\ count_effects is_pause (concat segs) <= 10 * length ids.
Proof.
  induction 1 as [|rid seg ids segs Hseg _ [IH1 IH2]]; [done|].
  apply segment_counts in Hseg as [H1 H2]. simpl.
  rewrite length_app, count_effects_app. lia.
Qed.

(** X7: a sweep is bounded by the listing: with [n] listed runs that have
    an id other than the excluded one and an active status, it adds at
    most 1 + 21 n effects to the trace and pauses at most 10 n times (2.5 s
    for each such run); with none, it makes the listing call and nothing
    else. *)
Theorem sweep_is_bounded (client : Client) (threadId : string)
    (excludeRunId : option string) (w : World) :
  let n := length (List.filter (eligible excludeRunId)
                     (listed client threadId (trace w))) in
  exists new,
    snd (cancelActiveRuns client threadId excludeRunId w) = after w new
    /\ length new <= 1 + 21 * n
    /\ count_effects is_pause new <= 10 * n
    /\ length (cancels_of new) <= n
    /\ (n = 0 -> new = if has_runs_list client then [RunsList threadId 10] else []).
Proof.
  intros n.
  destruct (cancelActiveRuns_shape client threadId excludeRunId w)
    as (ids & segs & Hsegs & Hw & Hpre & _).
  assert (Hn : length ids <= n).
  { apply prefix_length in Hpre. by rewrite length_fmap in Hpre. }
  destruct (segments_counts threadId ids segs Hsegs) as [Hl Hp].
  pose proof (segments_sweep threadId ids segs Hsegs) as [_ Hc].
  eexists. split; [exact Hw|].
  rewrite length_app, count_effects_app.
  assert (Hhead : length (if has_runs_list client then [RunsList threadId 10] else []) <= 1
                  /\ count_effects is_pause
                       (if has_runs_list client then [RunsList threadId 10] else []) = 0
                  /\ cancels_of (if has_runs_list client then [RunsList threadId 10] else [])
                     = []).
  { destruct (has_runs_list client); simpl; split; (lia || done). }
  destruct Hhead as (Hh1 & Hh2 & Hh3).
  split; [lia|]. split; [lia|]. split.
  - unfold cancels_of in *. rewrite omap_app, Hh3, Hc. simpl. lia.
  - intros Hn0. assert (ids = []) as -> by (destruct ids; [done|simpl in Hn; lia]).
    inversion Hsegs; subst. simpl. by rewrite app_nil_r.
Qed.

(** ** The two phases of a streaming route *)

Section Phases.

Lemma chat_try_phases client assistantId threadId message w :
  chat_try client assistantId threadId message w
  = bind (chat_open client assistantId threadId message) (chat_close client threadId)
      (flushed w).
Proof.
  unfold chat_try, chat_open, chat_close. unfold bind at 1, on_response.
  fold (flushed w). unfold bind.
  destruct (cancelActiveRuns client threadId None (flushed w)) as [[[]|e] w1]; [|done].
  destruct (append_message client threadId message w1) as [[[]|e] w2]; [|done].
  by destruct (call _ _ w2) as [[stream|e] w3].
Qed.

Lemma tool_outputs_try_phases client threadId runId toolOutputs w :
  tool_outputs_try client threadId runId toolOutputs w
  = bind (tool_outputs_open client threadId runId toolOutputs)
      (tool_outputs_close client threadId toolOutputs) (flushed w).
Proof.
  unfold tool_outputs_try, tool_outputs_open, tool_outputs_close.
  unfold bind at 1, on_response. fold (flushed w). unfold bind.
  destruct (cancelActiveRuns client threadId (Some runId) (flushed w)) as [[[]|e] w1];
    [|done].
  by destruct (call _ _ w1) as [[stream|e] w2].
Qed.

Lemma adds_only_weaken {A} (P Q : Effect -> bool) (m : Prog A) :
  (forall e, P e = true -> Q e = true) -> adds_only P m -> adds_only Q m.
Proof.
  intros HPQ Hm w. destruct (Hm w) as (new & Hw & HP). exists new. split; [done|].
  rewrite forallb_forall in *. auto.
Qed.

Lemma adds_only_ret {A} P (a : A) : adds_only P (ret a).
Proof. intros w. exists []. unfold ret. simpl. by rewrite after_nil. Qed.

Lemma adds_only_bind {A B} P (m : Prog A) (f : A -> Prog B) :
  adds_only P m -> (forall a, adds_only P (f a)) -> adds_only P (bind m f).
Proof.
  intros Hm Hf w. unfold bind. destruct (Hm w) as (new1 & Hw1 & HP1).
  destruct (m w) as [[a|e] w1]; simpl in Hw1; subst w1.
  - destruct (Hf a (after w new1)) as (new2 & Hw2 & HP2). exists (new1 ++ new2).
    rewrite Hw2, after_after, forallb_app, HP1, HP2. done.
  - by exists new1.
Qed.

Lemma adds_only_call {A} (P : Effect -> bool) (e : Effect)
    (reply : list Effect -> Result A) :
  P e = true -> adds_only P (call e reply).
Proof. intros He w. exists [e]. split; [done|]. simpl. by rewrite He. Qed.

Lemma adds_only_emit (P : Effect -> bool) (e : Effect) : P e = true -> adds_only P (emit e).
Proof. intros He w. exists [e]. split; [done|]. simpl. by rewrite He. Qed.

Lemma adds_only_sweep client threadId excludeRunId :
  adds_only (sweep_effect threadId) (cancelActiveRuns client threadId excludeRunId).
Proof.
  intros w.
  destruct (cancelActiveRuns_shape client threadId excludeRunId w)
    as (ids & segs & Hsegs & -> & _).
  eexists. split; [done|].
  apply segments_sweep in Hsegs as [Hs _]. rewrite forallb_app, Hs.
  destruct (has_runs_list client); simpl; [|done]. by rewrite String.eqb_refl.
Qed.

Lemma adds_only_usage client threadId runId :
  adds_only (sweep_effect threadId) (retrieveRunUsageWithRetry client threadId runId).
Proof.
  intros w.
  destruct (reconciliation_polls_bounded client threadId runId w) as (k & u & _ & ->).
  eexists. split; [done|].
  destruct k as [|k]; [done|]. simpl. unfold poll_pattern.
  rewrite forallb_app, active_polls_sweep. simpl. by rewrite String.eqb_refl.
Qed.

Lemma sweep_effect_provider threadId e : sweep_effect threadId e = true -> provider_effect e = true.
Proof. by destruct e. Qed.

Lemma adds_only_append client threadId message :
  adds_only provider_effect (append_message client threadId message).
Proof.
  intros w. rewrite append_message_cases. cbv zeta.
  assert (Hone : exists new,
            after w [MessagesCreate threadId message] = after w new
            /\ forallb provider_effect new = true) by (by eexists).
  destruct (messages_create client (trace w) threadId message) as [|e]; [done|].
  destruct (extractActiveRunIdFromErrorMessage e) as [rid|]; [|done].
  destruct (has_runs_cancel client); [|done].
  assert (Hrec : adds_only provider_effect
            (call (RunsCancel threadId rid) (fun h => runs_cancel client h threadId rid) ;;;
             cancelActiveRuns client threadId None ;;;
             call (MessagesCreate threadId message)
               (fun h => messages_create client h threadId message))).
  { apply adds_only_bind; [by apply adds_only_call|]. intros _.
    apply adds_only_bind; [|intros _; by apply adds_only_call].
    eapply adds_only_weaken; [apply sweep_effect_provider|apply adds_only_sweep]. }
  destruct (Hrec (after w [MessagesCreate threadId message])) as (new & -> & HP).
  exists ([MessagesCreate threadId message] ++ new).
  by rewrite after_after, forallb_app, HP.
Qed.

Lemma adds_only_chat_open client assistantId threadId message :
  adds_only provider_effect (chat_open client assistantId threadId message).
Proof.
  unfold chat_open.
  apply adds_only_bind.
  { eapply adds_only_weaken; [apply sweep_effect_provider|apply adds_only_sweep]. }
  intros _. apply adds_only_bind; [apply adds_only_append|].
  intros _. by apply adds_only_call.
Qed.

Lemma adds_only_tool_outputs_open client threadId runId toolOutputs :
  adds_only provider_effect (tool_outputs_open client threadId runId toolOutputs).
Proof.
  unfold tool_outputs_open.
  apply adds_only_bind.
  { eapply adds_only_weaken; [apply sweep_effect_provider|apply adds_only_sweep]. }
  intros _. by apply adds_only_call.
Qed.

Lemma usage_polls_sweep threadId runId k :
  forallb (sweep_effect threadId) (usage_polls threadId runId k) = true
  /\ cancels_of (usage_polls threadId runId k) = [].
Proof.
  destruct k as [|k]; [done|]. simpl. unfold poll_pattern. split.
  - rewrite forallb_app, active_polls_sweep. simpl. by rewrite String.eqb_refl.
  - unfold cancels_of. rewrite omap_app.
    fold (cancels_of (active_polls threadId runId k)). by rewrite active_polls_cancels.
Qed.

(** The second phase never fails: it relays the stream, polls for the
    usage at most six times and writes the audit record. *)
Lemma chat_close_outcome client threadId stream w :
  let r := fst (handleStream stream (response w)) in
  exists k usage,
    k <= 6
    /\ chat_close client threadId stream w
       = (Ok tt,
          {| trace := trace w ++ usage_polls threadId (default "" (sr_runId r)) k
                      ++ [LogRequest threadId "chat" (sr_toolCallCount r)
                            (fst (reported_usage r usage)) (snd (reported_usage r usage))
                            (log_status (sr_error r)) (log_error (sr_error r))];
             response := snd (handleStream stream (response w)) |}).
Proof.
  intros r. unfold chat_close, bind, relay. subst r.
  destruct (handleStream stream (response w)) as [r res1]. simpl.
  destruct (reconciliation_polls_bounded client threadId (sr_runId r)
              {| trace := trace w; response := res1 |}) as (k & u & Hk & Hu).
  rewrite Hu. exists k, u. split; [done|]. unfold emit. simpl.
  by rewrite <- app_assoc.
Qed.

Lemma tool_outputs_close_outcome client threadId toolOutputs stream w :
  let r := fst (handleStream stream (response w)) in
  exists k usage,
    k <= 6
    /\ tool_outputs_close client threadId toolOutputs stream w
       = (Ok tt,
          {| trace := trace w ++ usage_polls threadId (default "" (sr_runId r)) k
                      ++ [LogRequest threadId "tool_output" (length toolOutputs)
                            (fst (reported_usage r usage)) (snd (reported_usage r usage))
                            (log_status (sr_error r)) (log_error (sr_error r))];
             response := snd (handleStream stream (response w)) |}).
Proof.
  intros r. unfold tool_outputs_close, bind, relay. subst r.
  destruct (handleStream stream (response w)) as [r res1]. simpl.
  destruct (negb (truthy_str (sr_runId r))).
  - exists 0, None. split; [lia|]. unfold ret, emit. simpl. done.
  - destruct (reconciliation_polls_bounded client threadId (sr_runId r)
                {| trace := trace w; response := res1 |}) as (k & u & Hk & Hu).
    rewrite Hu. exists k, u. split; [done|]. unfold emit. simpl.
    by rewrite <- app_assoc.
Qed.

(** A streaming route after its checks: what the first phase adds, and
    then either the [catch] block or the second phase. *)
Lemma chat_run_outcome db client assistantId threadId message w :
  exists new,
    forallb provider_effect new = true
    /\ snd (chat_open client assistantId threadId message (flushed w))
       = after (flushed w) new
    /\ ((exists e,
           fst (chat_open client assistantId threadId message (flushed w)) = Throw e
           /\ match chat_try client assistantId threadId message w with
              | (Ok _, w') => w'
              | (Throw e', w') => chat_catch db threadId e' w'
              end
              = {| trace := trace w ++ new
                            ++ LogRequest threadId "chat" 0 0 0 "error" e
                               :: status_update db (trace w ++ new) threadId e;
                   response := res_end (res_write (FError e)
                                          (res_flushHeaders (response w))) |})
        \/ (exists stream k usage,
              let r := fst (handleStream stream (res_flushHeaders (response w))) in
              fst (chat_open client assistantId threadId message (flushed w)) = Ok stream
              /\ k <= 6
              /\ match chat_try client assistantId threadId message w with
                 | (Ok _, w') => w'
                 | (Throw e', w') => chat_catch db threadId e' w'
                 end
                 = {| trace := trace w ++ new
                               ++ usage_polls threadId (default "" (sr_runId r)) k
                               ++ [LogRequest threadId "chat" (sr_toolCallCount r)
                                     (fst (reported_usage r usage))
                                     (snd (reported_usage r usage))
                                     (log_status (sr_error r)) (log_error (sr_error r))];
                      response := snd (handleStream stream
                                         (res_flushHeaders (response w))) |})).
Proof.
  destruct (adds_only_chat_open client assistantId threadId message (flushed w))
    as (new & Hw & HP).
  exists new. split; [done|]. split; [done|].
  rewrite chat_try_phases. unfold bind.
  destruct (chat_open client assistantId threadId message (flushed w)) as [[stream|e] w1];
    simpl in Hw; subst w1.
  - right. destruct (chat_close_outcome client threadId stream (after (flushed w) new))
      as (k & usage & Hk & ->).
    exists stream, k, usage. simpl. split; [done|]. split; [done|].
    by rewrite <- !app_assoc.
  - left. exists e. split; [done|]. unfold chat_catch, status_update, report_error. simpl.
    destruct (logRequest db (trace w ++ new) threadId "chat" 0 0 0 "error" e);
      by rewrite <- !app_assoc.
Qed.

Lemma tool_outputs_run_outcome client threadId runId toolOutputs w :
  exists new,
    forallb provider_effect new = true
    /\ snd (tool_outputs_open client threadId runId toolOutputs (flushed w))
       = after (flushed w) new
    /\ ((exists e,
           fst (tool_outputs_open client threadId runId toolOutputs (flushed w)) = Throw e
           /\ match tool_outputs_try client threadId runId toolOutputs w with
              | (Ok _, w') => w'
              | (Throw e', w') => tool_outputs_catch threadId toolOutputs e' w'
              end
              = {| trace := trace w ++ new
                            ++ [LogRequest threadId "tool_output" (length toolOutputs)
                                  0 0 "error" e];
                   response := res_end (res_write (FError e)
                                          (res_flushHeaders (response w))) |})
        \/ (exists stream k usage,
              let r := fst (handleStream stream (res_flushHeaders (response w))) in
              fst (tool_outputs_open client threadId runId toolOutputs (flushed w))
              = Ok stream
              /\ k <= 6
              /\ match tool_outputs_try client threadId runId toolOutputs w with
                 | (Ok _, w') => w'
                 | (Throw e', w') => tool_outputs_catch threadId toolOutputs e' w'
                 end
                 = {| trace := trace w ++ new
                               ++ usage_polls threadId (default "" (sr_runId r)) k
                               ++ [LogRequest threadId "tool_output" (length toolOutputs)
                                     (fst (reported_usage r usage))
                                     (snd (reported_usage r usage))
                                     (log_status (sr_error r)) (log_error (sr_error r))];
                      response := snd (handleStream stream
                                         (res_flushHeaders (response w))) |})).
Proof.
  destruct (adds_only_tool_outputs_open client threadId runId toolOutputs (flushed w))
    as (new & Hw & HP).
  exists new. split; [done|]. split; [done|].
  rewrite tool_outputs_try_phases. unfold bind.
  destruct (tool_outputs_open client threadId runId toolOutputs (flushed w))
    as [[stream|e] w1]; simpl in Hw; subst w1.
  - right. destruct (tool_outputs_close_outcome client threadId toolOutputs stream
                       (after (flushed w) new)) as (k & usage & Hk & ->).
    exists stream, k, usage. simpl. split; [done|]. split; [done|].
    by rewrite <- !app_assoc.
  - left. exists e. split; [done|]. unfold tool_outputs_catch, report_error. simpl.
    by rewrite <- !app_assoc.
Qed.

End Phases.

(** ** What a request leaves behind *)

Lemma consume_response evs : forall st res,
  body (snd (consume evs st res)) = body res
  /\ statusCode (snd (consume evs st res)) = statusCode res.
Proof.
  induction evs as [|ev evs IH]; intros st res; [done|]. simpl.
  destruct (on_event ev st) as [st' fs].
  destruct (IH st' (foldl (fun r f => res_write f r) res fs)) as [-> ->].
  clear. revert res. induction fs as [|f fs IH]; intros res; [done|]. simpl.
  by destruct (IH (res_write f res)) as [-> ->].
Qed.

(** The relay does not touch the status or the JSON body, and ends the
    response. *)
Lemma handleStream_response stream res :
  body (snd (handleStream stream res)) = body res
  /\ statusCode (snd (handleStream stream res)) = statusCode res
  /\ headersSent (snd (handleStream stream res)) = true
  /\ ended (snd (handleStream stream res)) = true.
Proof.
  unfold handleStream.
  destruct (consume_response (stream_events stream) initial_state res) as [Hb Hs].
  destruct (consume (stream_events stream) initial_state res) as [st res1]. simpl in *.
  destruct (stream_end stream); simpl; [case_decide|]; simpl; by rewrite Hb, Hs.
Qed.

Lemma stream_answer stream (res : Response) :
  body (snd (handleStream stream (res_flushHeaders res))) = body res
  /\ headersSent (snd (handleStream stream (res_flushHeaders res))) = true
  /\ ended (snd (handleStream stream (res_flushHeaders res))) = true
  /\ exists mid last,
       frames (snd (handleStream stream (res_flushHeaders res)))
       = frames res ++ mid ++ [last]
       /\ is_terminal last = true
       /\ Forall (fun f => is_terminal f = false) mid.
Proof.
  destruct (handleStream_response stream (res_flushHeaders res)) as (Hb & _ & Hh & He).
  destruct (handleStream_frames stream (res_flushHeaders res)) as (texts & Htexts & Hfr).
  apply text_not_terminal in Htexts as [Hterm _].
  split; [done|]. split; [done|]. split; [done|].
  rewrite Hfr. unfold closing_frames. simpl frames.
  destruct (stream_end stream) as [|msg].
  - case_decide.
    + eexists (texts ++ [FToolCalls _ _]), (FDone _).
      rewrite <- !app_assoc. split; [done|]. split; [done|].
      apply Forall_app. split; [done|]. by repeat constructor.
    + by eexists texts, (FDone _).
  - by eexists texts, (FError msg).
Qed.

Lemma error_answer e (res : Response) :
  let res' := res_end (res_write (FError e) (res_flushHeaders res)) in
  body res' = body res
  /\ headersSent res' = true
  /\ ended res' = true
  /\ exists mid last,
       frames res' = frames res ++ mid ++ [last]
       /\ is_terminal last = true
       /\ Forall (fun f => is_terminal f = false) mid.
Proof. simpl. repeat split. exists [], (FError e). by repeat split. Qed.

(** X8: whatever the request, the session table and the provider, the chat
    route and the tool-outputs route answer in one of two ways: with a
    JSON refusal (400, 404 or 403) that calls nothing, logs nothing and
    writes no frame, or with an event stream -- no JSON body, headers
    sent, response ended -- whose last frame is its only [done] or
    [error] frame. *)
Theorem answer_is_refusal_or_stream (db : LlmLogOps) (sessions : Sessions) (w : World) :
  (forall req, refusal_or_stream w (post_chat db sessions req w))
  /\ (forall req, refusal_or_stream w (post_tool_outputs sessions req w)).
Proof.
  split; intros req.
  - unfold post_chat.
    destruct (negb (truthy_str (chat_threadId req)) || negb (truthy_str (chat_message req))).
    { left. exists 400; do 2 eexists. split; [simpl; tauto|done]. }
    destruct (sessions !! default "" (chat_threadId req)) as [session|]; cycle 1.
    { left. exists 404; do 2 eexists. split; [simpl; tauto|done]. }
    destruct (negb (session_userId session =? chat_user_id req)%Z).
    { left. exists 403; do 2 eexists. split; [simpl; tauto|done]. }
    right.
    destruct (chat_run_outcome db (session_client session) (session_assistantId session)
                (default "" (chat_threadId req)) (default "" (chat_message req)) w)
      as (new & _ & _ & [(e & _ & ->)|(stream & k & usage & _ & _ & ->)]).
    + apply error_answer.
    + apply stream_answer.
  - unfold post_tool_outputs.
    destruct (negb (truthy_str (to_threadId req)) || negb (truthy_str (to_runId req))
              || negb (bool_decide (is_Some (to_toolOutputs req)))).
    { left. exists 400; do 2 eexists. split; [simpl; tauto|done]. }
    destruct (sessions !! default "" (to_threadId req)) as [session|]; cycle 1.
    { left. exists 404; do 2 eexists. split; [simpl; tauto|done]. }
    destruct (negb (session_userId session =? to_user_id req)%Z).
    { left. exists 403; do 2 eexists. split; [simpl; tauto|done]. }
    right.
    destruct (tool_outputs_run_outcome (session_client session)
                (default "" (to_threadId req)) (default "" (to_runId req))
                (default [] (to_toolOutputs req)) w)
      as (new & _ & _ & [(e & _ & ->)|(stream & k & usage & _ & _ & ->)]).
    + apply error_answer.
    + apply stream_answer.
Qed.

Lemma post_tool_outputs_authorized sessions req session threadId runId toolOutputs w :
  to_threadId req = Some threadId ->
  to_runId req = Some runId ->
  to_toolOutputs req = Some toolOutputs ->
  threadId <> "" -> runId <> "" ->
  sessions !! threadId = Some session ->
  session_userId session = to_user_id req ->
  post_tool_outputs sessions req w
  = match tool_outputs_try (session_client session) threadId runId toolOutputs w with
    | (Ok _, w') => w'
    | (Throw e, w') => tool_outputs_catch threadId toolOutputs e w'
    end.
Proof.
  intros Ht Hr Ho Hte Hre Hs Hu. unfold post_tool_outputs.
  rewrite Ht, Hr, Ho, !truthy_nonempty by done. simpl.
  rewrite Hs, Hu, Z.eqb_refl. done.
Qed.

Lemma provider_effect_no_audit (l : list Effect) :
  forallb provider_effect l = true ->
  List.filter is_log l = [] /\ List.filter is_status_update l = [].
Proof.
  induction l as [|e l IH]; [done|]. simpl.
  intros [He Hl]%andb_true_iff. destruct (IH Hl) as [-> ->].
  unfold provider_effect in He. apply andb_true_iff in He as [H1 H2].
  apply negb_true_iff in H1. apply negb_true_iff in H2. by rewrite H1, H2.
Qed.

Lemma usage_polls_no_audit threadId runId k :
  List.filter is_log (usage_polls threadId runId k) = []
  /\ List.filter is_status_update (usage_polls threadId runId k) = [].
Proof.
  apply provider_effect_no_audit.
  destruct (usage_polls_sweep threadId runId k) as [Hs _].
  rewrite forallb_forall in *. intros e He. eapply sweep_effect_provider. by apply Hs.
Qed.

(** X9: a request that passes the checks is recorded exactly once: the
    trace gains one [LogRequest], for its thread and its kind (for tool
    outputs, with the number of outputs as count).  A chat request that
    fails before its stream starts also marks the session as in error --
    if its log write returns: when that write throws, the session is left
    as it is.  A chat request whose stream starts, and any tool-outputs
    request, never touches the session status. *)
Theorem request_is_logged_once :
  (forall (db : LlmLogOps) (sessions : Sessions) (req : ChatRequest) (session : Session)
          (threadId message : string) (w : World),
     chat_threadId req = Some threadId ->
     chat_message req = Some message ->
     threadId <> "" -> message <> "" ->
     sessions !! threadId = Some session ->
     session_userId session = chat_user_id req ->
     exists new,
       trace (post_chat db sessions req w) = trace w ++ new
       /\ (exists n i o st err,
             List.filter is_log new = [LogRequest threadId "chat" n i o st err])
       /\ List.filter is_status_update new
          = match chat_open (session_client session) (session_assistantId session)
                    threadId message (flushed w) with
            | (Ok _, _) => []
            | (Throw e, w') =>
                match logRequest db (trace w') threadId "chat" 0 0 0 "error" e with
                | Ok _ => [UpdateSessionStatus threadId "error" e]
                | Throw _ => []
                end
            end)
  /\ (forall (sessions : Sessions) (req : ToolOutputsRequest) (session : Session)
             (threadId runId : string) (toolOutputs : list ToolOutput) (w : World),
        to_threadId req = Some threadId ->
        to_runId req = Some runId ->
        to_toolOutputs req = Some toolOutputs ->
        threadId <> "" -> runId <> "" ->
        sessions !! threadId = Some session ->
        session_userId session = to_user_id req ->
        exists new,
          trace (post_tool_outputs sessions req w) = trace w ++ new
          /\ (exists i o st err,
                List.filter is_log new
                = [LogRequest threadId "tool_output" (length toolOutputs) i o st err])
          /\ List.filter is_status_update new = []).
Proof.
  split.
  - intros db sessions req session threadId message w Ht Hm Hte Hme Hs Hu.
    rewrite (post_chat_authorized db sessions req session threadId message) by done.
    destruct (chat_run_outcome db (session_client session) (session_assistantId session)
                threadId message w)
      as (new & HP & Hsnd & [(e & Hfst & ->)|(stream & k & usage & Hfst & _ & ->)]);
      apply provider_effect_no_audit in HP as [Hl Hst]; simpl trace; eexists;
      (split; [done|]);
      rewrite (surjective_pairing (chat_open _ _ threadId message (flushed w))), Hfst;
      try rewrite Hsnd.
    + change (trace (after (flushed w) new)) with (trace w ++ new).
      fold (status_update db (trace w ++ new) threadId e).
      destruct (status_update_audit db (trace w ++ new) threadId e) as (_ & Hl3 & Hst3 & _).
      rewrite !List.filter_app, Hl, Hst. cbn [List.filter is_log is_status_update app].
      rewrite Hl3, Hst3. split; [|done]. by do 5 eexists.
    + destruct (usage_polls_no_audit threadId
                  (default "" (sr_runId (fst (handleStream stream
                     (res_flushHeaders (response w)))))) k) as [Hl2 Hst2].
      rewrite !List.filter_app, Hl, Hst, Hl2, Hst2. simpl. split; [|done].
      by do 5 eexists.
  - intros sessions req session threadId runId toolOutputs w Ht Hr Ho Hte Hre Hs Hu.
    rewrite (post_tool_outputs_authorized sessions req session threadId runId toolOutputs)
      by done.
    destruct (tool_outputs_run_outcome (session_client session) threadId runId toolOutputs w)
      as (new & HP & _ & [(e & _ & ->)|(stream & k & usage & _ & _ & ->)]);
      apply provider_effect_no_audit in HP as [Hl Hst]; simpl trace; eexists;
      (split; [done|]).
    + rewrite !List.filter_app, Hl, Hst. simpl. split; [|done]. by do 4 eexists.
    + destruct (usage_polls_no_audit threadId
                  (default "" (sr_runId (fst (handleStream stream
                     (res_flushHeaders (response w)))))) k) as [Hl2 Hst2].
      rewrite !List.filter_app, Hl, Hst, Hl2, Hst2. simpl. split; [|done].
      by do 4 eexists.
Qed.

(** X9 at a wedged session (the chat fails before its stream), with an
    audit store that works and with one that does not, and at a
    tool-outputs request that streams. *)
Lemma request_is_logged_once_witness :
  (exists new,
     trace (post_chat working_database (registry wedged_session) (chat_from 7) fresh_world)
     = [] ++ new
     /\ (exists n i o st err,
           List.filter is_log new = [LogRequest "thread_1" "chat" n i o st err])
     /\ List.filter is_status_update new
        = [UpdateSessionStatus "thread_1" "error" (Some (conflict_message "run_def456"))])
  /\ (exists new,
        trace (post_chat broken_database (registry wedged_session) (chat_from 7) fresh_world)
        = [] ++ new
        /\ (exists n i o st err,
              List.filter is_log new = [LogRequest "thread_1" "chat" n i o st err])
        /\ List.filter is_status_update new = [])
  /\ (exists new,
        trace (post_tool_outputs (registry waiting_run) (tool_outputs_from 7) fresh_world)
        = [] ++ new
        /\ (exists i o st err,
              List.filter is_log new = [LogRequest "thread_1" "tool_output" 1 i o st err])
        /\ List.filter is_status_update new = []).
Proof.
  split; [|split].
  - exact (proj1 request_is_logged_once working_database (registry wedged_session)
             (chat_from 7) (session_of wedged_session 7) "thread_1" "list files"
             fresh_world
             eq_refl eq_refl ltac:(discriminate) ltac:(discriminate) eq_refl eq_refl).
  - exact (proj1 request_is_logged_once broken_database (registry wedged_session)
             (chat_from 7) (session_of wedged_session 7) "thread_1" "list files"
             fresh_world
             eq_refl eq_refl ltac:(discriminate) ltac:(discriminate) eq_refl eq_refl).
  - exact (proj2 request_is_logged_once (registry waiting_run) (tool_outputs_from 7)
             (session_of waiting_run 7) "thread_1" "run_1"
             [{| tool_call_id := "call_1"; tool_output := "done" |}] fresh_world
             eq_refl eq_refl eq_refl ltac:(discriminate) ltac:(discriminate)
             eq_refl eq_refl).
Defined.

Lemma sweep_listing_rejected client threadId excludeRunId w e :
  has_runs_list client = true ->
  runs_list client (trace w) threadId 10 = Throw e ->
  cancelActiveRuns client threadId excludeRunId w
  = (Throw e, after w [RunsList threadId 10]).
Proof.
  intros Hl He. unfold cancelActiveRuns. rewrite Hl. cbn [negb].
  unfold bind, call. by rewrite He.
Qed.

(** X10: the sweep is not optional: when the provider rejects the listing,
    the request ends there.  The message is not appended (the tool outputs
    are not submitted), no run is cancelled, the client gets one [error]
    frame with the provider's message, and the failure is logged with
    zero tokens; the chat route then marks the session as in error,
    unless its log write throws. *)
Theorem listing_failure_is_fatal :
  (forall (db : LlmLogOps) (sessions : Sessions) (req : ChatRequest) (session : Session)
          (threadId message : string) (w : World) (e : option string),
     chat_threadId req = Some threadId ->
     chat_message req = Some message ->
     threadId <> "" -> message <> "" ->
     sessions !! threadId = Some session ->
     session_userId session = chat_user_id req ->
     has_runs_list (session_client session) = true ->
     runs_list (session_client session) (trace w) threadId 10 = Throw e ->
     post_chat db sessions req w
     = {| trace := trace w ++ [RunsList threadId 10;
                               LogRequest threadId "chat" 0 0 0 "error" e]
                   ++ match logRequest db (trace w ++ [RunsList threadId 10])
                              threadId "chat" 0 0 0 "error" e with
                      | Ok _ => [UpdateSessionStatus threadId "error" e]
                      | Throw _ => []
                      end;
          response := res_end (res_write (FError e) (res_flushHeaders (response w))) |})
  /\ (forall (sessions : Sessions) (req : ToolOutputsRequest) (session : Session)
             (threadId runId : string) (toolOutputs : list ToolOutput) (w : World)
             (e : option string),
        to_threadId req = Some threadId ->
        to_runId req = Some runId ->
        to_toolOutputs req = Some toolOutputs ->
        threadId <> "" -> runId <> "" ->
        sessions !! threadId = Some session ->
        session_userId session = to_user_id req ->
        has_runs_list (session_client session) = true ->
        runs_list (session_client session) (trace w) threadId 10 = Throw e ->
        post_tool_outputs sessions req w
        = {| trace := trace w ++ [RunsList threadId 10;
                                  LogRequest threadId "tool_output" (length toolOutputs)
                                    0 0 "error" e];
             response := res_end (res_write (FError e)
                                    (res_flushHeaders (response w))) |}).
Proof.
  split.
  - intros db sessions req session threadId message w e Ht Hm Hte Hme Hs Hu Hl He.
    rewrite (post_chat_authorized db sessions req session threadId message) by done.
    rewrite chat_try_phases. unfold bind, chat_open. unfold bind at 1.
    rewrite (sweep_listing_rejected _ _ _ (flushed w) e) by done.
    unfold chat_catch, report_error. simpl.
    destruct (logRequest db (trace w ++ [RunsList threadId 10]) threadId
                "chat" 0 0 0 "error" e); by rewrite <- app_assoc.
  - intros sessions req session threadId runId toolOutputs w e
      Ht Hr Ho Hte Hre Hs Hu Hl He.
    rewrite (post_tool_outputs_authorized sessions req session threadId runId toolOutputs)
      by done.
    rewrite tool_outputs_try_phases. unfold bind, tool_outputs_open. unfold bind at 1.
    rewrite (sweep_listing_rejected _ _ _ (flushed w) e) by done.
    unfold tool_outputs_catch, report_error. simpl. by rewrite <- app_assoc.
Qed.

(** X10 at a provider that is down, with an audit store that is down too. *)
Lemma listing_failure_is_fatal_witness :
  post_chat broken_database {[ "thread_1" := session_with provider_down 7 ]}
    (chat_from 7) fresh_world
  = {| trace := [RunsList "thread_1" 10;
                 LogRequest "thread_1" "chat" 0 0 0 "error"
                   (Some "503 Service Unavailable")];
       response := res_end (res_write (FError (Some "503 Service Unavailable"))
                              (res_flushHeaders fresh_response)) |}
  /\ trace (post_tool_outputs {[ "thread_1" := session_with provider_down 7 ]}
              (tool_outputs_from 7) fresh_world)
     = [RunsList "thread_1" 10;
        LogRequest "thread_1" "tool_output" 1 0 0 "error" (Some "503 Service Unavailable")].
Proof.
  split.
  - exact (proj1 listing_failure_is_fatal broken_database
             {[ "thread_1" := session_with provider_down 7 ]}
             (chat_from 7) (session_with provider_down 7) "thread_1" "list files"
             fresh_world (Some "503 Service Unavailable")
             eq_refl eq_refl ltac:(discriminate) ltac:(discriminate)
             eq_refl eq_refl eq_refl eq_refl).
  - rewrite (proj2 listing_failure_is_fatal {[ "thread_1" := session_with provider_down 7 ]}
               (tool_outputs_from 7) (session_with provider_down 7) "thread_1" "run_1"
               [{| tool_call_id := "call_1"; tool_output := "done" |}]
               fresh_world (Some "503 Service Unavailable")
               eq_refl eq_refl eq_refl ltac:(discriminate) ltac:(discriminate)
               eq_refl eq_refl eq_refl eq_refl).
    reflexivity.
Defined.

(** ** The tool-outputs route and the run it resumes *)

Lemma segments_spare threadId rid ids segs :
  Forall2 (cancel_segment threadId) ids segs ->
  rid ∉ ids ->
  forallb (spares rid) (concat segs) = true.
Proof.
  induction 1 as [|id seg ids segs (k & final & -> & _) _ IH]; intros Hnot; [done|].
  apply not_elem_of_cons in Hnot as [Hne Hnot].
  rewrite concat_cons, forallb_app, IH by done. unfold poll_pattern.
  change (RunsCancel threadId id :: ?l) with ([RunsCancel threadId id] ++ l).
  rewrite !forallb_app.
  assert (forallb (spares rid) (active_polls threadId id k) = true) as ->.
  { clear. induction k as [|k IHk]; [done|]. by rewrite active_polls_S. }
  apply String.eqb_neq in Hne. simpl. rewrite String.eqb_sym, Hne.
  by destruct final.
Qed.

Lemma spares_facts rid (l : list Effect) :
  forallb (spares rid) l = true ->
  count_effects is_create l = 0 /\ rid ∉ cancels_of l.
Proof.
  induction l as [|e l IH]; [intros _; split; [done|apply not_elem_of_nil]|].
  simpl. intros [He Hl]%andb_true_iff. destruct (IH Hl) as [IH1 IH2].
  unfold count_effects, cancels_of in *.
  destruct e; simpl in *; try done.
  split; [done|]. apply not_elem_of_cons. split; [|done].
  apply negb_true_iff, String.eqb_neq in He. congruence.
Qed.

Lemma sweep_no_submit threadId (l : list Effect) :
  forallb (sweep_effect threadId) l = true -> count_effects is_submit l = 0.
Proof.
  unfold count_effects. induction l as [|e l IH]; [done|]. simpl.
  intros [He Hl]%andb_true_iff. destruct e; try discriminate; simpl; by apply IH.
Qed.

Lemma usage_polls_spare threadId runId rid k :
  forallb (spares rid) (usage_polls threadId runId k) = true.
Proof.
  destruct k as [|k]; [done|]. simpl. unfold poll_pattern. rewrite forallb_app.
  assert (forallb (spares rid) (active_polls threadId runId k) = true) as ->; [|done].
  induction k as [|k IHk]; [done|]. by rewrite active_polls_S.
Qed.

(** X11: no tool-outputs request appends a message, none cancels the run
    it submits its outputs to, and none submits more than once -- whatever
    the session table and the provider. *)
Theorem tool_outputs_spares_its_run (sessions : Sessions) (req : ToolOutputsRequest)
    (w : World) :
  exists new,
    trace (post_tool_outputs sessions req w) = trace w ++ new
    /\ count_effects is_create new = 0
    /\ count_effects is_submit new <= 1
    /\ forall rid, to_runId req = Some rid -> rid ∉ cancels_of new.
Proof.
  assert (Hnil : forall res, exists new,
            trace {| trace := trace w; response := res |} = trace w ++ new
            /\ count_effects is_create new = 0
            /\ count_effects is_submit new <= 1
            /\ forall rid, to_runId req = Some rid -> rid ∉ cancels_of new).
  { intros res. exists []. simpl. rewrite app_nil_r. repeat split; try done.
    - unfold count_effects. simpl. lia.
    - intros rid _. apply not_elem_of_nil. }
  unfold post_tool_outputs.
  destruct (negb (truthy_str (to_threadId req)) || negb (truthy_str (to_runId req))
            || negb (bool_decide (is_Some (to_toolOutputs req)))) eqn:Hreq; [apply Hnil|].
  destruct (sessions !! default "" (to_threadId req)) as [session|]; [|apply Hnil].
  destruct (negb (session_userId session =? to_user_id req)%Z); [apply Hnil|].
  clear Hnil.
  set (client := session_client session).
  set (threadId := default "" (to_threadId req)).
  set (runId := default "" (to_runId req)).
  set (toolOutputs := default [] (to_toolOutputs req)).
  set (submit := SubmitToolOutputsStream threadId runId toolOutputs).
  destruct (cancelActiveRuns_shape client threadId (Some runId) (flushed w))
    as (ids & segs & Hsegs & Hw & Hpre & _).
  assert (Hnot : runId ∉ ids).
  { intros Hin. destruct Hpre as [rest Hpre].
    assert (Hin' : runId ∈ run_id_of <$> List.filter (eligible (Some runId))
                             (listed client threadId (trace (flushed w))))
      by (rewrite Hpre; apply elem_of_app; by left).
    apply elem_of_eligible_ids in Hin' as (run & _ & Hid & Hel).
    by apply eligible_ident in Hel as [_ Hne]. }
  set (sw := (if has_runs_list client then [RunsList threadId 10] else []) ++ concat segs)
    in *.
  assert (Hsw : forallb (spares runId) sw = true /\ count_effects is_submit sw = 0).
  { subst sw. split.
    - rewrite forallb_app, (segments_spare threadId runId ids segs) by done.
      by destruct (has_runs_list client).
    - apply (sweep_no_submit threadId). apply segments_sweep in Hsegs as [Hs _].
      rewrite forallb_app, Hs. destruct (has_runs_list client); simpl; [|done].
      by rewrite String.eqb_refl. }
  destruct Hsw as [Hspare Hsub].
  assert (Hfinish : forall new,
            forallb (spares runId) new = true ->
            count_effects is_submit new <= 1 ->
            count_effects is_create new = 0
            /\ count_effects is_submit new <= 1
            /\ forall rid, to_runId req = Some rid -> rid ∉ cancels_of new).
  { intros new Hsp Hone. destruct (spares_facts runId new Hsp) as [Hc Hcan].
    split; [done|]. split; [done|]. intros rid Hrid. subst runId. by rewrite Hrid in Hcan. }
  rewrite tool_outputs_try_phases. unfold bind, tool_outputs_open. unfold bind at 1.
  destruct (cancelActiveRuns client threadId (Some runId) (flushed w)) as [[[]|e] w1];
    simpl in Hw; subst w1.
  - unfold call. fold submit.
    destruct (runs_submitToolOutputsStream client _ threadId runId toolOutputs)
      as [stream|e].
    + destruct (tool_outputs_close_outcome client threadId toolOutputs stream
                  {| trace := trace (after (flushed w) sw) ++ [submit];
                     response := response (after (flushed w) sw) |})
        as (k & usage & _ & ->).
      eexists. split; [simpl; by rewrite <- !app_assoc|]. apply Hfinish.
      * rewrite !forallb_app, Hspare, usage_polls_spare. done.
      * rewrite !count_effects_app, Hsub.
        rewrite (sweep_no_submit threadId (usage_polls _ _ _))
          by apply usage_polls_sweep.
        unfold count_effects. simpl. lia.
    + eexists. split; [simpl; by rewrite <- !app_assoc|]. apply Hfinish.
      * rewrite !forallb_app, Hspare. done.
      * rewrite !count_effects_app, Hsub. unfold count_effects. simpl. lia.
  - eexists. split; [simpl; by rewrite <- !app_assoc|]. apply Hfinish.
    + rewrite !forallb_app, Hspare. done.
    + rewrite !count_effects_app, Hsub. unfold count_effects. simpl. lia.
Qed.

(** ** Ending a session *)

(** X12: when its owner deletes a session, the entry of that thread is
    gone and every other entry is as before, the answer is 200 with
    [success], and the session is marked completed in the audit log.  From
    then on a chat or tool-outputs request for the thread is refused with
    404 [SESSION_NOT_FOUND], whoever asks, and a second deletion is
    refused with 404 and changes nothing. *)
Theorem owner_deletes_session (sessions : Sessions) (session : Session)
    (threadId : string) (user : Z) (w : World) :
  sessions !! threadId = Some session ->
  session_userId session = user ->
  threadId <> "" ->
  let sessions' := fst (delete_session sessions threadId user w) in
  let w' := snd (delete_session sessions threadId user w) in
  sessions' !! threadId = None
  /\ (forall t, t <> threadId -> sessions' !! t = sessions !! t)
  /\ statusCode (response w') = 200 /\ body (response w') = Some JSuccess
  /\ trace w' = trace w ++ [UpdateSessionStatus threadId "completed" None]
  /\ (forall db message anyone w2,
        message <> "" ->
        post_chat db sessions'
          {| chat_threadId := Some threadId; chat_message := Some message;
             chat_user_id := anyone |} w2
        = {| trace := trace w2;
             response := res_json 404
               (JError "SESSION_NOT_FOUND"
                  (Some "Thread session not found. Call /assistant first."))
               (response w2) |})
  /\ (forall runId toolOutputs anyone w2,
        runId <> "" ->
        post_tool_outputs sessions'
          {| to_threadId := Some threadId; to_runId := Some runId;
             to_toolOutputs := Some toolOutputs; to_user_id := anyone |} w2
        = {| trace := trace w2;
             response := res_json 404
               (JError "SESSION_NOT_FOUND" (Some "Thread session not found"))
               (response w2) |})
  /\ (forall anyone w2,
        delete_session sessions' threadId anyone w2
        = (sessions',
           {| trace := trace w2;
              response := res_json 404 (JError "Session not found" None)
                            (response w2) |})).
Proof.
  intros Hs Hu Ht sessions' w'.
  assert (Hdel : delete_session sessions threadId user w
                 = (delete threadId sessions,
                    {| trace := trace w ++ [UpdateSessionStatus threadId "completed" None];
                       response := res_json 200 JSuccess (response w) |})).
  { unfold delete_session. by rewrite Hs, Hu, Z.eqb_refl. }
  subst sessions' w'. rewrite Hdel. cbn [fst snd].
  assert (Hgone : delete threadId sessions !! threadId = None) by apply lookup_delete_eq.
  split; [done|]. split; [intros t Hne; by apply lookup_delete_ne|].
  split; [done|]. split; [done|]. split; [done|].
  split; [|split].
  - intros db message anyone w2 Hm. unfold post_chat. cbn [chat_threadId chat_message].
    rewrite !truthy_nonempty by done. simpl. by rewrite Hgone.
  - intros runId toolOutputs anyone w2 Hr. unfold post_tool_outputs.
    cbn [to_threadId to_runId to_toolOutputs].
    rewrite !truthy_nonempty by done. simpl. by rewrite Hgone.
  - intros anyone w2. unfold delete_session. by rewrite Hgone.
Qed.

(** X12 at the session of user 7. *)
Lemma owner_deletes_session_witness :
  fst (delete_session (registry waiting_run) "thread_1" 7 fresh_world) !! "thread_1" = None
  /\ statusCode (response (post_chat working_database
                   (fst (delete_session (registry waiting_run) "thread_1" 7 fresh_world))
                   (chat_from 7) fresh_world)) = 404.
Proof.
  destruct (owner_deletes_session (registry waiting_run) (session_of waiting_run 7)
              "thread_1" 7 fresh_world eq_refl eq_refl ltac:(discriminate))
    as (Hgone & _ & _ & _ & _ & Hchat & _).
  split; [exact Hgone|].
  unfold chat_from.
  rewrite (Hchat working_database "list files" 7%Z fresh_world) by discriminate.
  reflexivity.
Defined.

(** ** Starting a session *)

(** X13: a user whose API key, resource name or deployment is missing or
    empty starts nothing: no provider call is made, the session table is
    unchanged, and the answer is 500 [LLM_ERROR] with the message "User
    Azure config not complete" (which neither of the two friendlier
    mappings of the [catch] block matches). *)
Theorem incomplete_credentials_start_nothing (sdk : Platform) (sessions : Sessions)
    (instructions : option string) (user : User) :
  truthy_str (user_apiKey user) && truthy_str (user_azureResourceName user)
  && truthy_str (user_azureDeployment user) = false ->
  getAzureClient sdk user = Throw (Some "User Azure config not complete")
  /\ post_assistant sdk sessions instructions user
     = (sessions, [],
        {| answer_status := 500;
           answer_body := JRefused "LLM_ERROR" (Some "User Azure config not complete") |}).
Proof.
  intros H. unfold post_assistant, getAzureClient, azure_options.
  assert (negb (truthy_str (user_apiKey user))
          || negb (truthy_str (user_azureResourceName user))
          || negb (truthy_str (user_azureDeployment user)) = true) as ->.
  { destruct (truthy_str (user_apiKey user)), (truthy_str (user_azureResourceName user)),
      (truthy_str (user_azureDeployment user)); done. }
  done.
Qed.

(** X13 at a user without any Azure configuration. *)
Lemma incomplete_credentials_start_nothing_witness :
  post_assistant working_platform ∅ None unconfigured_user
  = (∅, [],
     {| answer_status := 500;
        answer_body := JRefused "LLM_ERROR" (Some "User Azure config not complete") |}).
Proof.
  exact (proj2 (incomplete_credentials_start_nothing working_platform ∅ None
                  unconfigured_user eq_refl)).
Defined.

(** X14: when both provider calls succeed, the session is stored under the
    new thread id with the caller as owner (replacing an entry of that
    thread, leaving every other entry), one audit row is written, and the
    answer carries the two ids.  From then on a chat request of the caller
    for that thread enters the [try] block of the chat route with the
    stored client and assistant, and a chat request of anyone else is
    refused as unauthorized without any effect. *)
Theorem started_session_belongs_to_caller (sdk : Platform) (sessions : Sessions)
    (instructions : option string) (user : User) (client : Client)
    (assistantId threadId : string) :
  getAzureClient sdk user = Ok client ->
  assistants_create sdk client
    (str_or instructions "You are an expert AI coding assistant.")
    (default "" (user_azureDeployment user)) = Ok assistantId ->
  threads_create sdk client = Ok threadId ->
  threadId <> "" ->
  let started := {| session_client := client; session_assistantId := assistantId;
                    session_userId := user_id user;
                    session_deploymentName := default "" (user_azureDeployment user) |} in
  let sessions' := fst (fst (post_assistant sdk sessions instructions user)) in
  post_assistant sdk sessions instructions user
  = (<[threadId := started]> sessions,
     [AssistantsCreate "Agentic Coder"
        (str_or instructions "You are an expert AI coding assistant.")
        (default "" (user_azureDeployment user));
      ThreadsCreate;
      CreateSession threadId assistantId (user_id user) (user_email user)],
     {| answer_status := 200; answer_body := JStarted threadId assistantId |})
  /\ sessions' !! threadId = Some started
  /\ (forall t, t <> threadId -> sessions' !! t = sessions !! t)
  /\ (forall db message w,
        message <> "" ->
        post_chat db sessions'
          {| chat_threadId := Some threadId; chat_message := Some message;
             chat_user_id := user_id user |} w
        = match chat_try client assistantId threadId message w with
          | (Ok _, w') => w'
          | (Throw e, w') => chat_catch db threadId e w'
          end)
  /\ (forall db message other w,
        message <> "" -> other <> user_id user ->
        is_unauthorized
          (response (post_chat db sessions'
                       {| chat_threadId := Some threadId; chat_message := Some message;
                          chat_user_id := other |} w))
        /\ trace (post_chat db sessions'
                    {| chat_threadId := Some threadId; chat_message := Some message;
                       chat_user_id := other |} w) = trace w).
Proof.
  intros Hc Ha Ht Hne started sessions'.
  assert (Hpost : post_assistant sdk sessions instructions user
                  = (<[threadId := started]> sessions,
                     [AssistantsCreate "Agentic Coder"
                        (str_or instructions "You are an expert AI coding assistant.")
                        (default "" (user_azureDeployment user));
                      ThreadsCreate;
                      CreateSession threadId assistantId (user_id user) (user_email user)],
                     {| answer_status := 200;
                        answer_body := JStarted threadId assistantId |})).
  { unfold post_assistant. by rewrite Hc, Ha, Ht. }
  subst sessions'. rewrite Hpost. cbn [fst].
  assert (Hlook : <[threadId := started]> sessions !! threadId = Some started)
    by apply lookup_insert_eq.
  split; [done|]. split; [done|].
  split; [intros t Hnt; by apply lookup_insert_ne|]. split.
  - intros db message w Hm.
    by apply (post_chat_authorized db _ _ started threadId message).
  - intros db message other w Hm Ho. unfold post_chat. cbn [chat_threadId chat_message].
    rewrite !truthy_nonempty by done. simpl. rewrite Hlook. subst started.
    cbn [session_userId].
    assert ((user_id user =? other)%Z = false) as -> by (apply Z.eqb_neq; congruence).
    simpl. split; [|done]. split; [done|by eexists].
Qed.

(** X14 at a configured user on a working platform. *)
Lemma started_session_belongs_to_caller_witness :
  answer_body (snd (post_assistant working_platform ∅ None configured_user))
  = JStarted "thread_1" "asst_1"
  /\ is_unauthorized
       (response (post_chat working_database
                    (fst (fst (post_assistant working_platform ∅ None configured_user)))
                    (chat_from 8) fresh_world)).
Proof.
  destruct (started_session_belongs_to_caller working_platform ∅ None configured_user
              (scripted waiting_run) "asst_1" "thread_1"
              eq_refl eq_refl eq_refl ltac:(discriminate))
    as (Hpost & _ & _ & _ & Hother).
  split; [by rewrite Hpost|].
  apply (Hother working_database "list files" 8%Z fresh_world); discriminate.
Defined.

(** X15: the route registers all or nothing: either it answers 200 with
    the ids of a session it has stored and logged, or it answers 401, 400
    or 500 with a refusal, and then the session table is unchanged and no
    audit row was written -- also when the assistant had already been
    created and only the thread failed. *)
Theorem session_start_all_or_nothing (sdk : Platform) (sessions : Sessions)
    (instructions : option string) (user : User) :
  let sessions' := fst (fst (post_assistant sdk sessions instructions user)) in
  let calls := snd (fst (post_assistant sdk sessions instructions user)) in
  let answer := snd (post_assistant sdk sessions instructions user) in
  (exists threadId assistantId session,
     answer = {| answer_status := 200; answer_body := JStarted threadId assistantId |}
     /\ sessions' = <[threadId := session]> sessions
     /\ session_userId session = user_id user
     /\ session_assistantId session = assistantId
     /\ List.filter (fun c => match c with CreateSession _ _ _ _ => true | _ => false end)
          calls
        = [CreateSession threadId assistantId (user_id user) (user_email user)])
  \/ (In (answer_status answer) [401; 400; 500]
      /\ (exists error message, answer_body answer = JRefused error message)
      /\ sessions' = sessions
      /\ List.filter (fun c => match c with CreateSession _ _ _ _ => true | _ => false end)
           calls = []).
Proof.
  assert (Hcatch : forall e,
            In (answer_status (assistant_catch e)) [401; 400; 500]
            /\ exists error message, answer_body (assistant_catch e) = JRefused error message).
  { intros e. unfold assistant_catch.
    destruct (match e with Some m => includes "API key" m | None => false end);
      [simpl; split; [tauto|by do 2 eexists]|].
    destruct (match e with Some m => includes "resource" m | None => false end);
      simpl; (split; [tauto|by do 2 eexists]). }
  unfold post_assistant.
  destruct (getAzureClient sdk user) as [client|e]; [|right; by destruct (Hcatch e)].
  destruct (assistants_create sdk client _ _) as [assistantId|e];
    [|right; by destruct (Hcatch e)].
  destruct (threads_create sdk client) as [threadId|e];
    [|right; by destruct (Hcatch e)].
  left. by do 3 eexists.
Qed.





(** ** The principal of a request *)

Lemma split_on_lacks (c : ascii) (s : string) : lacks c s = true -> split_on c s = [s].
Proof.
  induction s as [|a s IH]; [done|]. simpl.
  intros [Ha Hs]%andb_true_iff. apply negb_true_iff in Ha. by rewrite Ha, IH.
Qed.

Lemma split_on_app (c : ascii) (p s : string) :
  lacks c p = true -> split_on c (p +:+ String c s) = p :: split_on c s.
Proof.
  induction p as [|a p IH]; intros Hp.
  - change ("" +:+ String c s) with (String c s). simpl. by rewrite Ascii.eqb_refl.
  - simpl in Hp. apply andb_true_iff in Hp as [Ha Hp]. apply negb_true_iff in Ha.
    rewrite string_app_cons. simpl. by rewrite Ha, IH.
Qed.

(** X17: the middleware lets a request through only with a user that the
    directory holds under the id its token verifies to, and that user is
    what the routes see as principal; every refusal is a 401.  The token
    is the cookie when there is one, and otherwise the second
    space-separated word of the Authorization header: for "Bearer TOKEN"
    with a TOKEN free of spaces, TOKEN itself. *)
Theorem verifyToken_admits_verified_users (dir : Directory) (req : Credentials) :
  (forall user,
     verifyToken dir req = Next user ->
     exists token userId,
       request_token req = Some token /\ token <> ""
       /\ jwt_verify dir token = Ok userId
       /\ findById dir userId = Ok (Some user))
  /\ (forall status error, verifyToken dir req = Rejected status error -> status = 401)
  /\ (forall token,
        cookie_token req = Some token -> token <> "" -> request_token req = Some token)
  /\ (forall scheme token,
        truthy_str (cookie_token req) = false ->
        authorization req = Some (scheme +:+ " " +:+ token) ->
        lacks " " scheme = true -> lacks " " token = true ->
        request_token req = Some token).
Proof.
  split; [|split; [|split]].
  - intros user. unfold verifyToken.
    destruct (request_token req) as [token|] eqn:Htok; [|done]. simpl.
    destruct (String.eqb_spec token "") as [|Hne]; [done|]. simpl.
    destruct (jwt_verify dir token) as [userId|] eqn:Hv; [|done].
    destruct (findById dir userId) as [[u|]|] eqn:Hf; try done.
    intros [= ->]. by exists token, userId.
  - intros status error. unfold verifyToken.
    destruct (negb (truthy_str (request_token req))); [by intros [= <- _]|].
    destruct (jwt_verify dir _) as [userId|]; [|by intros [= <- _]].
    destruct (findById dir userId) as [[u|]|]; try done; by intros [= <- _].
  - intros token Hc Hne. unfold request_token. by rewrite Hc, truthy_nonempty.
  - intros scheme token Hc Ha Hs Ht. unfold request_token. rewrite Hc, Ha. simpl.
    change (" " +:+ token) with (String " " token).
    by rewrite split_on_app, split_on_lacks.
Qed.

(** X17 at a directory that knows the token [tok-7] of user 7. *)
Lemma verifyToken_admits_verified_users_witness :
  verifyToken one_user_directory
    {| cookie_token := None; authorization := Some "Bearer tok-7" |} = Next configured_user
  /\ request_token {| cookie_token := None; authorization := Some "Bearer tok-7" |}
     = Some "tok-7"
  /\ verifyToken one_user_directory
       {| cookie_token := None; authorization := Some "Bearer" |}
     = Rejected 401 "No token provided".
Proof.
  split; [reflexivity|]. split; [|reflexivity].
  apply (proj2 (proj2 (proj2 (verifyToken_admits_verified_users one_user_directory
           {| cookie_token := None; authorization := Some "Bearer tok-7" |})))
           "Bearer" "tok-7"); reflexivity.
Defined.

(** ** Failures that are not retried, and failures the client does not see *)

(** X18: an append that is rejected with a message naming no active run
    (or without a message) is not retried: the chat request ends with that
    error after exactly one append and without any further provider call,
    with an [error] frame and an error record; the session is then marked
    in error, unless the log write throws. *)
Theorem other_append_failure_is_fatal (db : LlmLogOps) (sessions : Sessions)
    (req : ChatRequest) (session : Session) (threadId message : string) (w w1 : World)
    (e : option string) :
  chat_threadId req = Some threadId ->
  chat_message req = Some message ->
  threadId <> "" -> message <> "" ->
  sessions !! threadId = Some session ->
  session_userId session = chat_user_id req ->
  cancelActiveRuns (session_client session) threadId None (flushed w) = (Ok tt, w1) ->
  messages_create (session_client session) (trace w1) threadId message = Throw e ->
  extractActiveRunIdFromErrorMessage e = None ->
  post_chat db sessions req w
  = {| trace := trace w1 ++ [MessagesCreate threadId message;
                             LogRequest threadId "chat" 0 0 0 "error" e]
                ++ match logRequest db (trace w1 ++ [MessagesCreate threadId message])
                           threadId "chat" 0 0 0 "error" e with
                   | Ok _ => [UpdateSessionStatus threadId "error" e]
                   | Throw _ => []
                   end;
       response := res_end (res_write (FError e) (res_flushHeaders (response w))) |}.
Proof.
  intros Ht Hm Hte Hme Hs Hu Hsweep He Hrid.
  rewrite (post_chat_authorized db sessions req session threadId message) by done.
  rewrite chat_try_phases. unfold bind, chat_open. unfold bind at 1. rewrite Hsweep.
  unfold bind at 1. rewrite append_message_cases. cbv zeta. rewrite He, Hrid.
  destruct (cancelActiveRuns_shape (session_client session) threadId None (flushed w))
    as (ids & segs & _ & Hw1 & _).
  rewrite Hsweep in Hw1. simpl in Hw1. subst w1.
  unfold chat_catch, report_error. simpl.
  match goal with
  | |- context [logRequest db ?h threadId "chat" 0 0 0 "error" e] =>
      destruct (logRequest db h threadId "chat" 0 0 0 "error" e)
  end; by rewrite <- !app_assoc.
Qed.

(** X18 at a provider that answers every append with a rate-limit error,
    with an audit store that works and with one that does not. *)
Lemma other_append_failure_is_fatal_witness :
  post_chat working_database (registry rate_limited) (chat_from 7) fresh_world
  = {| trace := [RunsList "thread_1" 10; MessagesCreate "thread_1" "list files";
                 LogRequest "thread_1" "chat" 0 0 0 "error" (Some "429 Rate limit reached");
                 UpdateSessionStatus "thread_1" "error" (Some "429 Rate limit reached")];
       response := res_end (res_write (FError (Some "429 Rate limit reached"))
                              (res_flushHeaders fresh_response)) |}
  /\ post_chat broken_database (registry rate_limited) (chat_from 7) fresh_world
     = {| trace := [RunsList "thread_1" 10; MessagesCreate "thread_1" "list files";
                    LogRequest "thread_1" "chat" 0 0 0 "error"
                      (Some "429 Rate limit reached")];
          response := res_end (res_write (FError (Some "429 Rate limit reached"))
                                 (res_flushHeaders fresh_response)) |}.
Proof.
  split.
  - exact (other_append_failure_is_fatal working_database (registry rate_limited)
             (chat_from 7) (session_of rate_limited 7) "thread_1" "list files" fresh_world
             (after (flushed fresh_world) [RunsList "thread_1" 10])
             (Some "429 Rate limit reached")
             eq_refl eq_refl ltac:(discriminate) ltac:(discriminate)
             eq_refl eq_refl eq_refl eq_refl eq_refl).
  - exact (other_append_failure_is_fatal broken_database (registry rate_limited)
             (chat_from 7) (session_of rate_limited 7) "thread_1" "list files" fresh_world
             (after (flushed fresh_world) [RunsList "thread_1" 10])
             (Some "429 Rate limit reached")
             eq_refl eq_refl ltac:(discriminate) ltac:(discriminate)
             eq_refl eq_refl eq_refl eq_refl eq_refl).
Defined.




